(** * DomainSniper: catalog ingestion, synchronisation and cache invalidation

    A shallow embedding of [src/lib/server/external-domains.ts] (row
    extractor and page fetcher) and of the SQLite variant of
    [src/lib/server/soinda-store.ts] (catalog store, query engine,
    analytics cache, synchronisation engine), followed by the properties
    the specification states about them. The PostgreSQL variant of the
    store has the same control flow, with awaited queries.

    Modelling conventions.
    - JavaScript strings are byte strings ([string]); [toLowerCase], [trim]
      and the regular-expression classes act on the ASCII range, every byte
      above 127 is neither a letter, a word character nor white space.
    - Finite JavaScript numbers are the exact rationals they denote ([Q],
      in lowest terms where the code computes them); rounding and overflow
      of doubles are not modelled. Page numbers, counters and times in
      milliseconds are integers ([Z]).
    - A JSON object is the list of its members in enumeration order, with
      distinct keys; [undefined] is [None].
    - A thrown [Error] is its message, carried on the left of a sum; the
      store itself does not fail.
    - The SQLite tables are finite maps keyed by their primary key; the
      [raw_json] column is the JSON value its text denotes.
    - The process runs one call at a time. Its state, the state of its
      database, the clock and the effects it has had on the outside are one
      record, [world], threaded through the calls; time passes in requests
      and timers only.
    - The environment, the upstream server, timers, dates, collation and
      the unmodelled parts of the SQL engine are the fields of the class
      [Host]. *)

From Stdlib Require Import ZArith QArith Qround Qminmax Lia Bool Ascii String List.
From stdpp Require Import base option list gmap strings pretty.

Local Open Scope string_scope.
Set Warnings "-register-all,-clear-no-such-hyp".

(** ** JavaScript string primitives *)

Module JsString.

Definition code (c : ascii) : nat := nat_of_ascii c.

Definition between (lo hi : nat) (c : ascii) : bool :=
  (lo <=? code c)%nat && (code c <=? hi)%nat.

Definition isUpper : ascii -> bool := between 65 90.
Definition isLower : ascii -> bool := between 97 122.
Definition isDigit : ascii -> bool := between 48 57.
Definition isAlpha (c : ascii) : bool := isUpper c || isLower c.

(** [\w] of a regular expression: [A-Za-z0-9_]. *)
Definition isWord (c : ascii) : bool :=
  isAlpha c || isDigit c || (code c =? 95)%nat.

(** White space and line terminators removed by [trim] and skipped by
    [Number]: TAB, LF, VT, FF, CR and SPACE. *)
Definition isSpace (c : ascii) : bool :=
  between 9 13 c || (code c =? 32)%nat.

Definition lowerChar (c : ascii) : ascii :=
  if isUpper c then ascii_of_nat (code c + 32) else c.

Fixpoint toLowerCase (s : string) : string :=
  match s with
  | EmptyString => EmptyString
  | String c r => String (lowerChar c) (toLowerCase r)
  end.

Fixpoint trimStart (s : string) : string :=
  match s with
  | EmptyString => EmptyString
  | String c r => if isSpace c then trimStart r else s
  end.

(** [trimEnd] keeps a character when it is not white space or when
    something survives after it. *)
Fixpoint trimEnd (s : string) : string :=
  match s with
  | EmptyString => EmptyString
  | String c r =>
      match trimEnd r with
      | EmptyString => if isSpace c then EmptyString else String c EmptyString
      | r' => String c r'
      end
  end.

Definition trim (s : string) : string := trimEnd (trimStart s).

Fixpoint startsWith (p s : string) : bool :=
  match p, s with
  | EmptyString, _ => true
  | String a p', String b s' => if Ascii.eqb a b then startsWith p' s' else false
  | String _ _, EmptyString => false
  end.

(** [hay.includes(needle)] *)
Fixpoint includes (needle hay : string) : bool :=
  startsWith needle hay ||
  match hay with
  | EmptyString => false
  | String _ r => includes needle r
  end.

(** [s.replace(",", ".")] with a string pattern: the first occurrence only. *)
Fixpoint replaceFirst (a b : ascii) (s : string) : string :=
  match s with
  | EmptyString => EmptyString
  | String c r => if Ascii.eqb c a then String b r else String c (replaceFirst a b r)
  end.

(** The last element of [s.split(".")]: the text after the last dot, the
    whole string when there is none. *)
Fixpoint lastLabel (s : string) : string :=
  match s with
  | EmptyString => EmptyString
  | String c r =>
      if includes "." r then lastLabel r
      else if Ascii.eqb c "."%char then r else s
  end.

(** [s.slice(0, n)] *)
Fixpoint firstChars (n : nat) (s : string) : string :=
  match n, s with
  | S n', String c r => String c (firstChars n' r)
  | _, _ => EmptyString
  end.

(** A string is truthy when it is not empty. *)
Definition truthy (s : string) : bool :=
  match s with EmptyString => false | _ => true end.

End JsString.

(** ** A backtracking matcher for the regular expressions of the source *)

Module Regex.
Import JsString.

Inductive regex :=
| Class (p : ascii -> bool)
| Seq (r1 r2 : regex)
| Rep (r : regex) (lo : nat) (hi : option nat)
| WordBoundary.

Inductive outcome :=
| Matched (rest : string)
| NoMatch
| OutOfFuel.

(** The character before the current position and the text from it on. *)
Definition cont := option ascii -> string -> outcome.

Definition wordAt (c : option ascii) : bool :=
  match c with Some a => isWord a | None => false end.

Definition first (s : string) : option ascii :=
  match s with EmptyString => None | String c _ => Some c end.

(** Greedy quantifier [{lo,hi}] around the matcher [step] of its atom.
    An iteration beyond the mandatory ones that consumes nothing is
    rejected, as RepeatMatcher does. *)
Fixpoint repeatMatcher (step : option ascii -> string -> cont -> outcome)
    (fuel lo : nat) (hi : option nat) (prev : option ascii) (s : string)
    (k : cont) : outcome :=
  match fuel with
  | O => OutOfFuel
  | S fuel' =>
      let again :=
        match hi with
        | Some O => NoMatch
        | _ =>
            step prev s (fun prev' s' =>
              if (lo =? 0)%nat && (String.length s' =? String.length s)%nat
              then NoMatch
              else repeatMatcher step fuel' (Nat.pred lo) (Nat.pred <$> hi) prev' s' k)
        end in
      match lo with
      | S _ => again
      | O =>
          match again with
          | NoMatch => k prev s
          | r => r
          end
      end
  end.

Fixpoint run (r : regex) (prev : option ascii) (s : string) (k : cont) : outcome :=
  match r with
  | Class p =>
      match s with
      | String c s' => if p c then k (Some c) s' else NoMatch
      | EmptyString => NoMatch
      end
  | Seq r1 r2 => run r1 prev s (fun prev' s' => run r2 prev' s' k)
  | Rep r lo hi => repeatMatcher (run r) (S (lo + String.length s)) lo hi prev s k
  | WordBoundary =>
      if xorb (wordAt prev) (wordAt (first s)) then k prev s else NoMatch
  end.

(** [s.match(r)?.[0]] for a regular expression without the [g] flag: the
    text of the leftmost match. *)
Fixpoint searchFrom (r : regex) (prev : option ascii) (s : string) : option string :=
  match run r prev s (fun _ rest => Matched rest) with
  | Matched rest => Some (firstChars (String.length s - String.length rest) s)
  | _ =>
      match s with
      | EmptyString => None
      | String c s' => searchFrom r (Some c) s'
      end
  end.

Definition search (r : regex) (s : string) : option string := searchFrom r None s.

(** A continuation that never runs out of fuel on the text at hand or on
    a shorter one. *)
Definition decides (k : cont) (s : string) : Prop :=
  forall prev' s', (String.length s' <= String.length s)%nat -> k prev' s' <> OutOfFuel.

End Regex.

Import JsString.

(** ** external-domains.ts *)

Definition MAX_RETRIES : nat := 8.

(** [[a-z0-9]], [[a-z0-9-]] and [[a-z]] under the [i] flag. *)
Definition alnum (c : ascii) : bool := isAlpha c || isDigit c.
Definition alnumHyphen (c : ascii) : bool := alnum c || (code c =? 45)%nat.
Definition isDot (c : ascii) : bool := (code c =? 46)%nat.

(** [/\b([a-z0-9](?:[a-z0-9-]{0,61}[a-z0-9])?\.)+[a-z]{2,}\b/i] *)
Definition DOMAIN_REGEX : Regex.regex :=
  let label :=
    Regex.Seq (Regex.Class alnum)
      (Regex.Rep
         (Regex.Seq (Regex.Rep (Regex.Class alnumHyphen) 0 (Some 61)) (Regex.Class alnum))
         0 (Some 1)) in
  Regex.Seq Regex.WordBoundary
    (Regex.Seq (Regex.Rep (Regex.Seq label (Regex.Class isDot)) 1 None)
       (Regex.Seq (Regex.Rep (Regex.Class isAlpha) 2 None) Regex.WordBoundary)).

Definition findDomainInText (value : string) : option string :=
  Regex.search DOMAIN_REGEX (toLowerCase value).


(** ** JavaScript numbers and JSON values *)

Inductive jsnum :=
| NaN
| Infinite (negative : bool)
| Fin (q : Q).

Definition isFinite (n : jsnum) : bool :=
  match n with Fin _ => true | _ => false end.

Module JsNumber.

Definition digitValue (base : Z) (c : ascii) : option Z :=
  let n := Z.of_nat (code c) in
  let v :=
    if isDigit c then Some (n - 48)%Z
    else if between 97 102 c then Some (n - 87)%Z
    else if between 65 70 c then Some (n - 55)%Z
    else None in
  match v with
  | Some d => if (d <? base)%Z then Some d else None
  | None => None
  end.

(** Reads the longest run of digits of [base]: the accumulated value,
    how many digits were read, and the rest. *)
Fixpoint digits (base acc : Z) (n : nat) (s : string) : Z * nat * string :=
  match s with
  | String c r =>
      match digitValue base c with
      | Some d => digits base (acc * base + d)%Z (S n) r
      | None => (acc, n, s)
      end
  | EmptyString => (acc, n, s)
  end.

Definition pow10 (e : Z) : Q :=
  if (0 <=? e)%Z then inject_Z (10 ^ e) else (/ inject_Z (10 ^ (- e)))%Q.

Definition signOf (s : string) : bool * string :=
  match s with
  | String "-" r => (true, r)
  | String "+" r => (false, r)
  | _ => (false, s)
  end.

  (** ExponentPart, then the end of the literal. [scale] is the number of
    fraction digits already folded into [mantissa]. *)
Definition exponent (mantissa : Z) (scale : nat) (s : string) : jsnum :=
  match s with
  | EmptyString => Fin (Qred (inject_Z mantissa * pow10 (- Z.of_nat scale)%Z)%Q)
  | String c r =>
      if (code c =? 101)%nat || (code c =? 69)%nat then
        let '(neg, r1) := signOf r in
        match digits 10%Z 0%Z 0 r1 with
        | (e, S _, EmptyString) =>
            Fin (Qred (inject_Z mantissa * pow10 ((if neg then - e else e) - Z.of_nat scale)%Z)%Q)
        | _ => NaN
        end
      else NaN
  end.

(** StrUnsignedDecimalLiteral *)
Definition unsignedDecimal (s : string) : jsnum :=
  let '(ip, ni, r1) := digits 10%Z 0%Z 0 s in
  match r1 with
  | String "." r2 =>
      let '(m, nf, r3) := digits 10%Z ip 0 r2 in
      match ni, nf with
      | O, O => NaN
      | _, _ => exponent m nf r3
      end
  | _ => match ni with O => NaN | S _ => exponent ip 0 r1 end
  end.

Definition negate (n : jsnum) : jsnum :=
  match n with
  | NaN => NaN
  | Infinite b => Infinite (negb b)
  | Fin q => Fin (Qred (- q)%Q)
  end.

Definition nonDecimal (base : Z) (s : string) : jsnum :=
  match digits base 0%Z 0 s with
  | (v, S _, EmptyString) => Fin (inject_Z v)
  | _ => NaN
  end.

(** [Number(s)] on a string: StringToNumber. *)
Definition ofString (s : string) : jsnum :=
  match trim s with
  | EmptyString => Fin 0%Q
  | String "0" (String "x" r) | String "0" (String "X" r) => nonDecimal 16%Z r
  | String "0" (String "o" r) | String "0" (String "O" r) => nonDecimal 8%Z r
  | String "0" (String "b" r) | String "0" (String "B" r) => nonDecimal 2%Z r
  | t =>
      let '(neg, u) := signOf t in
      let n := if String.eqb u "Infinity" then Infinite false else unsignedDecimal u in
      if neg then negate n else n
  end.

(** The integer a numeric string denotes, when it denotes one. *)
Definition integerOf (s : string) : option Z :=
  match ofString s with
  | Fin q => if (Qden q =? 1)%positive then Some (Qnum q) else None
  | _ => None
  end.

(** [Math.ceil] on a finite number. *)
Definition ceil (q : Q) : Z := (- Qfloor (- q)%Q)%Z.

End JsNumber.

Inductive json :=
| JNull
| JBool (b : bool)
| JNum (q : Q)
| JStr (s : string)
| JArr (items : list json)
| JObj (members : list (string * json)).

(** Own enumerable properties in enumeration order: the members of an
    object, the indexed elements of an array. *)
Definition entries (v : json) : list (string * json) :=
  match v with
  | JObj kvs => kvs
  | JArr l => imap (fun i x => (pretty i, x)) l
  | _ => []
  end.

Definition keys (v : json) : list string := (entries v).*1.
Definition values (v : json) : list json := (entries v).*2.

Fixpoint assoc (k : string) (kvs : list (string * json)) : option json :=
  match kvs with
  | [] => None
  | (k', v) :: r => if String.eqb k k' then Some v else assoc k r
  end.

(** [item[key]] / [item.key]; [None] is [undefined]. *)
Definition prop (item : json) (key : string) : option json := assoc key (entries item).

(** [a ?? b] *)
Definition nullish (a b : option json) : option json :=
  match a with
  | None | Some JNull => b
  | _ => a
  end.
Infix "??" := nullish (at level 61, left associativity).

Definition asRecord (value : option json) : json :=
  match value with
  | Some (JObj kvs) => JObj kvs
  | Some (JArr l) => JArr l
  | _ => JObj []
  end.

Definition isDomainText (v : json) : bool :=
  match v with
  | JStr s => match findDomainInText s with Some d => truthy d | None => false end
  | _ => false
  end.

Definition suggestive (key : string) : bool :=
  includes "domain" key || includes "dominio" key || includes "host" key.

Definition scoreItem (item : json) : Z :=
  if isDomainText item then 2%Z
  else
    let row := asRecord (Some item) in
    match keys row with
    | [] => 0%Z
    | ks =>
        ((if existsb suggestive (map toLowerCase ks) then 3 else 0)
         + (if existsb isDomainText (values row) then 1 else 0))%Z
    end.

Definition scoreArray (items : list json) : Z :=
  fold_left (fun score item => (score + scoreItem item)%Z) items 0%Z.

Fixpoint collectArrays (depth : nat) (payload : json) {struct payload} : list (list json) :=
  if (5 <? depth)%nat then []
  else
    match payload with
    | JArr l => [l]
    | JObj kvs =>
        (fix eachValue (kvs : list (string * json)) : list (list json) :=
           match kvs with
           | [] => []
           | (_, v) :: r => (collectArrays (S depth) v ++ eachValue r)%list
           end) kvs
    | _ => []
    end.

(** [Array.prototype.sort] is stable; [cmp a b ≤ 0] keeps [a] before [b]. *)
Section Sort.
Context {A : Type} (cmp : A -> A -> Z).

Fixpoint insertSorted (x : A) (l : list A) : list A :=
  match l with
  | [] => [x]
  | y :: r => if (cmp x y <=? 0)%Z then x :: l else y :: insertSorted x r
  end.

Definition sortBy (l : list A) : list A := foldr insertSorted [] l.
End Sort.

Record ranked := { items : list json; score : Z }.

(** [b.score - a.score || b.items.length - a.items.length] *)
Definition rankOrder (a b : ranked) : Z :=
  if (score b - score a =? 0)%Z
  then (Z.of_nat (length (items b)) - Z.of_nat (length (items a)))%Z
  else (score b - score a)%Z.

Definition rank (arrays : list (list json)) : list ranked :=
  sortBy rankOrder (map (fun l => {| items := l; score := scoreArray l |}) arrays).

Definition extractRows (payload : json) : list json :=
  match rank (collectArrays 0 payload) with
  | [] => []
  | best :: _ => items best
  end.

Definition domainCandidates : list string :=
  ["domain"; "dominio"; "domain_name"; "nombre_dominio"; "name"; "hostname";
   "host"; "fqdn"; "url"; "website"; "com_domain"].

(** What one candidate key contributes: the text returned from inside the
    first loop, if that iteration returns. *)
Definition candidateDomain (item : json) (key : string) : option string :=
  match prop item key with
  | Some (JStr value) =>
      let found :=
        match findDomainInText value with
        | Some d => d
        | None => toLowerCase (trim value)
        end in
      if includes "." found then Some found else None
  | _ => None
  end.

Fixpoint firstSome {A B : Type} (f : A -> option B) (l : list A) : option B :=
  match l with
  | [] => None
  | x :: r => match f x with Some y => Some y | None => firstSome f r end
  end.

Definition scannedDomain (value : json) : option string :=
  match value with
  | JStr s =>
      match findDomainInText s with
      | Some d => if truthy d then Some d else None
      | None => None
      end
  | _ => None
  end.

Definition extractDomainField (item : json) : option string :=
  match firstSome (candidateDomain item) domainCandidates with
  | Some found => Some found
  | None => firstSome scannedDomain (values item)
  end.

Definition coerceNumber (value : option json) : option Q :=
  match value with
  | Some (JNum q) => Some q
  | Some (JStr s) =>
      match JsNumber.ofString (replaceFirst "," "." s) with
      | Fin q => Some q
      | _ => None
      end
  | _ => None
  end.

Definition trueTokens : list string :=
  ["true"; "1"; "yes"; "si"; "s√≠"; "available"; "libre"].
Definition falseTokens : list string :=
  ["false"; "0"; "no"; "occupied"; "ocupado"; "taken"].

Definition coerceBoolean (value : option json) : option bool :=
  match value with
  | Some (JBool b) => Some b
  | Some (JNum q) => Some (0 <? Qnum q)%Z
  | Some (JStr s) =>
      let normalized := toLowerCase (trim s) in
      if existsb (String.eqb normalized) trueTokens then Some true
      else if existsb (String.eqb normalized) falseTokens then Some false
      else None
  | _ => None
  end.

Definition stringOrNull (value : option json) : option string :=
  match value with Some (JStr s) => Some s | _ => None end.

Record MarketplaceDomain := {
  domain : string;
  tld : string;
  available : option bool;
  price : option Q;
  currency : option string;
  status : option string;
  raw : json;
}.

Definition normalizeDomain (row : json) : option MarketplaceDomain :=
  match row with
  | JStr text =>
      let domain :=
        match findDomainInText text with
        | Some d => d
        | None => toLowerCase (trim text)
        end in
      if negb (includes "." domain) then None
      else
        Some {| domain := domain; tld := lastLabel domain; available := None;
                price := None; currency := None; status := None;
                raw := JObj [("value", JStr text)] |}
  | _ =>
      let item := asRecord (Some row) in
      match extractDomainField item with
      | None => None
      | Some rawDomain =>
          if negb (truthy rawDomain) then None
          else
            let domain := toLowerCase (trim rawDomain) in
            let f := prop item in
            Some {|
              domain := domain;
              tld := lastLabel domain;
              available :=
                coerceBoolean
                  (f "available" ?? f "is_available" ?? f "isAvailable" ?? f "com_available"
                   ?? f "disponible" ?? f "libre" ?? f "disponibilidad");
              price :=
                coerceNumber
                  (f "price" ?? f "com_price" ?? f "amount" ?? f "precio"
                   ?? f "registration_price" ?? f "registrationPrice" ?? f "sale_price"
                   ?? f "salePrice");
              currency :=
                stringOrNull (f "currency" ?? f "currencyCode" ?? f "currency_code" ?? f "moneda");
              status :=
                stringOrNull
                  (f "status" ?? f "state" ?? f "pricingMode" ?? f "estado"
                   ?? f "availability_status");
              raw := item |}
      end
  end.

Definition parseTotal (payload : json) : option Q :=
  let data := asRecord (Some payload) in
  coerceNumber
    (prop data "total" ?? prop data "total_count" ?? prop data "totalCount" ?? prop data "count"
     ?? prop (asRecord (prop data "pagination")) "total"
     ?? prop (asRecord (prop data "meta")) "total").

(** ** The catalog table *)

Module Db.
(** One row of [soinda_domains] (type [DbDomainRow]). *)
Record row := {
  domain : string;
  tld : string;
  available : option Z;
  price : option Q;
  currency : option string;
  status : option string;
  raw_json : json;
  updated_at : string;
}.
End Db.

(** ** The host

    What the process does not define itself: the environment, the upstream
    server, timers, the date functions, string collation and the parts of
    the SQL engine that are not modelled here. *)

Module Response.
Record t := {
  status : Z;
  retryAfter : option string;  (* headers.get("retry-after") *)
  body : string + json;        (* what [json()] yields: the payload, or the error it throws *)
}.
Definition ok (r : t) : bool := (200 <=? status r)%Z && (status r <=? 299)%Z.
End Response.

Inductive orderExpr :=
| OrderColumn (column : string)
| OrderLowerColumn (column : string)
| OrderLowerJson (path : string).

Class Host := {
  (** [process.env.EXTERNAL_DOMAINS_API_KEY] *)
  apiKey : option string;
  (** The n-th request the process sends, for a page and a page size: the
      time it takes, and the response or the message of the error [fetch]
      rejects with. *)
  http : nat -> Z -> Z -> Z * (string + Response.t);
  (** The time that passes while a timer of the given delay runs. *)
  timer : Q -> Z;
  (** [new Date(ms).toISOString()] and [Date.parse], [None] for NaN. *)
  toISOString : Z -> string;
  dateParse : string -> option Z;
  (** [a.localeCompare(b)] *)
  localeCompare : string -> string -> Z;
  (** The text SQLite gives a JSON number, array or object. *)
  sqlText : json -> string;
  (** [ORDER BY expr dir]; [true] is descending. *)
  sqlOrder : orderExpr -> bool -> list Db.row -> list Db.row;
  (** The aggregate [MAX] over a column of JSON values, when it is a text. *)
  sqlMaxText : list (option json) -> option string;
  (** The top-N tables and the heat map of an analytics snapshot, a
      function of the rows the filter selects. *)
  Breakdown : Type;
  breakdown : list Db.row -> Breakdown;
}.

Module Analytics.
(** [SoindaAnalytics]; the fields [topTlds] to [heatMax] are the breakdown. *)
Record t `{Host} := {
  total : nat;
  available : nat;
  avgPrice : option Q;
  uniqueTlds : nat;
  tables : Breakdown;
}.
Record entry `{Host} := { ts : Z; version : Z; value : t }.
End Analytics.

Definition cacheKey : Type := string * string * option bool * list (string * string).

(** What the process does to the outside, in order: requests sent, timers
    awaited, batches written to the catalog table. *)
Inductive event :=
| Request (page perPage : Z)
| Sleep (ms : Q)
| Upsert (batch : list MarketplaceDomain) (nowIso : string).

(** The state of the process and of its database. *)
Record world `{Host} := {
  domains : gmap string Db.row;
  meta : gmap string (option string);
  runningSync : bool;
  analyticsVersion : Z;
  analyticsCache : gmap cacheKey Analytics.entry;
  now : Z;
  requests : nat;
  trace : list event;
}.

Section Setters.
Context `{Host}.

Definition withDomains (d : gmap string Db.row) (w : world) : world :=
  {| domains := d; meta := meta w; runningSync := runningSync w;
     analyticsVersion := analyticsVersion w; analyticsCache := analyticsCache w;
     now := now w; requests := requests w; trace := trace w |}.

Definition withMeta (m : gmap string (option string)) (w : world) : world :=
  {| domains := domains w; meta := m; runningSync := runningSync w;
     analyticsVersion := analyticsVersion w; analyticsCache := analyticsCache w;
     now := now w; requests := requests w; trace := trace w |}.

Definition withRunningSync (b : bool) (w : world) : world :=
  {| domains := domains w; meta := meta w; runningSync := b;
     analyticsVersion := analyticsVersion w; analyticsCache := analyticsCache w;
     now := now w; requests := requests w; trace := trace w |}.

Definition withAnalytics (v : Z) (c : gmap cacheKey Analytics.entry) (w : world) : world :=
  {| domains := domains w; meta := meta w; runningSync := runningSync w;
     analyticsVersion := v; analyticsCache := c;
     now := now w; requests := requests w; trace := trace w |}.

(** One effect of the host: time passes, the effect is recorded. *)
Definition withEffect (dt : Z) (sent : nat) (e : event) (w : world) : world :=
  {| domains := domains w; meta := meta w; runningSync := runningSync w;
     analyticsVersion := analyticsVersion w; analyticsCache := analyticsCache w;
     now := (now w + dt)%Z; requests := (requests w + sent)%nat;
     trace := (trace w ++ [e])%list |}.

(** [await new Promise((resolve) => setTimeout(resolve, ms))] *)
Definition sleep (ms : Q) (w : world) : world := withEffect (timer ms) 0 (Sleep ms) w.

End Setters.

(** ** Page fetcher *)

Section Fetcher.
Context `{Host}.

Definition pow2 (attempt : nat) : Q := inject_Z (2 ^ Z.of_nat attempt).

(** The delay after a 429 at the given attempt. *)
Definition rateLimitWait (retryAfterRaw : option string) (attempt : nat) : Q :=
  let retryAfterSec :=
    match retryAfterRaw with
    | Some raw => if truthy raw then JsNumber.ofString raw else NaN
    | None => NaN
    end in
  match retryAfterSec with
  | Fin sec => Qred (Qmin 120000 (Qmax 1000 (sec * 1000)))
  | _ => Qred (Qmin 120000 (2000 * pow2 attempt))
  end.

(** The delay after a status of 500 or more at the given attempt. *)
Definition serverErrorWait (attempt : nat) : Q :=
  Qred (Qmin 30000 (1000 * pow2 attempt)).

Definition rateLimitMessage : string := "Soinda rate limit (429). Reintenta en unos minutos.".

Definition unavailableMessage (lastStatus : Z) : string :=
  "Soinda API no disponible (" ++ (if (lastStatus =? 0)%Z then "sin status" else pretty lastStatus) ++ ")".

Definition rejectedMessage (status : Z) : string :=
  "Soinda API error (" ++ pretty status ++ ")".

(** The loop [for (attempt = 0; attempt <= MAX_RETRIES; attempt += 1)];
    [left] counts the iterations that remain. *)
Fixpoint attempts (left attempt : nat) (lastStatus page perPage : Z) (w : world)
    : (string + json) * world :=
  match left with
  | O =>
      if (lastStatus =? 429)%Z then (inl rateLimitMessage, w)
      else (inl (unavailableMessage lastStatus), w)
  | S left' =>
      let '(dt, answer) := http (requests w) page perPage in
      let w1 := withEffect dt 1 (Request page perPage) w in
      match answer with
      | inl err => (inl err, w1)
      | inr response =>
          if Response.ok response then (Response.body response, w1)
          else if (Response.status response =? 429)%Z then
            attempts left' (S attempt) (Response.status response) page perPage
              (sleep (rateLimitWait (Response.retryAfter response) attempt) w1)
          else if (500 <=? Response.status response)%Z then
            attempts left' (S attempt) (Response.status response) page perPage
              (sleep (serverErrorWait attempt) w1)
          else (inl (rejectedMessage (Response.status response)), w1)
      end
  end.

Definition missingKeyMessage : string := "Falta EXTERNAL_DOMAINS_API_KEY en variables de entorno".

Definition fetchExternalDomainsRaw (page perPage : Z) (w : world) : (string + json) * world :=
  match apiKey with
  | Some key =>
      if truthy key then attempts (S MAX_RETRIES) 0 0 page perPage w
      else (inl missingKeyMessage, w)
  | None => (inl missingKeyMessage, w)
  end.

End Fetcher.

Module Page.
(** The result of [fetchExternalDomainsPage]. *)
Record t := {
  data : list MarketplaceDomain;
  fields : list string;
  total : option Q;
  hasMore : bool;
  sourceCount : nat;
}.
End Page.

Section FetchPage.
Context `{Host}.

(** [Array.from(new Set(names)).sort((a, b) => a.localeCompare(b))] *)
Definition sortedFieldNames (names : list string) : list string :=
  sortBy localeCompare (remove_dups names).

Definition pageOf (payload : json) (perPage : Z) : Page.t :=
  let rows := extractRows payload in
  let data := omap normalizeDomain rows in
  {| Page.data := data;
     Page.fields := sortedFieldNames (flat_map (fun item => keys (raw item)) data);
     Page.total := parseTotal payload;
     Page.hasMore := (perPage <=? Z.of_nat (length rows))%Z;
     Page.sourceCount := length rows |}.

Definition fetchExternalDomainsPage (page perPage : Z) (w : world) : (string + Page.t) * world :=
  match fetchExternalDomainsRaw page perPage w with
  | (inl err, w') => (inl err, w')
  | (inr payload, w') => (inr (pageOf payload perPage), w')
  end.

End FetchPage.

(** ** soinda-store.ts *)

Definition TWO_HOURS_MS : Z := 2 * 60 * 60 * 1000.
Definition PAGE_SIZE_SYNC : Z := 100.
Definition ANALYTICS_CACHE_TTL_MS : Z := 5 * 60 * 1000.
Definition SYNC_MAX_PAGES_PER_RUN : nat := 80.

(** The parameters [upsertStmt.run] binds for one item. *)
Definition rowOf (item : MarketplaceDomain) (nowIso : string) : Db.row :=
  {| Db.domain := domain item;
     Db.tld := tld item;
     Db.available :=
       match available item with
       | None => None
       | Some b => Some (if b then 1 else 0)%Z
       end;
     Db.price := price item;
     Db.currency := currency item;
     Db.status := status item;
     Db.raw_json := raw item;
     Db.updated_at := nowIso |}.

(** [INSERT ... ON CONFLICT(domain) DO UPDATE SET] every other column. *)
Definition upsertRow (table : gmap string Db.row) (r : Db.row) : gmap string Db.row :=
  <[Db.domain r := r]> table.

Definition upsertMany (batch : list MarketplaceDomain) (nowIso : string)
    (table : gmap string Db.row) : gmap string Db.row :=
  foldl (fun t item => upsertRow t (rowOf item nowIso)) table batch.

(** [value || fallback] on a nullable string. *)
Definition orElse (value : option string) (fallback : string) : string :=
  match value with
  | Some s => if truthy s then s else fallback
  | None => fallback
  end.

(** *** The where clause *)

Inductive condition :=
| LowerDomainLike (pattern : string)      (* LOWER(domain) LIKE ? *)
| LowerTldEq (value : string)             (* LOWER(tld) = ? *)
| AvailableEq (value : Z)                 (* available = 1, available = 0 *)
| LowerRawLike (path pattern : string).   (* LOWER(COALESCE(json_extract(raw_json, ?), '')) LIKE ? *)

Record filterOptions := {
  opt_q : option string;
  opt_tld : option string;
  opt_available : option bool;
  opt_columnFilters : list (string * string);
}.

Definition needleOf (value : string) : string := toLowerCase (trim value).

Definition likeContains (needle : string) : string := "%" ++ needle ++ "%".

(** The double quote. *)
Definition quoteChar : ascii := ascii_of_nat 34.
Definition quote : string := String quoteChar EmptyString.

(** The path [$."field"] of the template literal, the field spliced in. *)
Definition memberPath (field : string) : string := "$." ++ quote ++ field ++ quote.

Definition columnCondition (entry : string * string) : list condition :=
  let needle := needleOf entry.2 in
  if negb (truthy needle) then []
  else if String.eqb entry.1 "domain" then [LowerDomainLike (likeContains needle)]
  else [LowerRawLike (memberPath entry.1) (likeContains needle)].

Definition buildFilterWhere (options : filterOptions) : list condition :=
  let q := needleOf (default "" (opt_q options)) in
  let tld := needleOf (default "" (opt_tld options)) in
  ((if truthy q then [LowerDomainLike (likeContains q)] else [])
   ++ (if truthy tld then [LowerTldEq tld] else [])
   ++ match opt_available options with
      | Some true => [AvailableEq 1]
      | Some false => [AvailableEq 0]
      | None => []
      end
   ++ flat_map columnCondition (opt_columnFilters options))%list.

(** *** The SQL functions the clause uses *)

Module Sql.

(** [LOWER]: ASCII letters only. *)
Definition lower : string -> string := toLowerCase.

Definition isPercent (c : ascii) : bool := (code c =? 37)%nat.
Definition isUnderscore (c : ascii) : bool := (code c =? 95)%nat.

(** [text LIKE pattern] without an escape character: [%] stands for any run
    of characters, [_] for any single one, letters compare without case. *)
Fixpoint like (pattern : string) : string -> bool :=
  match pattern with
  | EmptyString => fun text => negb (truthy text)
  | String p rest =>
      if isPercent p then
        fix anywhere (text : string) : bool :=
          like rest text
          || match text with
             | EmptyString => false
             | String _ text' => anywhere text'
             end
      else if isUnderscore p then
        fun text =>
          match text with
          | EmptyString => false
          | String _ text' => like rest text'
          end
      else
        fun text =>
          match text with
          | EmptyString => false
          | String c text' => Ascii.eqb (lowerChar p) (lowerChar c) && like rest text'
          end
  end.

Definition isQuote (c : ascii) : bool := (code c =? 34)%nat.

(** The label of a path [$."label"]: the text up to the quote that ends
    the path. Other paths are outside the model. *)
Fixpoint quotedLabel (s : string) : option string :=
  match s with
  | EmptyString => None
  | String c r =>
      if isQuote c then match r with EmptyString => Some EmptyString | _ => None end
      else String c <$> quotedLabel r
  end.

Definition pathLabel (path : string) : option string :=
  match path with
  | String "$" (String "." (String c r)) => if isQuote c then quotedLabel r else None
  | _ => None
  end.

(** [json_extract(raw_json, path)] for a path [$."label"]: the member of
    that name when the document is an object. *)
Definition json_extract (doc : json) (path : string) : option json :=
  match pathLabel path, doc with
  | Some label, JObj kvs => assoc label kvs
  | _, _ => None
  end.

(** The text of [COALESCE(value, '')], [value] being what [json_extract]
    returns: SQL NULL for a missing member and for JSON null, 1 and 0 for
    the booleans, the text of a string, the rendering of anything else. *)
Definition coalesceText `{Host} (value : option json) : string :=
  match value with
  | None | Some JNull => ""
  | Some (JStr s) => s
  | Some (JBool b) => if b then "1" else "0"
  | Some v => sqlText v
  end.

End Sql.

Section Query.
Context `{Host}.

Definition holds (r : Db.row) (c : condition) : bool :=
  match c with
  | LowerDomainLike pattern => Sql.like pattern (Sql.lower (Db.domain r))
  | LowerTldEq value => String.eqb (Sql.lower (Db.tld r)) value
  | AvailableEq value =>
      match Db.available r with
      | Some a => (a =? value)%Z
      | None => false
      end
  | LowerRawLike path pattern =>
      Sql.like pattern (Sql.lower (Sql.coalesceText (Sql.json_extract (Db.raw_json r) path)))
  end.

(** [SELECT ... FROM soinda_domains WHERE c1 AND c2 AND ...] *)
Definition selectWhere (clause : list condition) (table : gmap string Db.row) : list Db.row :=
  filter (fun r => forallb (holds r) clause = true) (map_to_list table).*2.

(** [parseJsonObject] on the stored document. *)
Definition parseJsonObject (doc : json) : json :=
  match doc with
  | JObj kvs => JObj kvs
  | _ => JObj []
  end.

Definition collectAllFields (table : gmap string Db.row) : list string :=
  sortedFieldNames
    (flat_map (fun r => keys (parseJsonObject (Db.raw_json r))) (map_to_list table).*2).

Record queryOptions := {
  page : Z;
  perPage : Z;
  filters : filterOptions;
  sortBy_ : option string;
  sortDesc : bool;
}.

Fixpoint allWord (s : string) : bool :=
  match s with
  | EmptyString => true
  | String c r => isWord c && allWord r
  end.

Definition baseSortable : list string :=
  ["domain"; "tld"; "available"; "price"; "currency"; "status"].

(** The [ORDER BY] expression and whether it is descending. *)
Definition orderByOf (options : queryOptions) : orderExpr * bool :=
  let requestedSort := trim (orElse (sortBy_ options) "domain") in
  if existsb (String.eqb requestedSort) baseSortable then
    if String.eqb requestedSort "available" || String.eqb requestedSort "price"
    then (OrderColumn requestedSort, sortDesc options)
    else (OrderLowerColumn requestedSort, sortDesc options)
  else if truthy requestedSort && allWord requestedSort then
    (OrderLowerJson (memberPath requestedSort), sortDesc options)
  else (OrderColumn "domain", false).

(** [LIMIT n OFFSET k]: a negative limit is no limit, a negative offset is 0. *)
Definition limitOffset {A : Type} (limit offset : Z) (l : list A) : list A :=
  let rest := drop (Z.to_nat offset) l in
  if (limit <? 0)%Z then rest else take (Z.to_nat limit) rest.

Definition domainOfRow (r : Db.row) : MarketplaceDomain :=
  {| domain := Db.domain r; tld := Db.tld r;
     available :=
       match Db.available r with
       | None => None
       | Some a => Some (a =? 1)%Z
       end;
     price := Db.price r; currency := Db.currency r; status := Db.status r;
     raw := parseJsonObject (Db.raw_json r) |}.

End Query.

Module Query.
Record t := {
  data : list MarketplaceDomain;
  fields : list string;
  total : nat;
  hasMore : bool;
}.
End Query.

Section QueryDomains.
Context `{Host}.

Definition offsetOf (options : queryOptions) : Z := ((page options - 1) * perPage options)%Z.

Definition querySoindaDomains (options : queryOptions) (table : gmap string Db.row) : Query.t :=
  let clause := buildFilterWhere (filters options) in
  let offset := offsetOf options in
  let '(expr, desc) := orderByOf options in
  let total := length (selectWhere clause table) in
  let rows := limitOffset (perPage options) offset (sqlOrder expr desc (selectWhere clause table)) in
  {| Query.data := map domainOfRow rows;
     Query.fields := collectAllFields table;
     Query.total := total;
     Query.hasMore := (offset + perPage options <? Z.of_nat total)%Z |}.

End QueryDomains.

(** *** Analytics and its cache *)

Section AnalyticsCache.
Context `{Host}.

Definition averagePrice (rows : list Db.row) : option Q :=
  match omap Db.price rows with
  | [] => None
  | prices => Some (Qred (fold_right Qplus 0%Q prices / inject_Z (Z.of_nat (length prices))))
  end.

(** The queries of a cache miss, over the rows the clause selects. *)
Definition computeAnalytics (options : filterOptions) (table : gmap string Db.row) : Analytics.t :=
  let rows := selectWhere (buildFilterWhere options) table in
  {| Analytics.total := length rows;
     Analytics.available :=
       length (filter (fun r => Db.available r = Some 1%Z) rows);
     Analytics.avgPrice := averagePrice rows;
     Analytics.uniqueTlds := length (remove_dups (map Db.tld rows));
     Analytics.tables := breakdown rows |}.

(** What [JSON.stringify] is applied to for the cache key. *)
Definition cacheKeyOf (options : filterOptions) : cacheKey :=
  (orElse (opt_q options) "",
   orElse (opt_tld options) "",
   opt_available options,
   sortBy (fun a b => localeCompare a.1 b.1)
     (filter (fun kv => truthy kv.2 = true)
        (map (fun kv => (kv.1, trim kv.2)) (opt_columnFilters options)))).

Definition fresh (w : world) (cached : Analytics.entry) : bool :=
  (Analytics.version cached =? analyticsVersion w)%Z
  && (now w - Analytics.ts cached <? ANALYTICS_CACHE_TTL_MS)%Z.

Definition querySoindaAnalytics (options : filterOptions) (w : world) : Analytics.t * world :=
  let key := cacheKeyOf options in
  let recompute :=
    let value := computeAnalytics options (domains w) in
    (value,
     withAnalytics (analyticsVersion w)
       (<[key := {| Analytics.ts := now w; Analytics.version := analyticsVersion w;
                    Analytics.value := value |}]> (analyticsCache w)) w) in
  match analyticsCache w !! key with
  | Some cached => if fresh w cached then (Analytics.value cached, w) else recompute
  | None => recompute
  end.

(** [analyticsVersion += 1; analyticsCache.clear()] *)
Definition invalidateAnalytics (w : world) : world :=
  withAnalytics (analyticsVersion w + 1)%Z ∅ w.

Definition resetSoindaCatalog (w : world) : world :=
  invalidateAnalytics (withMeta ∅ (withDomains ∅ w)).

End AnalyticsCache.

(** *** Synchronisation *)

Inductive syncMode := Full | Incremental.

Definition modeName (m : syncMode) : string :=
  match m with Full => "full" | Incremental => "incremental" end.

(** How a call of [syncSoindaDomains] ends: it returns the promise of the
    run in flight, returns at the schedule guard, or runs; a run sets
    [completed], leaves the loop at the page budget, or throws. *)
Inductive syncResult :=
| AlreadyRunning
| NotDue
| Completed
| Interrupted
| Failed (message : string).

Module Status.
(** [SyncStatus] *)
Record t := {
  isSyncing : bool;
  lastSyncAt : option string;
  lastError : option string;
  totalDomains : nat;
  nextSyncNotBefore : option string;
  cursorPage : Z;
  totalPages : option Z;
  lastPage : option Z;
  sourceCreatedAtMax : option string;
  syncMode : syncMode;
}.
End Status.

Section Sync.
Context `{Host}.

Definition setMeta (key : string) (value : option string) (w : world) : world :=
  withMeta (<[key := value]> (meta w)) w.

Definition getMeta (key : string) (w : world) : option string :=
  match meta w !! key with
  | Some value => value
  | None => None
  end.

(** The numeric keys hold what [String] gave for an integer; a text that
    is not the decimal of an integer is read as the fallback. *)
Definition metaInteger (key fallback : string) (w : world) : Z :=
  match JsNumber.integerOf (orElse (getMeta key w) fallback) with
  | Some n => n
  | None => default 0%Z (JsNumber.integerOf fallback)
  end.

Definition positive (n : Z) : option Z := if (0 <? n)%Z then Some n else None.

Definition createdAtKeys : list string :=
  ["created_at"; "createdAt"; "first_seen_at"; "firstSeenAt"; "updated_at"; "updatedAt"].

Definition getCreatedAtFromDomain (item : MarketplaceDomain) : option Z :=
  firstSome
    (fun key =>
       match prop (raw item) key with
       | Some (JStr value) => if truthy (trim value) then dateParse value else None
       | _ => None
       end)
    createdAtKeys.

Definition getMaxCreatedAtIso (batch : list MarketplaceDomain) : option string :=
  let maxTs :=
    fold_left
      (fun maxTs item =>
         match getCreatedAtFromDomain item with
         | Some ts => if negb (ts =? 0)%Z && (maxTs <? ts)%Z then ts else maxTs
         | None => maxTs
         end)
      batch 0%Z in
  if (maxTs =? 0)%Z then None else Some (toISOString maxTs).

(** [COALESCE(json_extract(raw_json, '$.created_at'), ...)] of one row. *)
Definition createdAtColumn (r : Db.row) : option json :=
  firstSome
    (fun key =>
       match Db.raw_json r with
       | JObj kvs => match assoc key kvs with Some JNull => None | v => v end
       | _ => None
       end)
    createdAtKeys.

Definition getLocalMaxCreatedAtIso (w : world) : option string :=
  match sqlMaxText (map createdAtColumn (map_to_list (domains w)).*2) with
  | Some text =>
      if truthy text then toISOString <$> dateParse text else None
  | None => None
  end.

Definition isRateLimitError (message : string) : bool :=
  let normalized := toLowerCase message in
  includes "429" normalized || includes "too many attempts" normalized
  || includes "throttle" normalized.

Definition getNextSyncNotBeforeTs (w : world) : option Z :=
  match getMeta "next_sync_not_before" w with
  | Some text => if truthy text then dateParse text else None
  | None => None
  end.

Definition canSyncNow (w : world) : bool :=
  match getNextSyncNotBeforeTs w with
  | Some nextTs => if (nextTs =? 0)%Z then true else (nextTs <=? now w)%Z
  | None => true
  end.

Definition isSyncDue (w : world) : bool :=
  match getMeta "last_sync_at" w with
  | Some text =>
      if truthy text then
        match dateParse text with
        | Some last => (TWO_HOURS_MS <=? now w - last)%Z
        | None => true
        end
      else true
  | None => true
  end.

Definition getSyncMode (w : world) : syncMode :=
  if String.eqb (toLowerCase (trim (orElse (getMeta "sync_mode" w) ""))) "incremental"
  then Incremental else Full.

Definition getSoindaSyncStatus (w : world) : Status.t :=
  {| Status.isSyncing := runningSync w;
     Status.lastSyncAt := getMeta "last_sync_at" w;
     Status.lastError := getMeta "last_sync_error" w;
     Status.totalDomains := size (domains w);
     Status.nextSyncNotBefore := getMeta "next_sync_not_before" w;
     Status.cursorPage := Z.max 1 (metaInteger "sync_cursor_page" "1" w);
     Status.totalPages := positive (metaInteger "sync_total_pages" "0" w);
     Status.lastPage := positive (metaInteger "sync_last_page" "0" w);
     Status.sourceCreatedAtMax := getMeta "source_created_at_max" w;
     Status.syncMode := getSyncMode w |}.

Record loopEnd := { completed : bool; maxSeenTs : Z }.

(** [upsertMany(current.data, nowIso)] on the table of the process. *)
Definition upsertBatch (batch : list MarketplaceDomain) (nowIso : string) (w : world) : world :=
  withEffect 0 0 (Upsert batch nowIso)
    (withDomains (upsertMany batch nowIso (domains w)) w).

Definition greater (a : option Z) (b : Z) : bool :=
  match a with Some x => (b <? x)%Z | None => false end.

(** [if (totalPages === 0 && typeof current.total === "number")]: the
    number of pages, computed and persisted once the upstream reports a total. *)
Definition learnTotalPages (totalPages : Z) (total : option Q) (w : world) : Z * world :=
  match total with
  | Some total =>
      if (totalPages =? 0)%Z then
        let known := Z.max 1 (JsNumber.ceil (total / inject_Z PAGE_SIZE_SYNC)) in
        (known, setMeta "sync_total_pages" (Some (pretty known)) w)
      else (totalPages, w)
  | None => (totalPages, w)
  end.

(** The three counters persisted for observability. *)
Definition notePage (page : Z) (current : Page.t) (w : world) : world :=
  setMeta "sync_last_normalized_count" (Some (pretty (length (Page.data current))))
    (setMeta "sync_last_source_count" (Some (pretty (Page.sourceCount current)))
       (setMeta "sync_last_page" (Some (pretty page)) w)).

Definition reachedEnd (page totalPages : Z) (current : Page.t) : bool :=
  if (0 <? totalPages)%Z then (totalPages <=? page)%Z
  else negb (Page.hasMore current)
       || (Z.of_nat (Page.sourceCount current) <? PAGE_SIZE_SYNC)%Z.

Definition hasNewerOnPage (cursorCreatedAtTs pageMaxTs : option Z) : bool :=
  let hasCursor := greater cursorCreatedAtTs 0 in
  negb hasCursor || greater pageMaxTs (default 0%Z cursorCreatedAtTs).

(** The body of [while (true)], entered for one more page. [more] is what
    is left of SYNC_MAX_PAGES_PER_RUN once this page is counted: the loop
    leaves at the budget when it is 0. *)
Fixpoint pageLoop (more : nat) (mode : syncMode) (cursorCreatedAtTs : option Z)
    (page totalPages maxSeenTs : Z) (w : world) : (string + loopEnd) * world :=
  match fetchExternalDomainsPage page PAGE_SIZE_SYNC w with
  | (inl err, w1) => (inl err, w1)
  | (inr current, w1) =>
      let w2 := upsertBatch (Page.data current) (toISOString (now w1)) w1 in
      let '(totalPages, w3) := learnTotalPages totalPages (Page.total current) w2 in
      let w4 := notePage page current w3 in
      let pageMaxTs := getMaxCreatedAtIso (Page.data current) ≫= dateParse in
      let maxSeenTs := if greater pageMaxTs maxSeenTs then default maxSeenTs pageMaxTs else maxSeenTs in
      if reachedEnd page totalPages current
      then (inr {| completed := true; maxSeenTs := maxSeenTs |}, w4)
      else
        match mode, hasNewerOnPage cursorCreatedAtTs pageMaxTs with
        | Incremental, false => (inr {| completed := true; maxSeenTs := maxSeenTs |}, w4)
        | _, _ =>
            match more with
            | O =>
                (inr {| completed := false; maxSeenTs := maxSeenTs |},
                 setMeta "sync_cursor_page" (Some (pretty (page + 1)%Z)) w4)
            | S more' =>
                pageLoop more' mode cursorCreatedAtTs (page + 1)%Z totalPages maxSeenTs
                  (sleep 250 w4)
            end
        end
  end.

(** The watermark an incremental run pages against. *)
Definition readCursor (mode : syncMode) (w : world) : option Z * world :=
  match mode with
  | Full => (None, w)
  | Incremental =>
      let stored := getMeta "source_created_at_max" w in
      if truthy (orElse stored "") then (stored ≫= dateParse, w)
      else
        match getLocalMaxCreatedAtIso w with
        | Some local =>
            if truthy local
            then (dateParse local, setMeta "source_created_at_max" (Some local) w)
            else (None, w)
        | None => (None, w)
        end
  end.

(** What a run does once its loop has ended without an error. *)
Definition finishRun (mode : syncMode) (ended : loopEnd) (w : world) : world :=
  let w1 :=
    if (0 <? maxSeenTs ended)%Z
    then setMeta "source_created_at_max" (Some (toISOString (maxSeenTs ended))) w
    else w in
  let w2 :=
    if completed ended then
      let a := setMeta "last_sync_at" (Some (toISOString (now w1))) w1 in
      let b := setMeta "sync_finished_at" (Some (toISOString (now a))) a in
      let c := setMeta "next_sync_not_before" None b in
      let d := setMeta "sync_cursor_page" (Some "1") c in
      let e := setMeta "sync_total_pages" None d in
      match mode with
      | Full => setMeta "sync_mode" (Some "incremental") e
      | Incremental => e
      end
    else w1 in
  invalidateAnalytics w2.

(** The handler of [.catch]. *)
Definition recordFailure (message : string) (w : world) : world :=
  if isRateLimitError message then
    let blockedUntil := toISOString (now w + TWO_HOURS_MS)%Z in
    setMeta "last_sync_error"
      (Some ("Rate limited by Soinda (429). Next retry after " ++ blockedUntil))
      (setMeta "next_sync_not_before" (Some blockedUntil) w)
  else setMeta "last_sync_error" (Some message) w.

(** The mode a run pages in. *)
Definition runMode (force : bool) (w : world) : syncMode :=
  if force then Full
  else if (size (domains w) =? 0)%nat then Full
  else getSyncMode w.

(** The async function assigned to [runningSync], with its [catch]. *)
Definition runSync (force : bool) (w : world) : syncResult * world :=
  let w1 := setMeta "last_sync_error" None w in
  let w2 := setMeta "sync_started_at" (Some (toISOString (now w1))) w1 in
  let mode := runMode force w2 in
  let w3 := setMeta "sync_mode" (Some (modeName mode)) w2 in
  let page := Z.max 1 (metaInteger "sync_cursor_page" "1" w3) in
  let totalPages := default 0%Z (positive (metaInteger "sync_total_pages" "0" w3)) in
  let '(cursorCreatedAtTs, w4) := readCursor mode w3 in
  match pageLoop (SYNC_MAX_PAGES_PER_RUN - 1) mode cursorCreatedAtTs page totalPages 0 w4 with
  | (inl message, w5) => (Failed message, recordFailure message w5)
  | (inr ended, w5) =>
      (if completed ended then Completed else Interrupted, finishRun mode ended w5)
  end.

Definition syncSoindaDomains (force bypassSchedule : bool) (w : world) : syncResult * world :=
  if runningSync w then (AlreadyRunning, w)
  else if negb bypassSchedule && negb force && (negb (isSyncDue w) || negb (canSyncNow w))
  then (NotDue, w)
  else
    let w1 :=
      if force then
        setMeta "sync_total_pages" None
          (setMeta "sync_cursor_page" (Some "1")
             (setMeta "sync_mode" (Some "full")
                (setMeta "next_sync_not_before" None w)))
      else w in
    let '(result, w2) := runSync force (withRunningSync true w1) in
    (result, withRunningSync false w2).

End Sync.

(** ** The filter as the specification words it

    A substring match on the domain name, an exact match on the TLD, the
    tri-state availability filter, and for each column filter a substring
    match, without case, against the text of the named field of the raw
    document (the [domain] column for the column named domain). *)

Section SpecPredicate.
Context `{Host}.







End SpecPredicate.

(** ** A host to run the definitions on

    An upstream that announces 250 rows, three pages; times are printed
    and parsed as decimal milliseconds. *)

Module Demo.

Definition row (name : string) : json :=
  JObj [("domain_name", JStr name); ("disponible", JStr "si"); ("precio", JStr "12,50")].

Definition pagePayload (page : Z) : json :=
  JObj [("total", JNum 250);
        ("items",
         JArr (if (page =? 1)%Z then [row "one.com"; row "two.net"]
               else if (page =? 2)%Z then [row "three.org"; row "one.com"]
               else [row "four.es"]))].

Definition answer (status : Z) (retryAfter : option string) (page : Z) : Z * (string + Response.t) :=
  (5%Z, inr {| Response.status := status; Response.retryAfter := retryAfter;
               Response.body := inr (pagePayload page) |}).

Definition byteOrder (a b : string) : Z :=
  if String.eqb a b then 0%Z else if String.leb a b then (-1)%Z else 1%Z.

Definition hostWith (server : nat -> Z -> Z -> Z * (string + Response.t)) : Host :=
  {| apiKey := Some "key";
     http := server;
     timer := fun ms => Qfloor ms;
     toISOString := fun ms => pretty ms;
     dateParse := JsNumber.integerOf;
     localeCompare := byteOrder;
     sqlText := fun _ => "";
     sqlOrder := fun _ _ rows => rows;
     sqlMaxText := fun _ => None;
     Breakdown := unit;
     breakdown := fun _ => tt |}.

(** Every request is answered with 200. *)
Definition healthy : Host := hostWith (fun _ page _ => answer 200 None page).

(** Every request is answered with 429. *)
Definition throttled : Host := hostWith (fun _ page _ => answer 429 (Some "5") page).

(** Every request is answered with 503. *)
Definition down : Host := hostWith (fun _ page _ => answer 503 None page).

(** Every request is answered with 404. *)
Definition missing : Host := hostWith (fun _ page _ => answer 404 None page).

(** The first request succeeds, the later ones are answered with 429. *)
Definition flaky : Host :=
  hostWith (fun n page _ => if (n =? 0)%nat then answer 200 None page else answer 429 None page).

(** The first request succeeds, the later ones are answered with 404. *)
Definition rejecting : Host :=
  hostWith (fun n page _ => if (n =? 0)%nat then answer 200 None page else answer 404 None page).

(** The first request is answered with 429 and Retry-After: 5, the next
    ones with 200. *)
Definition recovering : Host :=
  hostWith (fun n page _ =>
    if (n =? 0)%nat then answer 429 (Some "5") page else answer 200 None page).

(** An upstream of 240 rows that reports no total: pages of 100, 100 and
    40 rows. *)
Definition numbered (first count : nat) : list json :=
  map (fun i => JObj [("dominio", JStr ("site" ++ pretty i ++ ".example.com"))]) (seq first count).

Definition unnumberedPayload (page : Z) : json :=
  JObj [("data",
         JArr (if (page =? 1)%Z then numbered 0 100
               else if (page =? 2)%Z then numbered 100 100
               else if (page =? 3)%Z then numbered 200 40
               else []))].

Definition paged : Host :=
  hostWith (fun _ page _ =>
    (5%Z, inr {| Response.status := 200; Response.retryAfter := None;
                 Response.body := inr (unnumberedPayload page) |})).

Definition start `{Host} : world :=
  {| domains := ∅; meta := ∅; runningSync := false; analyticsVersion := 0;
     analyticsCache := ∅; now := 1000; requests := 0; trace := [] |}.

End Demo.

(** ** Vocabulary of the properties *)

(** A response the loop of the fetcher answers with a delay and one more
    attempt. *)
Definition retryable (r : Response.t) : bool :=
  negb (Response.ok r) && ((Response.status r =? 429)%Z || (500 <=? Response.status r)%Z).

Definition waitAfter (r : Response.t) (attempt : nat) : Q :=
  if (Response.status r =? 429)%Z then rateLimitWait (Response.retryAfter r) attempt
  else serverErrorWait attempt.


(** The response to the i-th request from the world [w] on. *)
Definition answerAt `{Host} (w : world) (page perPage : Z) (i : nat) : option Response.t :=
  match (http (requests w + i) page perPage).2 with
  | inr r => Some r
  | inl _ => None
  end.

Definition sleeps (events : list event) : list Q :=
  omap (fun e => match e with Sleep ms => Some ms | _ => None end) events.

Definition upserts (events : list event) : list (list MarketplaceDomain * string) :=
  omap (fun e => match e with Upsert batch nowIso => Some (batch, nowIso) | _ => None end) events.

Definition requestsSent (events : list event) : list (Z * Z) :=
  omap (fun e => match e with Request page perPage => Some (page, perPage) | _ => None end) events.

(** The batches written to the table, applied in order. *)
Definition replayUpserts (batches : list (list MarketplaceDomain * string))
    (table : gmap string Db.row) : gmap string Db.row :=
  foldl (fun t b => upsertMany b.1 b.2 t) table batches.

(** The keys of [soinda_meta] the page loop writes. *)
Definition loopKeys : list string :=
  ["sync_total_pages"; "sync_last_page"; "sync_last_source_count";
   "sync_last_normalized_count"; "sync_cursor_page"].

(** The key and the row an item is upserted as. *)
Definition keyed (nowIso : string) (item : MarketplaceDomain) : string * Db.row :=
  (domain item, rowOf item nowIso).

(** The upserts of the page loop over a list of pages. *)
Definition upsertPages (pages : list (list MarketplaceDomain)) (nowIso : string)
    (table : gmap string Db.row) : gmap string Db.row :=
  foldl (fun t batch => upsertMany batch nowIso t) table pages.

(** The score as the specification words it: 2 for a string element with
    a domain-shaped substring, 3 for an object element with a key
    suggestive of domain or host, 1 for an object element with a
    domain-shaped string value in some field. *)
Definition isObject (v : json) : bool :=
  match v with JObj _ | JArr _ => true | _ => false end.

Definition hasSuggestiveKey (v : json) : bool :=
  isObject v && existsb suggestive (map toLowerCase (keys v)).

Definition hasDomainValue (v : json) : bool :=
  isObject v && existsb isDomainText (values v).

Definition specItemScore (item : json) : Z :=
  ((if isDomainText item then 2 else 0)
   + (if hasSuggestiveKey item then 3 else 0)
   + (if hasDomainValue item then 1 else 0))%Z.

Definition specScore (l : list json) : Z := foldr (fun item acc => specItemScore item + acc)%Z 0%Z l.

(** A text that is empty or starts with something else than white space. *)
Definition startsClean (s : string) : bool :=
  match s with
  | EmptyString => true
  | String c _ => negb (isSpace c)
  end.

(** Occurrence of one character. *)
Fixpoint hasChar (a : ascii) (s : string) : bool :=
  match s with
  | EmptyString => false
  | String c r => Ascii.eqb a c || hasChar a r
  end.


(** A text that is its own lower-case form. *)
Definition lowered (s : string) : Prop := toLowerCase s = s.

Section RunVocabulary.
Context `{Host}.

(** [w'] is [w] after requests and timers only. *)
Definition onlyWaited (w w' : world) : Prop :=
  meta w' = meta w /\ domains w' = domains w
  /\ analyticsVersion w' = analyticsVersion w /\ analyticsCache w' = analyticsCache w
  /\ runningSync w' = runningSync w
  /\ exists evs, trace w' = (trace w ++ evs)%list /\ upserts evs = [].

(** [w'] is [w] after requests, timers, upserts and writes to the keys of
    the page loop. *)
Definition onlyPaged (w w' : world) : Prop :=
  (forall k, k ∉ loopKeys -> getMeta k w' = getMeta k w)
  /\ analyticsVersion w' = analyticsVersion w /\ analyticsCache w' = analyticsCache w
  /\ runningSync w' = runningSync w
  /\ exists evs, trace w' = (trace w ++ evs)%list
       /\ domains w' = replayUpserts (upserts evs) (domains w).

(** What holds of the world [wl] in which the page loop of a run started
    in [w] has ended. *)
Definition loopEnded (force : bool) (w wl : world) : Prop :=
  getMeta "sync_mode" wl = Some (modeName (runMode force w))
  /\ getMeta "next_sync_not_before" wl = getMeta "next_sync_not_before" w
  /\ analyticsVersion wl = analyticsVersion w
  /\ analyticsCache wl = analyticsCache w
  /\ runningSync wl = runningSync w
  /\ exists evs, trace wl = (trace w ++ evs)%list
       /\ domains wl = replayUpserts (upserts evs) (domains w).

(** The world a call hands to its run. *)
Definition prepared (force : bool) (w : world) : world :=
  withRunningSync true
    (if force then
       setMeta "sync_total_pages" None
         (setMeta "sync_cursor_page" (Some "1")
            (setMeta "sync_mode" (Some "full")
               (setMeta "next_sync_not_before" None w)))
     else w).

(** The entry a recomputation stores. *)
Definition freshEntry (options : filterOptions) (w : world) : Analytics.entry :=
  {| Analytics.ts := now w; Analytics.version := analyticsVersion w;
     Analytics.value := computeAnalytics options (domains w) |}.

(** The world after a recomputation: the entry of the key is replaced. *)
Definition recomputed (options : filterOptions) (w : world) : world :=
  withAnalytics (analyticsVersion w)
    (<[cacheKeyOf options := freshEntry options w]> (analyticsCache w)) w.

End RunVocabulary.

(** ** Sample data of the examples *)

(** The row of the normalisation scenario. *)
Definition scenarioRow : json :=
  JObj [("domain_name", JStr "Example.COM"); ("disponible", JStr "si"); ("precio", JStr "12,50")].

(** Two records of one domain. *)
Definition earlierRecord : MarketplaceDomain :=
  {| domain := "one.com"; tld := "com"; available := Some true; price := Some 10%Q;
     currency := Some "EUR"; status := Some "listed";
     raw := JObj [("domain", JStr "one.com"); ("price", JNum 10); ("note", JStr "old")] |}.

Definition laterRecord : MarketplaceDomain :=
  {| domain := "one.com"; tld := "com"; available := None; price := None;
     currency := None; status := None;
     raw := JObj [("domain", JStr "one.com")] |}.

(** A page of three rows. *)
Definition threeRows : json := JArr [JStr "a.com"; JStr "b.com"; JStr "c.com"].

(** A payload with a row array and an array of tags. *)
Definition mixedPayload : json :=
  JObj [("meta", JObj [("tags", JArr [JStr "x"; JStr "y"; JStr "z"; JStr "t"])]);
        ("data", JArr [JObj [("domain", JStr "a.com")]; JStr "b.org"; JObj [("id", JNum 1)]])].

(** A payload none of whose arrays looks like rows. *)
Definition unfamiliarPayload : json :=
  JObj [("a", JArr [JNum 1]); ("b", JArr [JNum 1; JNum 2; JNum 3]); ("c", JArr [JNum 1; JNum 2])].

(** A row with two of the priority fields. *)
Definition twoFieldRow : json := JObj [("domain", JStr "a.com"); ("name", JStr "x.1")].

(** A row whose only dotted text is not a DNS name. *)
Definition versionRow : json := JObj [("id", JNum 7); ("url", JStr "  Release.V2.1 ")].


(** The filter that selects every row. *)
Definition everything : filterOptions :=
  {| opt_q := None; opt_tld := None; opt_available := None; opt_columnFilters := [] |}.

(** A table of one row, and a query whose needle holds a wildcard. *)
Definition wildcardTable : gmap string Db.row :=
  {[ "abc.com" := {| Db.domain := "abc.com"; Db.tld := "com"; Db.available := None;
                     Db.price := None; Db.currency := None; Db.status := None;
                     Db.raw_json := JObj [("domain", JStr "abc.com")];
                     Db.updated_at := "t" |} ]}.


(** A query with every kind of filter. *)
Definition plainQuery : queryOptions :=
  {| page := 2; perPage := 1;
     filters := {| opt_q := Some " O "; opt_tld := Some "COM"; opt_available := Some true;
                   opt_columnFilters := [("precio", "12"); ("domain", "n")] |};
     sortBy_ := Some "precio"; sortDesc := true |}.

(** * Vocabulary of the further properties *)

(** ** The texts a regular expression matches

    The language of an expression, without the context a word boundary
    looks at: a boundary matches the empty text. *)

Fixpoint concatAll (ws : list string) : string :=
  match ws with
  | [] => EmptyString
  | w :: r => w ++ concatAll r
  end.

Definition within (hi : option nat) (n : nat) : Prop :=
  match hi with
  | Some h => (n <= h)%nat
  | None => True
  end.

Fixpoint lang (r : Regex.regex) (w : string) : Prop :=
  match r with
  | Regex.Class p => exists c, w = String c EmptyString /\ p c = true
  | Regex.Seq r1 r2 => exists w1 w2, w = w1 ++ w2 /\ lang r1 w1 /\ lang r2 w2
  | Regex.Rep r lo hi =>
      exists ws, w = concatAll ws /\ Forall (lang r) ws
                 /\ (lo <= length ws)%nat /\ within hi (length ws)
  | Regex.WordBoundary => w = EmptyString
  end.

(** A matcher is sound for an expression when every match it reports
    consumes a text of the language and hands the rest to its continuation. *)
Definition soundFor (step : option ascii -> string -> Regex.cont -> Regex.outcome)
    (r : Regex.regex) : Prop :=
  forall prev s k out,
    step prev s k = Regex.Matched out ->
    exists w prev' s', s = w ++ s' /\ lang r w /\ k prev' s' = Regex.Matched out.

(** [d] occurs in [s]. *)
Definition substringOf (d s : string) : Prop := exists pre post, s = pre ++ d ++ post.

(** What every record [normalizeDomain] returns satisfies. *)
Definition dottedLowerTrimmed (d : string) : Prop :=
  includes "." d = true /\ toLowerCase d = d /\ trim d = d.

(** The [raw] of the record a row normalises to. *)
Definition rawOf (row : json) : json :=
  match row with
  | JStr text => JObj [("value", JStr text)]
  | _ => asRecord (Some row)
  end.

(** A row no record is made of: null, a boolean, a number, a string
    without a dot, an object or array none of whose values is a string. *)
Definition hopeless (row : json) : Prop :=
  match row with
  | JNull | JBool _ | JNum _ => True
  | JStr text => includes "." text = false
  | _ => Forall (fun v => forall s, v <> JStr s) (values row)
  end.

(** Sample rows. *)
Definition countersRow : json := JObj [("id", JNum 7); ("tags", JArr [JStr "a.com"])].
Definition noteRow : json := JObj [("id", JNum 7); ("note", JStr "visit Shop.Example.com today")].

(** A text of decimal digits only. *)
Fixpoint allDigits (s : string) : bool :=
  match s with
  | EmptyString => true
  | String c r => isDigit c && allDigits r
  end.

(** A record [normalizeDomain] made of some row. *)
Definition normalized (item : MarketplaceDomain) : Prop :=
  exists row, normalizeDomain row = Some item.

(** A row of [soinda_domains] as the engine writes it under the key [k]:
    keyed by its own domain, a dotted text in lower case without white
    space at its ends, with the text after the last dot as tld and 0 or 1
    as availability. *)
Definition storedRow (k : string) (r : Db.row) : Prop :=
  Db.domain r = k /\ dottedLowerTrimmed k /\ Db.tld r = lastLabel k
  /\ (Db.available r = None \/ Db.available r = Some 0%Z \/ Db.available r = Some 1%Z).

Definition wellStored (table : gmap string Db.row) : Prop := map_Forall storedRow table.

Section RunStart.
Context `{Host}.

(** The page a run starts at. *)
Definition startPage (force : bool) (w : world) : Z :=
  if force then 1%Z else Z.max 1 (metaInteger "sync_cursor_page" "1" w).

End RunStart.

(** Every batch among the events holds records [normalizeDomain] made. *)
Definition normalizedBatches (evs : list event) : Prop :=
  Forall (fun b : list MarketplaceDomain * string => Forall normalized b.1) (upserts evs).

Section Engine.
Context `{Host}.

(** The worlds the operations of the store lead to from an empty table. *)
Inductive reachable : world -> Prop :=
| reachable_empty w : domains w = ∅ -> reachable w
| reachable_sync force bypassSchedule w :
    reachable w -> reachable (syncSoindaDomains force bypassSchedule w).2
| reachable_reset w : reachable w -> reachable (resetSoindaCatalog w)
| reachable_analytics options w : reachable w -> reachable (querySoindaAnalytics options w).2.

(** The handler of POST /api/domains/sync:
    [if (body.reset) resetSoindaCatalog();
     await syncSoindaDomains(Boolean(body.force), true)]. *)
Definition postSync (reset force : bool) (w : world) : syncResult * world :=
  syncSoindaDomains force true (if reset then resetSoindaCatalog w else w).

(** A row of the table was written by one of the batches. *)
Definition writtenBy (batches : list (list MarketplaceDomain * string))
    (k : string) (r : Db.row) : Prop :=
  exists b item, b ∈ batches /\ item ∈ b.1 /\ domain item = k /\ r = rowOf item b.2.

End Engine.

(** An upstream that reports no total and always answers with a full page. *)
Definition endlessPage : json := JArr (JStr "a.com" :: replicate 99 JNull).

Definition endless : Host :=
  Demo.hostWith (fun _ _ _ =>
    (5%Z, inr {| Response.status := 200; Response.retryAfter := None;
                 Response.body := inr endlessPage |})).

Section Paging.
Context `{Host}.




End Paging.

(** Two filters that share a cache key. *)
Definition spacedFilter : filterOptions :=
  {| opt_q := Some "shop"; opt_tld := None; opt_available := Some true;
     opt_columnFilters := [("status", " listed "); ("note", "   "); ("owner", "ana")] |}.
Definition tidyFilter : filterOptions :=
  {| opt_q := Some "shop"; opt_tld := Some ""; opt_available := Some true;
     opt_columnFilters := [("owner", "ana"); ("status", "listed")] |}.

(** An array found [n] objects deep in a payload. *)
Inductive arrayAt : nat -> json -> list json -> Prop :=
| arrayHere l : arrayAt 0 (JArr l) l
| arrayUnder n kvs k v l : (k, v) ∈ kvs -> arrayAt n v l -> arrayAt (S n) (JObj kvs) l.

(** A host without the API key. *)
Definition withoutKey (h : Host) : Host :=
  {| apiKey := None;
     http := @http h;
     timer := @timer h;
     toISOString := @toISOString h;
     dateParse := @dateParse h;
     localeCompare := @localeCompare h;
     sqlText := @sqlText h;
     sqlOrder := @sqlOrder h;
     sqlMaxText := @sqlMaxText h;
     Breakdown := @Breakdown h;
     breakdown := @breakdown h |}.

(** A payload whose rows lie seven objects deep, and one with an array of arrays. *)
Definition deepPayload : json :=
  JObj [("a", JObj [("b", JObj [("c", JObj [("d", JObj [("e", JObj [("f",
    JArr [JStr "deep.example.com"])])])])])])].
Definition nestedPayload : json :=
  JObj [("data", JArr [JArr [JStr "inner.example.com"]])].

Section Upstream.
Context `{Host}.

(** An upstream that answers every request with a success whose payload
    reports the same total. *)
Definition reportsTotal (total : Q) : Prop :=
  forall n page perPage,
    exists dt r payload,
      http n page perPage = (dt, inr r)
      /\ Response.ok r = true /\ Response.body r = inr payload
      /\ parseTotal payload = Some total.


End Upstream.

Section Watermark.
Context `{Host}.


End Watermark.

Section Incremental.
Context `{Host}.


End Incremental.


(** [all.reduce((acc, item) => { if (!acc.has(item.domain)) acc.set(item.domain, item);
    return acc; }, new Map()).values()] of [fetchAllExternalDomains]: the
    values of the map in the order of their insertion. *)
Definition dedupe (all : list MarketplaceDomain) : list MarketplaceDomain :=
  foldl
    (fun acc item =>
       if existsb (String.eqb (domain item)) (map domain acc) then acc
       else (acc ++ [item])%list)
    [] all.

(** * Properties *)

(** ** The matcher always decides *)

Section MatcherTotal.
Import Regex.

Lemma repeatMatcher_decides (step : option ascii -> string -> cont -> outcome) :
  (forall prev s k, decides k s -> step prev s k <> OutOfFuel) ->
  forall fuel lo hi prev s k,
    (lo + String.length s < fuel)%nat -> decides k s ->
    repeatMatcher step fuel lo hi prev s k <> OutOfFuel.
Proof.
  intros Hstep. induction fuel as [|fuel IH]; intros lo hi prev s k Hfuel Hk; [lia|].
  cbn [repeatMatcher].
  set (again := match hi with Some O => NoMatch | _ => _ end).
  assert (Hagain : again <> OutOfFuel).
  { assert (Hiter : step prev s (fun prev' s' =>
                if (lo =? 0)%nat && (String.length s' =? String.length s)%nat
                then NoMatch
                else repeatMatcher step fuel (Nat.pred lo) (Nat.pred <$> hi) prev' s' k)
              <> OutOfFuel).
    { apply Hstep. intros prev' s' Hle.
      destruct ((lo =? 0)%nat && (String.length s' =? String.length s)%nat) eqn:E;
        [discriminate|].
      apply IH; [|intros p'' s'' Hle'; apply Hk; lia].
      apply andb_false_iff in E as [E|E].
      - apply Nat.eqb_neq in E. lia.
      - apply Nat.eqb_neq in E. lia. }
    subst again. destruct hi as [[|h]|]; [discriminate|exact Hiter|exact Hiter]. }
  destruct lo as [|lo]; [|exact Hagain].
  destruct again; try discriminate; [|contradiction].
  apply Hk. lia.
Qed.

Lemma run_decides r : forall prev s k, decides k s -> run r prev s k <> OutOfFuel.
Proof.
  induction r as [p|r1 IH1 r2 IH2|r IH lo hi|]; intros prev s k Hk; cbn [run].
  - destruct s as [|c s']; [discriminate|].
    destruct (p c); [|discriminate]. apply Hk. simpl. lia.
  - apply IH1. intros prev' s' Hle. apply IH2. intros p'' s'' Hle'. apply Hk. lia.
  - apply repeatMatcher_decides; [exact IH|lia|exact Hk].
  - destruct (xorb _ _); [|discriminate]. apply Hk. lia.
Qed.

(** At every position the search finds a match or finds there is none. *)
Lemma search_decides r prev s : run r prev s (fun _ rest => Matched rest) <> OutOfFuel.
Proof. apply run_decides. intros prev' s' _. discriminate. Qed.

End MatcherTotal.

(** ** Normalisation of the scenario row (C9) *)

Example findDomain_plain : findDomainInText "Example.COM" = Some "example.com".
Proof. vm_compute. reflexivity. Qed.

Example findDomain_inside :
  findDomainInText "see https://Sub.Example.org/x now" = Some "sub.example.org".
Proof. vm_compute. reflexivity. Qed.

Example findDomain_hyphen : findDomainInText "-a-.b-c.de-" = Some "b-c.de".
Proof. vm_compute. reflexivity. Qed.

Example findDomain_none : findDomainInText "foo.1" = None.
Proof. vm_compute. reflexivity. Qed.

Example coerceBoolean_si : coerceBoolean (Some (JStr "si")) = Some true.
Proof. reflexivity. Qed.

Example coerceNumber_comma : coerceNumber (Some (JStr "12,50")) = Some (25 # 2).
Proof. vm_compute. reflexivity. Qed.

Example coerceNumber_text : coerceNumber (Some (JStr "doce")) = None.
Proof. vm_compute. reflexivity. Qed.

(** C9. The row [{"domain_name": "Example.COM", "disponible": "si",
    "precio": "12,50"}] normalises to a record with domain "example.com",
    tld "com", available true (the token "si" read as a boolean) and price
    12.5 (the comma read as the decimal separator); currency and status
    are null and the row itself is kept as [raw]. *)
Theorem normalize_scenario_row :
  normalizeDomain scenarioRow
  = Some {| domain := "example.com"; tld := "com"; available := Some true;
            price := Some (25 # 2); currency := None; status := None;
            raw := scenarioRow |}
  /\ (25 # 2 == 12.5)%Q
  /\ coerceBoolean (prop scenarioRow "disponible") = Some true
  /\ coerceNumber (prop scenarioRow "precio") = Some (25 # 2).
Proof.
  split; [vm_compute; reflexivity|].
  split; [reflexivity|].
  split; vm_compute; reflexivity.
Qed.

(** ** Upserts (C4) *)

Section Upserts.
Implicit Types (table : gmap string Db.row) (batch : list MarketplaceDomain).

Lemma rowOf_domain item nowIso : Db.domain (rowOf item nowIso) = domain item.
Proof. reflexivity. Qed.

(** A batch of upserts is the map of its rows, later rows first, laid over
    the table. *)
Lemma upsertMany_union batch nowIso table :
  upsertMany batch nowIso table
  = list_to_map (reverse (map (keyed nowIso) batch)) ∪ table.
Proof.
  revert table. induction batch as [|item batch IH]; intros table.
  - simpl. by rewrite (left_id_L ∅ (∪)).
  - simpl. unfold upsertMany in *. simpl. rewrite IH.
    rewrite reverse_cons, list_to_map_app. simpl.
    unfold upsertRow. rewrite rowOf_domain.
    rewrite <- (assoc_L (∪)). f_equal.
    rewrite insert_empty, <- insert_union_singleton_l. reflexivity.
Qed.

Lemma upsertMany_app b1 b2 nowIso table :
  upsertMany (b1 ++ b2) nowIso table = upsertMany b2 nowIso (upsertMany b1 nowIso table).
Proof. unfold upsertMany. by rewrite foldl_app. Qed.

Lemma upsertMany_twice batch nowIso table :
  upsertMany batch nowIso (upsertMany batch nowIso table) = upsertMany batch nowIso table.
Proof.
  rewrite !upsertMany_union, (assoc_L (∪)). f_equal. apply (idemp_L (∪)).
Qed.

Lemma upsertPages_concat pages nowIso table :
  upsertPages pages nowIso table = upsertMany (concat pages) nowIso table.
Proof.
  revert table. induction pages as [|batch pages IH]; intros table; [reflexivity|].
  simpl. rewrite upsertMany_app. apply IH.
Qed.

End Upserts.

(** C4. Upserts are keyed by domain and the last write wins, no field is
    merged: after two records of the same domain are ingested in sequence,
    the table is the one the later record alone gives, and the row stored
    under the domain is the row of the later record; and, for a fixed list
    of pages and a fixed timestamp, the upserts of the page loop run twice
    over the pages leave the table they leave when run once. *)
Theorem upsert_last_write_wins (table : gmap string Db.row)
    (earlier later : MarketplaceDomain) (t1 t2 : string)
    (pages : list (list MarketplaceDomain)) (nowIso : string)
    (Hsame : domain earlier = domain later) :
  upsertMany [later] t2 (upsertMany [earlier] t1 table) = upsertMany [later] t2 table
  /\ upsertMany [later] t2 (upsertMany [earlier] t1 table) !! domain later
     = Some (rowOf later t2)
  /\ upsertMany [earlier; later] t1 table !! domain later = Some (rowOf later t1)
  /\ upsertPages pages nowIso (upsertPages pages nowIso table) = upsertPages pages nowIso table.
Proof.
  assert (Hover : upsertMany [later] t2 (upsertMany [earlier] t1 table)
                  = upsertMany [later] t2 table).
  { unfold upsertMany, upsertRow. simpl. rewrite Hsame. apply insert_insert_eq. }
  split; [exact Hover|]. split; [|split].
  - unfold upsertMany, upsertRow. simpl. apply lookup_insert_eq.
  - unfold upsertMany, upsertRow. simpl. apply lookup_insert_eq.
  - rewrite !upsertPages_concat. apply upsertMany_twice.
Qed.

Lemma upsert_last_write_wins_witness :
  upsertMany [laterRecord] "t2" (upsertMany [earlierRecord] "t1" ∅) !! "one.com"
  = Some (rowOf laterRecord "t2").
Proof.
  exact (proj1 (proj2 (upsert_last_write_wins ∅ earlierRecord laterRecord "t1" "t2"
                         [[earlierRecord]; [laterRecord]] "t" eq_refl))).
Defined.

(** ** The continuation flag of a page (C7) *)

Example extractRows_three : length (extractRows threeRows) = 3%nat.
Proof. vm_compute. reflexivity. Qed.

(** C7, as stated, fails: a page of three rows asked for with a page size
    of two has [hasMore] true although three is not two. *)
Lemma hasMore_not_only_on_equality :
  Page.hasMore (@pageOf Demo.healthy threeRows 2) = true
  /\ Z.of_nat (length (extractRows threeRows)) <> 2%Z
  /\ ~ (forall (host : Host) payload perPage,
          Page.hasMore (pageOf payload perPage) = true
          <-> Z.of_nat (length (extractRows payload)) = perPage).
Proof.
  split; [vm_compute; reflexivity|].
  split; [vm_compute; discriminate|].
  intros Hall. destruct (Hall Demo.healthy threeRows 2%Z) as [Hto _].
  assert (Hthree : Z.of_nat (length (extractRows threeRows)) = 2%Z)
    by (apply Hto; vm_compute; reflexivity).
  vm_compute in Hthree. discriminate.
Qed.

(** C7, amended. The [hasMore] flag of a fetched page is true exactly when
    the number of extracted rows is at least the requested page size, and
    false otherwise; [sourceCount] is that number of rows. *)
Theorem hasMore_iff_page_full `{Host} (payload : json) (page perPage : Z) (w : world) :
  (Page.hasMore (pageOf payload perPage) = true
   <-> (perPage <= Z.of_nat (length (extractRows payload)))%Z)
  /\ (Page.hasMore (pageOf payload perPage) = false
      <-> (Z.of_nat (length (extractRows payload)) < perPage)%Z)
  /\ Page.sourceCount (pageOf payload perPage) = length (extractRows payload)
  /\ match fetchExternalDomainsPage page perPage w with
     | (inr result, _) =>
         Page.hasMore result = true <-> (perPage <= Z.of_nat (Page.sourceCount result))%Z
     | (inl _, _) => True
     end.
Proof.
  assert (Hflag : forall p, Page.hasMore (pageOf p perPage) = true
                            <-> (perPage <= Z.of_nat (length (extractRows p)))%Z).
  { intros p. unfold pageOf. simpl. apply Z.leb_le. }
  split; [apply Hflag|]. split; [|split; [reflexivity|]].
  - unfold pageOf. simpl. apply Z.leb_gt.
  - unfold fetchExternalDomainsPage.
    destruct (fetchExternalDomainsRaw page perPage w) as [[err|p] w']; [exact I|].
    apply Hflag.
Qed.

(** ** Scoring and selection of the catalog array (C5) *)

Section SortFacts.
Context {A : Type} (cmp : A -> A -> Z).
Hypothesis cmp_total : forall x y, (cmp x y <= 0)%Z \/ (cmp y x <= 0)%Z.
Hypothesis cmp_trans : forall x y z, (cmp x y <= 0)%Z -> (cmp y z <= 0)%Z -> (cmp x z <= 0)%Z.

Lemma cmp_refl x : (cmp x x <= 0)%Z.
Proof. destruct (cmp_total x x); assumption. Qed.

(** The head of a list after an insertion is the element inserted or the
    old head, whichever the comparison puts first. *)
Lemma insertSorted_head x l :
  exists first rest, insertSorted cmp x l = first :: rest
    /\ (first = x \/ (exists tl, l = first :: tl) /\ (cmp first x <= 0)%Z)
    /\ (cmp first x <= 0)%Z
    /\ (forall y tl, l = y :: tl -> (cmp first y <= 0)%Z).
Proof.
  destruct l as [|y tl]; simpl.
  - exists x, []. repeat split; auto using cmp_refl. intros; discriminate.
  - destruct (cmp x y <=? 0)%Z eqn:E.
    + exists x, (y :: tl). repeat split; auto using cmp_refl.
      intros y' tl' [= <- <-]. by apply Z.leb_le.
    + apply Z.leb_gt in E.
      assert (cmp y x <= 0)%Z by (destruct (cmp_total x y); [lia|assumption]).
      exists y, (insertSorted cmp x tl). repeat split; eauto using cmp_refl.
      intros y' tl' [= <- <-]. apply cmp_refl.
Qed.

Lemma insertSorted_elements x l y : y ∈ insertSorted cmp x l <-> y = x \/ y ∈ l.
Proof.
  induction l as [|z l IH]; simpl.
  - rewrite list_elem_of_singleton. set_solver.
  - destruct (cmp x z <=? 0)%Z; set_solver.
Qed.

Lemma sortBy_elements l y : y ∈ sortBy cmp l <-> y ∈ l.
Proof.
  induction l as [|x l IH]; simpl; [reflexivity|].
  rewrite insertSorted_elements, IH. set_solver.
Qed.

(** The first element of the sorted list comes before every element. *)
Lemma sortBy_head l first rest :
  sortBy cmp l = first :: rest -> first ∈ l /\ forall y, y ∈ l -> (cmp first y <= 0)%Z.
Proof.
  revert first rest. induction l as [|x l IH]; intros first rest; simpl; [discriminate|].
  intros Hs.
  destruct (insertSorted_head x (sortBy cmp l)) as (f & r & Heq & Hor & Hfx & Hhd).
  rewrite Heq in Hs. injection Hs as <- <-.
  split.
  - apply (sortBy_elements (x :: l)). simpl. rewrite Heq. set_solver.
  - intros y [->|Hy]%elem_of_cons; [exact Hfx|].
    destruct (sortBy cmp l) as [|h tl] eqn:El.
    + apply sortBy_elements in Hy. rewrite El in Hy. by apply elem_of_nil in Hy.
    + destruct (IH h tl eq_refl) as [_ Hmin].
      apply cmp_trans with h; [by eapply Hhd|by apply Hmin].
Qed.

Lemma sortBy_nil l : sortBy cmp l = [] -> l = [].
Proof.
  destruct l as [|x l]; [reflexivity|]. simpl. intros Hs.
  destruct (insertSorted_head x (sortBy cmp l)) as (f & r & Heq & _). congruence.
Qed.

End SortFacts.

Lemma rankOrder_le a b :
  (rankOrder a b <= 0)%Z
  <-> (score b < score a)%Z \/ (score b = score a /\ (length (items b) <= length (items a))%nat).
Proof.
  unfold rankOrder. destruct (score b - score a =? 0)%Z eqn:E.
  - apply Z.eqb_eq in E. lia.
  - apply Z.eqb_neq in E. lia.
Qed.

Lemma rankOrder_total a b : (rankOrder a b <= 0)%Z \/ (rankOrder b a <= 0)%Z.
Proof. rewrite !rankOrder_le. lia. Qed.

Lemma rankOrder_trans a b c :
  (rankOrder a b <= 0)%Z -> (rankOrder b c <= 0)%Z -> (rankOrder a c <= 0)%Z.
Proof. rewrite !rankOrder_le. lia. Qed.

Lemma scoreItem_spec item : scoreItem item = specItemScore item.
Proof.
  unfold scoreItem, specItemScore, hasSuggestiveKey, hasDomainValue.
  destruct item as [| b | q | s | l | kvs]; simpl; try reflexivity.
  - destruct (findDomainInText s) as [d|]; [destruct (truthy d)|]; reflexivity.
  - unfold keys, values. simpl. destruct (imap _ l) as [|kv r]; simpl; [reflexivity|]. lia.
  - unfold keys, values. simpl. destruct kvs as [|kv r]; simpl; [reflexivity|]. lia.
Qed.

Lemma scoreItem_nonneg item : (0 <= scoreItem item)%Z.
Proof.
  rewrite scoreItem_spec. unfold specItemScore.
  destruct (isDomainText item), (hasSuggestiveKey item), (hasDomainValue item); lia.
Qed.

Lemma scoreArray_from acc l :
  fold_left (fun score item => (score + scoreItem item)%Z) l acc = (acc + scoreArray l)%Z.
Proof.
  unfold scoreArray. revert acc. induction l as [|x l IH]; intros acc; simpl; [lia|].
  rewrite IH, (IH (0 + scoreItem x)%Z). lia.
Qed.

Lemma scoreArray_cons item l : scoreArray (item :: l) = (scoreItem item + scoreArray l)%Z.
Proof. unfold scoreArray at 1. simpl. rewrite scoreArray_from. lia. Qed.

Lemma scoreArray_spec l : scoreArray l = specScore l.
Proof.
  induction l as [|x l IH]; [reflexivity|].
  rewrite scoreArray_cons, IH, scoreItem_spec. reflexivity.
Qed.

Lemma scoreArray_nonneg l : (0 <= scoreArray l)%Z.
Proof.
  induction l as [|x l IH]; [unfold scoreArray; simpl; lia|].
  rewrite scoreArray_cons. pose proof (scoreItem_nonneg x). lia.
Qed.

Lemma scoreArray_nil : scoreArray [] = 0%Z.
Proof. reflexivity. Qed.

(** C5. Every candidate array is scored 2 per string element with a
    domain-shaped substring, 3 per object element with a key suggestive of
    domain or host and 1 per object element with a domain-shaped string
    value. When the payload holds no array the selection is empty;
    otherwise the selected array is one of the candidates, no candidate
    scores higher, no candidate of the same score is longer, when no
    candidate scores above zero it is a longest candidate, and it is empty
    only when every candidate is. *)
Theorem extractRows_selection (payload : json) :
  let candidates := collectArrays 0 payload in
  let chosen := extractRows payload in
  (forall l, scoreArray l = specScore l)
  /\ (candidates = [] -> chosen = [])
  /\ (candidates <> [] ->
      chosen ∈ candidates
      /\ (forall c, c ∈ candidates -> (scoreArray c <= scoreArray chosen)%Z)
      /\ (forall c, c ∈ candidates -> scoreArray c = scoreArray chosen ->
            (length c <= length chosen)%nat)
      /\ ((forall c, c ∈ candidates -> (scoreArray c <= 0)%Z) ->
          forall c, c ∈ candidates -> (length c <= length chosen)%nat)
      /\ (chosen = [] -> forall c, c ∈ candidates -> c = [])).
Proof.
  intros candidates chosen. split; [exact scoreArray_spec|].
  subst chosen. unfold extractRows, rank. fold candidates.
  set (scored := map (fun l => {| items := l; score := scoreArray l |}) candidates).
  split.
  - intros ->. reflexivity.
  - intros Hne.
    destruct (sortBy rankOrder scored) as [|best rest] eqn:Hs.
    { apply sortBy_nil in Hs; [|exact rankOrder_total].
      subst scored. apply map_eq_nil in Hs. contradiction. }
    destruct (sortBy_head rankOrder rankOrder_total rankOrder_trans scored best rest Hs)
      as [Hin Hmin].
    apply list_elem_of_fmap in Hin as (chosen & -> & Hchosen). simpl.
    assert (Hcmp : forall c, c ∈ candidates ->
              (scoreArray c < scoreArray chosen)%Z
              \/ (scoreArray c = scoreArray chosen /\ (length c <= length chosen)%nat)).
    { intros c Hc.
      specialize (Hmin {| items := c; score := scoreArray c |}).
      rewrite rankOrder_le in Hmin. simpl in Hmin. apply Hmin.
      apply list_elem_of_fmap. exists c. split; [reflexivity|exact Hc]. }
    split; [exact Hchosen|]. split; [|split; [|split]].
    + intros c Hc. destruct (Hcmp c Hc); lia.
    + intros c Hc Heq. destruct (Hcmp c Hc); lia.
    + intros Hzero c Hc.
      pose proof (Hzero c Hc). pose proof (Hzero chosen Hchosen).
      pose proof (scoreArray_nonneg c). pose proof (scoreArray_nonneg chosen).
      destruct (Hcmp c Hc); lia.
    + intros -> c Hc. pose proof (scoreArray_nonneg c).
      destruct (Hcmp c Hc) as [Hlt|[_ Hlen]].
      * rewrite scoreArray_nil in Hlt. lia.
      * destruct c; [reflexivity|simpl in Hlen; lia].
Qed.

Example scoreArray_mixed :
  map scoreArray (collectArrays 0 mixedPayload) = [0%Z; 6%Z]
  /\ length (extractRows mixedPayload) = 3%nat.
Proof. vm_compute. split; reflexivity. Qed.

Example extractRows_fallback :
  map scoreArray (collectArrays 0 unfamiliarPayload) = [0%Z; 0%Z; 0%Z]
  /\ extractRows unfamiliarPayload = [JNum 1; JNum 2; JNum 3].
Proof. vm_compute. split; reflexivity. Qed.

(** ** Facts on the string primitives *)

Lemma lowerChar_idem c : lowerChar (lowerChar c) = lowerChar c.
Proof. destruct c as [[] [] [] [] [] [] [] []]; reflexivity. Qed.

Lemma isSpace_lowerChar c : isSpace (lowerChar c) = isSpace c.
Proof. destruct c as [[] [] [] [] [] [] [] []]; reflexivity. Qed.

Lemma toLowerCase_idem s : toLowerCase (toLowerCase s) = toLowerCase s.
Proof. induction s as [|c s IH]; simpl; [reflexivity|]. by rewrite lowerChar_idem, IH. Qed.

Lemma trimStart_lower s : trimStart (toLowerCase s) = toLowerCase (trimStart s).
Proof.
  induction s as [|c s IH]; simpl; [reflexivity|].
  rewrite isSpace_lowerChar. destruct (isSpace c); [exact IH|reflexivity].
Qed.

Lemma trimEnd_lower s : trimEnd (toLowerCase s) = toLowerCase (trimEnd s).
Proof.
  induction s as [|c s IH]; simpl; [reflexivity|].
  rewrite IH, isSpace_lowerChar.
  destruct (trimEnd s); simpl; [destruct (isSpace c)|]; reflexivity.
Qed.

Lemma trim_lower s : trim (toLowerCase s) = toLowerCase (trim s).
Proof. unfold trim. by rewrite trimStart_lower, trimEnd_lower. Qed.

Lemma trimEnd_idem s : trimEnd (trimEnd s) = trimEnd s.
Proof.
  induction s as [|c s IH]; simpl; [reflexivity|].
  destruct (trimEnd s) as [|d t] eqn:E.
  - destruct (isSpace c) eqn:Ec; simpl; [reflexivity|]. by rewrite Ec.
  - change (trimEnd (String c (String d t))) with
      (match trimEnd (String d t) with
       | EmptyString => if isSpace c then EmptyString else String c EmptyString
       | r' => String c r'
       end).
    rewrite IH. reflexivity.
Qed.

Lemma trimStart_clean s : startsClean (trimStart s) = true.
Proof.
  induction s as [|c s IH]; simpl; [reflexivity|].
  destruct (isSpace c) eqn:Ec; [exact IH|]. simpl. by rewrite Ec.
Qed.

Lemma trimStart_of_clean s : startsClean s = true -> trimStart s = s.
Proof. destruct s as [|c s]; simpl; [reflexivity|]. by destruct (isSpace c). Qed.

Lemma trimEnd_clean s : startsClean s = true -> startsClean (trimEnd s) = true.
Proof.
  destruct s as [|c s]; simpl; [reflexivity|]. intros Hc.
  destruct (trimEnd s); [destruct (isSpace c) eqn:Ec; [discriminate|]|]; simpl;
    [by rewrite Ec|exact Hc].
Qed.

Lemma trim_idem s : trim (trim s) = trim s.
Proof.
  unfold trim.
  rewrite (trimStart_of_clean (trimEnd (trimStart s))).
  - apply trimEnd_idem.
  - apply trimEnd_clean, trimStart_clean.
Qed.

Lemma needle_of_needle s : toLowerCase (trim (toLowerCase (trim s))) = toLowerCase (trim s).
Proof. by rewrite trim_lower, toLowerCase_idem, trim_idem. Qed.

Lemma includes_char a s : includes (String a EmptyString) s = hasChar a s.
Proof.
  induction s as [|c s IH]; simpl; [reflexivity|].
  rewrite IH. destruct (Ascii.eqb a c); [|reflexivity]. by destruct s.
Qed.

Lemma hasChar_trimStart a s : isSpace a = false -> hasChar a (trimStart s) = hasChar a s.
Proof.
  intros Ha. induction s as [|c s IH]; simpl; [reflexivity|].
  destruct (isSpace c) eqn:Ec; [|reflexivity].
  rewrite IH. destruct (Ascii.eqb_spec a c) as [->|]; [congruence|reflexivity].
Qed.

Lemma hasChar_trimEnd a s : isSpace a = false -> hasChar a (trimEnd s) = hasChar a s.
Proof.
  intros Ha. induction s as [|c s IH]; simpl; [reflexivity|].
  rewrite <- IH. destruct (trimEnd s) as [|d t]; [|reflexivity].
  simpl. destruct (isSpace c) eqn:Ec; simpl; [|reflexivity].
  destruct (Ascii.eqb_spec a c) as [->|]; [congruence|reflexivity].
Qed.

Lemma hasChar_trim a s : isSpace a = false -> hasChar a (trim s) = hasChar a s.
Proof. intros Ha. unfold trim. by rewrite hasChar_trimEnd, hasChar_trimStart. Qed.

(** A character that is not a letter occurs in a text exactly when it
    occurs in its lower-case form. *)
Lemma hasChar_lower a s :
  (forall c, Ascii.eqb a (lowerChar c) = Ascii.eqb a c) ->
  hasChar a (toLowerCase s) = hasChar a s.
Proof. intros Ha. induction s as [|c s IH]; simpl; [reflexivity|]. by rewrite Ha, IH. Qed.

Lemma dot_lowerChar c : Ascii.eqb "."%char (lowerChar c) = Ascii.eqb "."%char c.
Proof. destruct c as [[] [] [] [] [] [] [] []]; reflexivity. Qed.

Lemma dot_survives s : includes "." (toLowerCase (trim s)) = includes "." s.
Proof.
  rewrite !includes_char, (hasChar_lower _ _ dot_lowerChar). by apply hasChar_trim.
Qed.

Lemma includes_truthy needle s : includes (String needle EmptyString) s = true -> truthy s = true.
Proof. destruct s; [discriminate|reflexivity]. Qed.

(** ** Domains that are not DNS names (C10) *)

Lemma firstSome_skip {A B} (f : A -> option B) pre x post :
  Forall (fun a => f a = None) pre ->
  firstSome f (pre ++ x :: post)
  = match f x with Some y => Some y | None => firstSome f post end.
Proof.
  induction 1 as [|a pre Ha _ IH]; simpl; [reflexivity|]. by rewrite Ha.
Qed.

(** C10, as stated, fails: the value under the priority name [name] has a
    dot and holds no DNS name, yet the record takes its domain from the
    field [domain], which comes first in the priority list. *)
Lemma normalize_prefers_earlier_field :
  "name" ∈ domainCandidates
  /\ prop twoFieldRow "name" = Some (JStr "x.1")
  /\ includes "." "x.1" = true
  /\ findDomainInText "x.1" = None
  /\ domain <$> normalizeDomain twoFieldRow = Some "a.com"
  /\ "a.com" <> toLowerCase (trim "x.1").
Proof.
  split; [unfold domainCandidates; set_solver|].
  repeat split; try (vm_compute; reflexivity). vm_compute. discriminate.
Qed.

(** C10, amended. For an object row, take the first name of the priority
    list whose value yields a candidate (no earlier name of the list
    does). If its value is a string that contains a dot and no substring
    matching the DNS regex, the row still normalises to a record, whose
    domain is that value trimmed and lower-cased verbatim and whose tld is
    the text after its last dot. *)
Theorem normalize_keeps_unmatched_value (kvs : list (string * json))
    (earlier later : list string) (key value : string)
    (Hpriority : domainCandidates = (earlier ++ key :: later)%list)
    (Hfirst : Forall (fun k => candidateDomain (JObj kvs) k = None) earlier)
    (Hvalue : prop (JObj kvs) key = Some (JStr value))
    (Hdot : includes "." value = true)
    (Hnomatch : findDomainInText value = None) :
  exists r,
    normalizeDomain (JObj kvs) = Some r
    /\ domain r = toLowerCase (trim value)
    /\ tld r = lastLabel (toLowerCase (trim value))
    /\ raw r = JObj kvs.
Proof.
  assert (Hcand : candidateDomain (JObj kvs) key = Some (toLowerCase (trim value))).
  { unfold candidateDomain. rewrite Hvalue, Hnomatch, dot_survives, Hdot. reflexivity. }
  assert (Hfield : extractDomainField (JObj kvs) = Some (toLowerCase (trim value))).
  { unfold extractDomainField. rewrite Hpriority, (firstSome_skip _ _ _ _ Hfirst), Hcand.
    reflexivity. }
  unfold normalizeDomain. cbn [asRecord]. rewrite Hfield.
  assert (Htruthy : truthy (toLowerCase (trim value)) = true).
  { apply (includes_truthy "."%char). by rewrite dot_survives. }
  rewrite Htruthy. cbn [negb]. rewrite needle_of_needle.
  eexists. split; [reflexivity|]. repeat split.
Qed.

Lemma normalize_keeps_unmatched_value_witness :
  exists r,
    normalizeDomain versionRow = Some r
    /\ domain r = "release.v2.1"
    /\ tld r = "1"
    /\ raw r = versionRow.
Proof.
  exact (normalize_keeps_unmatched_value
           [("id", JNum 7); ("url", JStr "  Release.V2.1 ")]
           ["domain"; "dominio"; "domain_name"; "nombre_dominio"; "name"; "hostname";
            "host"; "fqdn"]
           ["website"; "com_domain"] "url" "  Release.V2.1 "
           eq_refl
           ltac:(repeat constructor)
           eq_refl eq_refl
           ltac:(vm_compute; reflexivity)).
Defined.

(** The domain stored for such a row is not a DNS name. *)
Example stored_domain_not_dns :
  domain <$> normalizeDomain versionRow = Some "release.v2.1"
  /\ findDomainInText "release.v2.1" = None.
Proof. vm_compute. split; reflexivity. Qed.

(** ** Retries of the page fetcher (C6) *)

Example rateLimitWait_header_5 : rateLimitWait (Some "5") 3 = 5000%Q.
Proof. vm_compute. reflexivity. Qed.

Example rateLimitWait_header_small : rateLimitWait (Some "0.2") 0 = 1000%Q.
Proof. vm_compute. reflexivity. Qed.

Example rateLimitWait_header_large : rateLimitWait (Some "3600") 0 = 120000%Q.
Proof. vm_compute. reflexivity. Qed.

Example rateLimitWait_backoff :
  map (rateLimitWait None) (seq 0 9)
  = [2000; 4000; 8000; 16000; 32000; 64000; 120000; 120000; 120000]%Q.
Proof. vm_compute. reflexivity. Qed.

Example rateLimitWait_date_header :
  rateLimitWait (Some "Wed, 21 Oct 2015 07:28:00 GMT") 1 = 4000%Q.
Proof. vm_compute. reflexivity. Qed.

Example serverErrorWait_backoff :
  map serverErrorWait (seq 0 9) = [1000; 2000; 4000; 8000; 16000; 30000; 30000; 30000; 30000]%Q.
Proof. vm_compute. reflexivity. Qed.






Section Retries.
Context `{Host}.

Lemma sleeps_app a b : sleeps (a ++ b) = (sleeps a ++ sleeps b)%list.
Proof. unfold sleeps. apply omap_app. Qed.



End Retries.



(** A 429 with Retry-After: 5, then a 200: one wait of five seconds, then
    the payload. *)
Example fetch_after_retry :
  (@fetchExternalDomainsRaw Demo.recovering 1 100 Demo.start).1 = inr (Demo.pagePayload 1)
  /\ trace (@fetchExternalDomainsRaw Demo.recovering 1 100 Demo.start).2
     = [Request 1 100; Sleep 5000; Request 1 100].
Proof. vm_compute. repeat split; reflexivity. Qed.

Example fetch_unavailable :
  (@fetchExternalDomainsRaw Demo.down 1 100 Demo.start).1 = inl "Soinda API no disponible (503)"
  /\ requests (@fetchExternalDomainsRaw Demo.down 1 100 Demo.start).2 = 9%nat
  /\ sleeps (trace (@fetchExternalDomainsRaw Demo.down 1 100 Demo.start).2)
     = [1000; 2000; 4000; 8000; 16000; 30000; 30000; 30000; 30000]%Q.
Proof. vm_compute. repeat split; reflexivity. Qed.

Example fetch_rejected :
  (@fetchExternalDomainsRaw Demo.missing 1 100 Demo.start).1 = inl "Soinda API error (404)"
  /\ trace (@fetchExternalDomainsRaw Demo.missing 1 100 Demo.start).2 = [Request 1 100].
Proof. vm_compute. repeat split; reflexivity. Qed.

(** ** What a run leaves untouched *)

Section Frames.
Context `{Host}.

Lemma upserts_app a b : upserts (a ++ b) = (upserts a ++ upserts b)%list.
Proof. unfold upserts. apply omap_app. Qed.

Lemma onlyWaited_refl w : onlyWaited w w.
Proof. repeat split. exists []. by rewrite app_nil_r. Qed.

Lemma onlyWaited_effect dt n e w w' :
  onlyWaited (withEffect dt n e w) w' -> upserts [e] = [] -> onlyWaited w w'.
Proof.
  intros (Hm & Hd & Hv & Hc & Hr & evs & Ht & Hu) He. repeat split; try assumption.
  exists (e :: evs). simpl in Ht. rewrite Ht, <- (assoc_L (++)). split; [reflexivity|].
  change (e :: evs) with ([e] ++ evs)%list. by rewrite upserts_app, He, Hu.
Qed.

Lemma onlyWaited_request dt page perPage w w' :
  onlyWaited (withEffect dt 1 (Request page perPage) w) w' -> onlyWaited w w'.
Proof. intros Hw. by apply (onlyWaited_effect dt 1 (Request page perPage)). Qed.

Lemma onlyWaited_sleep ms w w' : onlyWaited (sleep ms w) w' -> onlyWaited w w'.
Proof. intros Hw. by apply (onlyWaited_effect (timer ms) 0 (Sleep ms)). Qed.

Lemma attempts_frame left attempt lastStatus page perPage w :
  onlyWaited w (attempts left attempt lastStatus page perPage w).2.
Proof.
  revert attempt lastStatus w. induction left as [|left IH]; intros attempt lastStatus w.
  - cbn [attempts]. destruct (lastStatus =? 429)%Z; apply onlyWaited_refl.
  - cbn [attempts]. destruct (http (requests w) page perPage) as [dt [err|r]]; cbn zeta;
      apply (onlyWaited_request dt page perPage).
    + apply onlyWaited_refl.
    + destruct (Response.ok r); [apply onlyWaited_refl|].
      destruct (Response.status r =? 429)%Z; [eapply onlyWaited_sleep, IH|].
      destruct (500 <=? Response.status r)%Z; [eapply onlyWaited_sleep, IH|].
      apply onlyWaited_refl.
Qed.

Lemma fetchExternalDomainsPage_frame page perPage w :
  onlyWaited w (fetchExternalDomainsPage page perPage w).2.
Proof.
  unfold fetchExternalDomainsPage.
  assert (Hraw : onlyWaited w (fetchExternalDomainsRaw page perPage w).2).
  { unfold fetchExternalDomainsRaw.
    destruct apiKey as [key|]; [destruct (truthy key)|];
      first [apply attempts_frame|apply onlyWaited_refl]. }
  destruct (fetchExternalDomainsRaw page perPage w) as [[err|payload] w']; exact Hraw.
Qed.

Lemma getMeta_setMeta k k' v (w : world) :
  getMeta k (setMeta k' v w) = if decide (k' = k) then v else getMeta k w.
Proof.
  unfold getMeta, setMeta. simpl. rewrite lookup_insert. by case_decide.
Qed.

Lemma getMeta_setMeta_ne k k' v (w : world) :
  k' <> k -> getMeta k (setMeta k' v w) = getMeta k w.
Proof. intros Hne. rewrite getMeta_setMeta. by rewrite decide_False. Qed.

Lemma getMeta_setMeta_eq k v (w : world) : getMeta k (setMeta k v w) = v.
Proof. rewrite getMeta_setMeta. by rewrite decide_True. Qed.

Lemma onlyPaged_refl w : onlyPaged w w.
Proof. repeat split. exists []. by rewrite app_nil_r. Qed.

Lemma onlyPaged_trans w1 w2 w3 : onlyPaged w1 w2 -> onlyPaged w2 w3 -> onlyPaged w1 w3.
Proof.
  intros (Hm & Hv & Hc & Hr & e1 & Ht & Hd) (Hm' & Hv' & Hc' & Hr' & e2 & Ht' & Hd').
  split; [intros k Hk; by rewrite Hm', Hm|].
  repeat split; try congruence.
  exists (e1 ++ e2)%list. split; [by rewrite Ht', Ht, (assoc_L (++))|].
  rewrite Hd', Hd, upserts_app. unfold replayUpserts. by rewrite foldl_app.
Qed.

Lemma onlyWaited_paged w w' : onlyWaited w w' -> onlyPaged w w'.
Proof.
  intros (Hm & Hd & Hv & Hc & Hr & evs & Ht & Hu).
  split; [intros k _; unfold getMeta; by rewrite Hm|].
  repeat split; try assumption. exists evs. split; [exact Ht|]. by rewrite Hu.
Qed.

Lemma onlyPaged_setMeta k v w : k ∈ loopKeys -> onlyPaged w (setMeta k v w).
Proof.
  intros Hk. split.
  - intros k' Hk'. apply getMeta_setMeta_ne. intros ->. contradiction.
  - repeat split. exists []. by rewrite app_nil_r.
Qed.

Lemma onlyPaged_sleep ms w : onlyPaged w (sleep ms w).
Proof. repeat split. exists [Sleep ms]. split; reflexivity. Qed.

Lemma onlyPaged_upsertBatch batch nowIso w : onlyPaged w (upsertBatch batch nowIso w).
Proof. repeat split. exists [Upsert batch nowIso]. split; reflexivity. Qed.

Lemma onlyPaged_learnTotalPages totalPages total w :
  onlyPaged w (learnTotalPages totalPages total w).2.
Proof.
  unfold learnTotalPages. destruct total as [t|]; [|apply onlyPaged_refl].
  destruct (totalPages =? 0)%Z; [|apply onlyPaged_refl].
  apply onlyPaged_setMeta. unfold loopKeys. set_solver.
Qed.

Lemma onlyPaged_notePage page current w : onlyPaged w (notePage page current w).
Proof.
  unfold notePage.
  eapply onlyPaged_trans; [|apply onlyPaged_setMeta; unfold loopKeys; set_solver].
  eapply onlyPaged_trans; [|apply onlyPaged_setMeta; unfold loopKeys; set_solver].
  apply onlyPaged_setMeta. unfold loopKeys. set_solver.
Qed.

Lemma pageLoop_frame more mode cursor page totalPages maxSeen w :
  onlyPaged w (pageLoop more mode cursor page totalPages maxSeen w).2.
Proof.
  revert page totalPages maxSeen w.
  induction more as [|more IH]; intros page totalPages maxSeen w; cbn [pageLoop];
    pose proof (fetchExternalDomainsPage_frame page PAGE_SIZE_SYNC w) as Hf;
    destruct (fetchExternalDomainsPage page PAGE_SIZE_SYNC w) as [[err|current] w1];
    try (apply onlyWaited_paged; exact Hf);
    cbn zeta;
    pose proof (onlyPaged_learnTotalPages totalPages (Page.total current)
                  (upsertBatch (Page.data current) (toISOString (now w1)) w1)) as Hl;
    destruct (learnTotalPages totalPages (Page.total current)
                (upsertBatch (Page.data current) (toISOString (now w1)) w1)) as [tp w3];
    cbn [snd] in *;
    (assert (Hnoted : onlyPaged w (notePage page current w3));
     [eapply onlyPaged_trans; [apply onlyWaited_paged; exact Hf|];
      eapply onlyPaged_trans; [apply onlyPaged_upsertBatch|];
      eapply onlyPaged_trans; [exact Hl|apply onlyPaged_notePage]|]);
    destruct (reachedEnd page tp current); try exact Hnoted;
    destruct mode, (hasNewerOnPage cursor (getMaxCreatedAtIso (Page.data current) ≫= dateParse));
    try exact Hnoted;
    try (eapply onlyPaged_trans; [exact Hnoted|];
         first [apply onlyPaged_setMeta; unfold loopKeys; set_solver
               |eapply onlyPaged_trans; [apply onlyPaged_sleep|apply IH]]).
Qed.

End Frames.

(** ** The end of a run *)

Section RunEnd.
Context `{Host}.

Lemma readCursor_frame mode w :
  (readCursor mode w).2 = w
  \/ exists v, (readCursor mode w).2 = setMeta "source_created_at_max" v w.
Proof.
  unfold readCursor. destruct mode; [by left|].
  destruct (truthy (orElse (getMeta "source_created_at_max" w) "")); [by left|].
  destruct (getLocalMaxCreatedAtIso w) as [local|]; [|by left].
  destruct (truthy local); [right; eauto|by left].
Qed.

Lemma runMode_frame force (w w' : world) :
  domains w' = domains w -> getMeta "sync_mode" w' = getMeta "sync_mode" w ->
  runMode force w' = runMode force w.
Proof. intros Hd Hm. unfold runMode, getSyncMode. by rewrite Hd, Hm. Qed.

(** A run ends in [finishRun] or in [recordFailure], applied to the world
    the page loop leaves. *)
Lemma runSync_ends force w :
  exists wl, loopEnded force w wl
    /\ ((exists ended,
           runSync force w
           = (if completed ended then Completed else Interrupted,
              finishRun (runMode force w) ended wl))
        \/ (exists message, runSync force w = (Failed message, recordFailure message wl))).
Proof.
  unfold runSync.
  set (w1 := setMeta "last_sync_error" None w).
  set (w2 := setMeta "sync_started_at" (Some (toISOString (now w1))) w1).
  assert (Hmode : runMode force w2 = runMode force w).
  { apply runMode_frame; [reflexivity|].
    subst w2 w1. by rewrite !getMeta_setMeta_ne by done. }
  rewrite Hmode. set (mode := runMode force w).
  set (w3 := setMeta "sync_mode" (Some (modeName mode)) w2).
  pose proof (readCursor_frame mode w3) as Hcur.
  destruct (readCursor mode w3) as [cursor w4]. cbn [snd] in Hcur.
  set (page := Z.max 1 (metaInteger "sync_cursor_page" "1" w3)).
  set (totalPages := default 0%Z (positive (metaInteger "sync_total_pages" "0" w3))).
  pose proof (pageLoop_frame (SYNC_MAX_PAGES_PER_RUN - 1) mode cursor page totalPages 0 w4)
    as (Hmeta & Hv & Hc & Hr & evs & Ht & Hd).
  destruct (pageLoop (SYNC_MAX_PAGES_PER_RUN - 1) mode cursor page totalPages 0 w4)
    as [[message|ended] wl]; cbn [snd] in *.
  all: exists wl; split;
    [|first [right; by eexists|left; by eexists]].
  all: assert (H4 : getMeta "sync_mode" w4 = Some (modeName mode)
                    /\ getMeta "next_sync_not_before" w4 = getMeta "next_sync_not_before" w
                    /\ analyticsVersion w4 = analyticsVersion w
                    /\ analyticsCache w4 = analyticsCache w
                    /\ runningSync w4 = runningSync w
                    /\ trace w4 = trace w /\ domains w4 = domains w)
         by (destruct Hcur as [->|[v ->]]; subst w3 w2 w1;
             rewrite ?getMeta_setMeta_ne by done; rewrite ?getMeta_setMeta_eq;
             rewrite ?getMeta_setMeta_ne by done; repeat split);
       destruct H4 as (M4 & N4 & V4 & C4 & R4 & T4 & D4).
  all: unfold loopEnded; rewrite !Hmeta by (unfold loopKeys; set_solver);
       split; [exact M4|]; split; [exact N4|]; split; [congruence|];
       split; [congruence|]; split; [congruence|];
       exists evs; by rewrite Ht, Hd, T4, D4.
Qed.

Lemma getMeta_invalidate k (w : world) : getMeta k (invalidateAnalytics w) = getMeta k w.
Proof. reflexivity. Qed.

Lemma getMeta_running k b (w : world) : getMeta k (withRunningSync b w) = getMeta k w.
Proof. reflexivity. Qed.

Lemma finishRun_frame mode ended w :
  let w' := finishRun mode ended w in
  analyticsVersion w' = (analyticsVersion w + 1)%Z
  /\ analyticsCache w' = ∅
  /\ domains w' = domains w /\ trace w' = trace w /\ now w' = now w
  /\ runningSync w' = runningSync w.
Proof.
  unfold finishRun.
  destruct (0 <? maxSeenTs ended)%Z, (completed ended), mode; repeat split.
Qed.

Lemma finishRun_completed mode ended w :
  completed ended = true ->
  let w' := finishRun mode ended w in
  getMeta "last_sync_at" w' = Some (toISOString (now w))
  /\ getMeta "next_sync_not_before" w' = None
  /\ getMeta "sync_cursor_page" w' = Some "1"
  /\ getMeta "sync_total_pages" w' = None
  /\ getMeta "sync_mode" w'
     = match mode with Full => Some "incremental" | Incremental => getMeta "sync_mode" w end.
Proof.
  intros Hc. unfold finishRun. rewrite Hc.
  destruct (0 <? maxSeenTs ended)%Z, mode; rewrite !getMeta_invalidate;
    repeat (first [rewrite getMeta_setMeta_eq | rewrite getMeta_setMeta_ne by done]);
    repeat split.
Qed.

Lemma recordFailure_frame message w :
  let w' := recordFailure message w in
  analyticsVersion w' = analyticsVersion w /\ analyticsCache w' = analyticsCache w
  /\ domains w' = domains w /\ trace w' = trace w /\ now w' = now w
  /\ runningSync w' = runningSync w.
Proof. unfold recordFailure. destruct (isRateLimitError message); repeat split. Qed.

Lemma recordFailure_meta message w :
  let w' := recordFailure message w in
  (isRateLimitError message = true ->
   getMeta "next_sync_not_before" w' = Some (toISOString (now w + TWO_HOURS_MS)%Z)
   /\ getMeta "last_sync_error" w'
      = Some ("Rate limited by Soinda (429). Next retry after "
              ++ toISOString (now w + TWO_HOURS_MS)%Z))
  /\ (isRateLimitError message = false ->
      getMeta "last_sync_error" w' = Some message
      /\ getMeta "next_sync_not_before" w' = getMeta "next_sync_not_before" w).
Proof.
  unfold recordFailure. destruct (isRateLimitError message); split; intros [=];
    repeat (first [rewrite getMeta_setMeta_eq | rewrite getMeta_setMeta_ne by done]);
    split; reflexivity.
Qed.

Lemma syncSoindaDomains_runs force bypassSchedule w :
  syncSoindaDomains force bypassSchedule w = (AlreadyRunning, w)
  \/ syncSoindaDomains force bypassSchedule w = (NotDue, w)
  \/ syncSoindaDomains force bypassSchedule w
     = ((runSync force (prepared force w)).1,
        withRunningSync false (runSync force (prepared force w)).2).
Proof.
  unfold syncSoindaDomains, prepared. destruct (runningSync w); [by left|].
  destruct (negb bypassSchedule && negb force && _); [right; by left|].
  right. right. by destruct (runSync force _).
Qed.

Lemma prepared_frame force w :
  runMode force (prepared force w) = runMode force w
  /\ domains (prepared force w) = domains w
  /\ trace (prepared force w) = trace w
  /\ analyticsVersion (prepared force w) = analyticsVersion w
  /\ getMeta "next_sync_not_before" (prepared force w)
     = (if force then None else getMeta "next_sync_not_before" w).
Proof.
  unfold prepared.
  destruct force; rewrite getMeta_running;
    repeat (first [rewrite getMeta_setMeta_eq | rewrite getMeta_setMeta_ne by done]);
    repeat split.
Qed.

End RunEnd.

(** ** Rows written by a run stay in the table *)

Lemma upsertMany_keeps batch nowIso (table : gmap string Db.row) k :
  is_Some (table !! k) -> is_Some (upsertMany batch nowIso table !! k).
Proof.
  revert table. induction batch as [|x batch IH]; intros table Hk; [exact Hk|].
  change (upsertMany (x :: batch) nowIso table)
    with (upsertMany batch nowIso (upsertRow table (rowOf x nowIso))).
  apply IH. unfold upsertRow. rewrite lookup_insert. case_decide; [by eexists|exact Hk].
Qed.


Lemma replayUpserts_keeps batches (table : gmap string Db.row) k :
  is_Some (table !! k) -> is_Some (replayUpserts batches table !! k).
Proof.
  revert table. induction batches as [|b batches IH]; intros table Hk; [exact Hk|].
  change (replayUpserts (b :: batches) table)
    with (replayUpserts batches (upsertMany b.1 b.2 table)).
  apply IH. by apply upsertMany_keeps.
Qed.


(** ** A completed run (C1) *)

(** C1. After a call of the engine whose run ends Completed, whatever the
    number of pages it went through: [last_sync_at] is the time at the end
    of the run, the cooldown [next_sync_not_before] is cleared, the cursor
    is page 1, [sync_total_pages] is cleared, and if the run paged in full
    mode the persisted mode is now incremental (it is incremental after
    every completed run); the status the engine reports reads the same. *)
Theorem completed_run_resets_cursor `{Host} (force bypassSchedule : bool) (w : world)
    (Hcompleted : (syncSoindaDomains force bypassSchedule w).1 = Completed) :
  let w' := (syncSoindaDomains force bypassSchedule w).2 in
  let status := getSoindaSyncStatus w' in
  getMeta "last_sync_at" w' = Some (toISOString (now w'))
  /\ getMeta "next_sync_not_before" w' = None
  /\ getMeta "sync_cursor_page" w' = Some "1"
  /\ getMeta "sync_total_pages" w' = None
  /\ (runMode force w = Full -> getMeta "sync_mode" w' = Some "incremental")
  /\ getMeta "sync_mode" w' = Some "incremental"
  /\ Status.lastSyncAt status = Some (toISOString (now w'))
  /\ Status.nextSyncNotBefore status = None
  /\ Status.cursorPage status = 1%Z
  /\ Status.totalPages status = None
  /\ Status.syncMode status = Incremental
  /\ Status.isSyncing status = false.
Proof.
  intros w' status. subst status w'.
  destruct (syncSoindaDomains_runs force bypassSchedule w) as [E|[E|E]];
    rewrite E in *; try discriminate Hcompleted.
  cbn [fst snd] in *.
  destruct (runSync_ends force (prepared force w)) as (wl & Hl & [[ended Hr]|[message Hr]]);
    rewrite Hr in *; cbn [fst snd] in *; [|discriminate Hcompleted].
  destruct (completed ended) eqn:Hc; [clear Hcompleted|discriminate Hcompleted].
  destruct Hl as (Hmode & _).
  destruct (prepared_frame force w) as (Hrm & _). rewrite Hrm in *.
  set (mode := runMode force w) in *.
  destruct (finishRun_completed mode ended wl Hc) as (Hat & Hnext & Hcur & Htot & Hsm).
  destruct (finishRun_frame mode ended wl) as (_ & _ & _ & _ & Hnow & _).
  set (wf := finishRun mode ended wl) in *.
  assert (Hinc : getMeta "sync_mode" wf = Some "incremental").
  { rewrite Hsm. destruct mode; [reflexivity|exact Hmode]. }
  rewrite <- Hnow in Hat.
  change (now (withRunningSync false wf)) with (now wf).
  unfold getSoindaSyncStatus, getSyncMode, metaInteger.
  cbn [Status.lastSyncAt Status.nextSyncNotBefore Status.cursorPage Status.totalPages
       Status.syncMode Status.isSyncing].
  rewrite !getMeta_running, Hat, Hnext, Hcur, Htot, Hinc.
  repeat split.
Qed.

Lemma completed_run_resets_cursor_witness :
  let w' := (@syncSoindaDomains Demo.healthy false false Demo.start).2 in
  @getMeta Demo.healthy "last_sync_at" w' = Some (@toISOString Demo.healthy (now w'))
  /\ @getMeta Demo.healthy "next_sync_not_before" w' = None
  /\ @getMeta Demo.healthy "sync_cursor_page" w' = Some "1"
  /\ @getMeta Demo.healthy "sync_total_pages" w' = None
  /\ (@runMode Demo.healthy false Demo.start = Full ->
      @getMeta Demo.healthy "sync_mode" w' = Some "incremental")
  /\ @getMeta Demo.healthy "sync_mode" w' = Some "incremental"
  /\ Status.lastSyncAt (@getSoindaSyncStatus Demo.healthy w')
     = Some (@toISOString Demo.healthy (now w'))
  /\ Status.nextSyncNotBefore (@getSoindaSyncStatus Demo.healthy w') = None
  /\ Status.cursorPage (@getSoindaSyncStatus Demo.healthy w') = 1%Z
  /\ Status.totalPages (@getSoindaSyncStatus Demo.healthy w') = None
  /\ Status.syncMode (@getSoindaSyncStatus Demo.healthy w') = Incremental
  /\ Status.isSyncing (@getSoindaSyncStatus Demo.healthy w') = false.
Proof.
  apply (@completed_run_resets_cursor Demo.healthy false false Demo.start).
  vm_compute. reflexivity.
Defined.

Example completed_after_three_pages :
  let out := @syncSoindaDomains Demo.healthy false false Demo.start in
  out.1 = Completed
  /\ requestsSent (trace out.2) = [(1, 100); (2, 100); (3, 100)]%Z
  /\ @getMeta Demo.healthy "sync_last_page" out.2 = Some "3"
  /\ @getMeta Demo.healthy "sync_cursor_page" out.2 = Some "1"
  /\ @getMeta Demo.healthy "last_sync_at" out.2 = Some "1515"
  /\ now out.2 = 1515%Z.
Proof. vm_compute. repeat split; reflexivity. Qed.

(** Pages of 100, 100 and 40 rows and no total: the run completes after
    page 3, whose 40 rows are fewer than the page size. *)
Example completed_on_short_page :
  let out := @syncSoindaDomains Demo.paged false false Demo.start in
  out.1 = Completed
  /\ requestsSent (trace out.2) = [(1, 100); (2, 100); (3, 100)]%Z
  /\ @getMeta Demo.paged "sync_last_page" out.2 = Some "3"
  /\ @getMeta Demo.paged "sync_last_source_count" out.2 = Some "40"
  /\ @getMeta Demo.paged "sync_cursor_page" out.2 = Some "1"
  /\ @getMeta Demo.paged "sync_total_pages" out.2 = None
  /\ size (domains out.2) = 240%nat.
Proof. vm_compute. repeat split; reflexivity. Qed.

(** ** A failed run (C8) *)

(** The error of the fetcher after a last 429 is a rate-limit error for
    the engine; for a status a response can carry, its two other errors
    are not. *)
Example fetcher_errors_classified :
  isRateLimitError rateLimitMessage = true
  /\ forallb (fun s => negb (isRateLimitError (unavailableMessage (Z.of_nat s)))) (seq 500 100) = true
  /\ forallb (fun s => (s =? 429)%nat || negb (isRateLimitError (rejectedMessage (Z.of_nat s))))
       (seq 100 400) = true.
Proof. vm_compute. repeat split; reflexivity. Qed.



Example rate_limited_run :
  let out := @syncSoindaDomains Demo.flaky false false Demo.start in
  out.1 = Failed rateLimitMessage
  /\ now out.2 = 487300%Z
  /\ @getMeta Demo.flaky "next_sync_not_before" out.2 = Some "7687300"
  /\ @getMeta Demo.flaky "last_sync_error" out.2
     = Some "Rate limited by Soinda (429). Next retry after 7687300"
  /\ (map_to_list (domains out.2)).*1 ≡ₚ ["one.com"; "two.net"]
  /\ analyticsVersion out.2 = 0%Z.
Proof.
  vm_compute. repeat split; reflexivity.
Qed.

Example rejected_run :
  let out := @syncSoindaDomains Demo.rejecting false false Demo.start in
  out.1 = Failed "Soinda API error (404)"
  /\ @getMeta Demo.rejecting "next_sync_not_before" out.2 = None
  /\ @getMeta Demo.rejecting "last_sync_error" out.2 = Some "Soinda API error (404)"
  /\ size (domains out.2) = 2%nat.
Proof. vm_compute. repeat split; reflexivity. Qed.

(** ** The analytics cache (C3) *)

Section CacheFacts.
Context `{Host}.

(** The version counter through a call of the engine: one more after a
    run that ends without an error, unchanged otherwise. *)
Lemma syncSoindaDomains_version force bypassSchedule w :
  let out := syncSoindaDomains force bypassSchedule w in
  match out.1 with
  | Completed | Interrupted =>
      analyticsVersion out.2 = (analyticsVersion w + 1)%Z /\ analyticsCache out.2 = ∅
  | AlreadyRunning | NotDue | Failed _ =>
      analyticsVersion out.2 = analyticsVersion w /\ analyticsCache out.2 = analyticsCache w
  end.
Proof.
  cbn zeta.
  destruct (syncSoindaDomains_runs force bypassSchedule w) as [E|[E|E]];
    rewrite E; cbn [fst snd]; try (split; reflexivity).
  destruct (runSync_ends force (prepared force w)) as (wl & Hl & [[ended Hr]|[msg Hr]]);
    rewrite Hr; cbn [fst snd];
    destruct Hl as (_ & _ & Hv & Hc & _);
    destruct (prepared_frame force w) as (_ & _ & _ & Hpv & _).
  - destruct (finishRun_frame (runMode force (prepared force w)) ended wl) as (Fv & Fc & _).
    assert (analyticsVersion
              (withRunningSync false (finishRun (runMode force (prepared force w)) ended wl))
            = (analyticsVersion w + 1)%Z
            /\ analyticsCache
                 (withRunningSync false (finishRun (runMode force (prepared force w)) ended wl))
               = ∅) as Hgoal.
    { split; [|exact Fc].
      change (analyticsVersion (finishRun (runMode force (prepared force w)) ended wl)
              = (analyticsVersion w + 1)%Z).
      rewrite Fv, Hv, Hpv. reflexivity. }
    destruct (completed ended); exact Hgoal.
  - destruct (recordFailure_frame msg wl) as (Fv & Fc & _).
    split.
    + change (analyticsVersion (recordFailure msg wl) = analyticsVersion w).
      rewrite Fv, Hv, Hpv. reflexivity.
    + change (analyticsCache (recordFailure msg wl) = analyticsCache w).
      rewrite Fc, Hc. unfold prepared. by destruct force.
Qed.

Lemma query_hit options w cached :
  analyticsCache w !! cacheKeyOf options = Some cached ->
  fresh w cached = true ->
  querySoindaAnalytics options w = (Analytics.value cached, w).
Proof. intros Hc Hf. unfold querySoindaAnalytics. by rewrite Hc, Hf. Qed.

Lemma query_miss options w :
  (analyticsCache w !! cacheKeyOf options = None
   \/ exists cached, analyticsCache w !! cacheKeyOf options = Some cached
                     /\ fresh w cached = false) ->
  querySoindaAnalytics options w = (computeAnalytics options (domains w), recomputed options w).
Proof.
  intros [Hc|(cached & Hc & Hf)]; unfold querySoindaAnalytics; rewrite Hc; [|rewrite Hf];
    reflexivity.
Qed.

Lemma fresh_iff w cached :
  fresh w cached = true
  <-> Analytics.version cached = analyticsVersion w
      /\ (now w - Analytics.ts cached < ANALYTICS_CACHE_TTL_MS)%Z.
Proof. unfold fresh. rewrite andb_true_iff, Z.eqb_eq, Z.ltb_lt. reflexivity. Qed.

Lemma query_on_empty_cache options w :
  analyticsCache w = ∅ ->
  (querySoindaAnalytics options w).1 = computeAnalytics options (domains w).
Proof. intros He. rewrite query_miss; [reflexivity|]. left. by rewrite He. Qed.

Lemma query_version options w :
  analyticsVersion (querySoindaAnalytics options w).2 = analyticsVersion w
  /\ domains (querySoindaAnalytics options w).2 = domains w.
Proof.
  unfold querySoindaAnalytics.
  destruct (analyticsCache w !! cacheKeyOf options) as [cached|];
    [destruct (fresh w cached)|]; split; reflexivity.
Qed.

(** The same call made again at once is served from the cache. *)
Lemma query_again options w :
  querySoindaAnalytics options (querySoindaAnalytics options w).2
  = ((querySoindaAnalytics options w).1, (querySoindaAnalytics options w).2).
Proof.
  assert (Hnew : querySoindaAnalytics options (recomputed options w)
                 = (computeAnalytics options (domains w), recomputed options w)).
  { apply (query_hit options (recomputed options w) (freshEntry options w)).
    - unfold recomputed. simpl. apply lookup_insert_eq.
    - apply fresh_iff. unfold recomputed, freshEntry. simpl. split; [reflexivity|].
      unfold ANALYTICS_CACHE_TTL_MS. lia. }
  destruct (analyticsCache w !! cacheKeyOf options) as [cached|] eqn:Hc.
  - destruct (fresh w cached) eqn:Hf.
    + rewrite (query_hit _ _ _ Hc Hf). cbn [fst snd]. by apply query_hit.
    + rewrite (query_miss options w) by (right; eauto). exact Hnew.
  - rewrite (query_miss options w) by (by left). exact Hnew.
Qed.

End CacheFacts.

(** C3. The version counter of the analytics cache goes up by exactly one
    in a call of the engine whose run ends without an error (Completed, or
    Interrupted at the page budget) and in a catalog reset, and the cache
    is emptied; it does not move in a call that does not run or whose run
    fails, nor in an analytics call. An analytics call is served from the
    cache exactly when the entry of its key has the current version and is
    younger than the TTL of five minutes; when the entry is missing, of
    another version or too old, the aggregates are recomputed from the
    table and the entry of the key is replaced. So an identical call made
    again at once is served from the cache, and after a completed or
    interrupted run or a reset in between it recomputes from the table as
    it then is, whatever the time that has passed. *)
Theorem analytics_cache_versioning `{Host} (options : filterOptions)
    (force bypassSchedule : bool) (w : world) :
  let out := syncSoindaDomains force bypassSchedule w in
  let key := cacheKeyOf options in
  (out.1 = Completed \/ out.1 = Interrupted ->
   analyticsVersion out.2 = (analyticsVersion w + 1)%Z /\ analyticsCache out.2 = ∅)
  /\ (out.1 = AlreadyRunning \/ out.1 = NotDue \/ (exists message, out.1 = Failed message) ->
      analyticsVersion out.2 = analyticsVersion w)
  /\ (analyticsVersion (resetSoindaCatalog w) = (analyticsVersion w + 1)%Z
      /\ analyticsCache (resetSoindaCatalog w) = ∅)
  /\ analyticsVersion (querySoindaAnalytics options w).2 = analyticsVersion w
  /\ (forall cached,
        analyticsCache w !! key = Some cached ->
        Analytics.version cached = analyticsVersion w ->
        (now w - Analytics.ts cached < ANALYTICS_CACHE_TTL_MS)%Z ->
        querySoindaAnalytics options w = (Analytics.value cached, w))
  /\ (analyticsCache w !! key = None
      \/ (exists cached,
            analyticsCache w !! key = Some cached
            /\ (Analytics.version cached <> analyticsVersion w
                \/ (ANALYTICS_CACHE_TTL_MS <= now w - Analytics.ts cached)%Z)) ->
      querySoindaAnalytics options w
      = (computeAnalytics options (domains w),
         withAnalytics (analyticsVersion w)
           (<[key := {| Analytics.ts := now w; Analytics.version := analyticsVersion w;
                        Analytics.value := computeAnalytics options (domains w) |}]>
              (analyticsCache w)) w))
  /\ (let w1 := (querySoindaAnalytics options w).2 in
      querySoindaAnalytics options w1 = ((querySoindaAnalytics options w).1, w1)
      /\ (forall force' bypass',
            let run := syncSoindaDomains force' bypass' w1 in
            run.1 = Completed \/ run.1 = Interrupted ->
            (querySoindaAnalytics options run.2).1 = computeAnalytics options (domains run.2))
      /\ (querySoindaAnalytics options (resetSoindaCatalog w1)).1
         = computeAnalytics options (domains (resetSoindaCatalog w1))).
Proof.
  intros out key. subst out key.
  pose proof (syncSoindaDomains_version force bypassSchedule w) as Hv. cbn zeta in Hv.
  split; [|split; [|split; [|split; [|split; [|split]]]]].
  - intros [E|E]; rewrite E in Hv; exact Hv.
  - intros [E|[E|[message E]]]; rewrite E in Hv; apply Hv.
  - split; reflexivity.
  - apply query_version.
  - intros cached Hc Hver Hage. apply query_hit; [exact Hc|]. by apply fresh_iff.
  - intros Hmiss. apply query_miss.
    destruct Hmiss as [Hc|(cached & Hc & Hstale)]; [by left|].
    right. exists cached. split; [exact Hc|].
    destruct (fresh w cached) eqn:Hf; [|reflexivity].
    apply fresh_iff in Hf as [Hfv Hfa]. destruct Hstale; [contradiction|lia].
  - cbn zeta. split; [apply query_again|]. split.
    + intros force' bypass' Hrun.
      pose proof (syncSoindaDomains_version force' bypass' (querySoindaAnalytics options w).2)
        as Hv'. cbn zeta in Hv'.
      apply query_on_empty_cache.
      destruct Hrun as [E|E]; rewrite E in Hv'; apply Hv'.
    + by apply query_on_empty_cache.
Qed.

(** A run between two identical calls: the second call, made while the
    entry of the first is younger than the TTL, counts the rows of the
    table as the run left it. *)
Example recomputed_after_run :
  let first := @querySoindaAnalytics Demo.healthy everything Demo.start in
  let run := @syncSoindaDomains Demo.healthy false false first.2 in
  let second := @querySoindaAnalytics Demo.healthy everything run.2 in
  Analytics.total first.1 = 0%nat
  /\ run.1 = Completed
  /\ (now run.2 - now first.2 < ANALYTICS_CACHE_TTL_MS)%Z
  /\ analyticsVersion run.2 = 1%Z
  /\ Analytics.total second.1 = 4%nat
  /\ Analytics.available second.1 = 4%nat
  /\ Analytics.avgPrice second.1 = Some (25 # 2)
  /\ Analytics.uniqueTlds second.1 = 4%nat.
Proof. vm_compute. repeat split; reflexivity. Qed.

(** C3, as stated, fails for the store mutations of a run that fails: the
    first call caches a count of 0 rows; a run then upserts the two rows
    of page 1 and fails on page 2 with a 404; the same call, made while
    the entry is younger than the TTL, is served the cached count of 0
    although the table now has two rows. *)
Lemma stale_after_failed_run :
  let first := @querySoindaAnalytics Demo.rejecting everything Demo.start in
  let run := @syncSoindaDomains Demo.rejecting false true first.2 in
  let second := @querySoindaAnalytics Demo.rejecting everything run.2 in
  run.1 = Failed "Soinda API error (404)"
  /\ size (domains first.2) = 0%nat
  /\ size (domains run.2) = 2%nat
  /\ (now run.2 - now first.2 < ANALYTICS_CACHE_TTL_MS)%Z
  /\ analyticsVersion run.2 = analyticsVersion first.2
  /\ Analytics.total second.1 = Analytics.total first.1
  /\ Analytics.total second.1 = 0%nat
  /\ Analytics.total (@computeAnalytics Demo.rejecting everything (domains run.2)) = 2%nat.
Proof.
  cbv zeta. repeat split; try (vm_compute; reflexivity).
Qed.

(** ** LIKE against substring search *)

Section LikeFacts.





Lemma lowered_lower s : lowered (toLowerCase s).
Proof. apply toLowerCase_idem. Qed.












End LikeFacts.

(** ** The count of a filtered query (C2) *)

Section QueryFacts.
Context `{Host}.





Lemma forallb_flat_map {A B} (p : B -> bool) (f : A -> list B) l :
  forallb p (flat_map f l) = forallb (fun a => forallb p (f a)) l.
Proof.
  induction l as [|a l IH]; [reflexivity|]. simpl. by rewrite forallb_app, IH.
Qed.



Lemma filter_agree {A} (p q : A -> bool) (l : list A) :
  (forall a, p a = q a) ->
  filter (fun a => p a = true) l = filter (fun a => q a = true) l.
Proof.
  intros Hpq. induction l as [|a l IH]; [reflexivity|].
  rewrite !filter_cons, IH.
  destruct (decide (p a = true)) as [Hp|Hp], (decide (q a = true)) as [Hq'|Hq'];
    try reflexivity; rewrite Hpq in Hp; contradiction.
Qed.

End QueryFacts.




Example plain_query_result :
  let table := domains (@syncSoindaDomains Demo.healthy false false Demo.start).2 in
  let result := @querySoindaDomains Demo.healthy plainQuery table in
  Query.total result = 1%nat
  /\ Query.hasMore result = false
  /\ Query.data result = []
  /\ Query.fields result = ["disponible"; "domain_name"; "precio"].
Proof. vm_compute. repeat split; reflexivity. Qed.

(** * Further properties *)

(** ** Soundness of the matcher *)

Section MatcherSound.
Import Regex.

Lemma append_cons c (a b : string) : String c a ++ b = String c (a ++ b).
Proof. reflexivity. Qed.

Lemma append_empty_r (s : string) : s ++ "" = s.
Proof. induction s as [|c s IH]; [reflexivity|]. by rewrite append_cons, IH. Qed.

Lemma append_assoc (a b c : string) : (a ++ b) ++ c = a ++ (b ++ c).
Proof. induction a as [|x a IH]; [reflexivity|]. by rewrite !append_cons, IH. Qed.

Lemma length_append (a b : string) :
  String.length (a ++ b) = (String.length a + String.length b)%nat.
Proof.
  induction a as [|x a IH]; [reflexivity|].
  rewrite append_cons. cbn [String.length]. by rewrite IH.
Qed.

Lemma firstChars_append (w rest : string) :
  firstChars (String.length (w ++ rest) - String.length rest) (w ++ rest) = w.
Proof.
  rewrite length_append.
  replace (String.length w + String.length rest - String.length rest)%nat
    with (String.length w) by lia.
  induction w as [|c w IH]; [by destruct rest|].
  rewrite append_cons. cbn [String.length firstChars]. by rewrite IH.
Qed.

Lemma repeatMatcher_sound (step : option ascii -> string -> cont -> outcome) (r : regex) :
  soundFor step r ->
  forall fuel lo hi prev s k out,
    repeatMatcher step fuel lo hi prev s k = Matched out ->
    exists ws prev' s',
      s = concatAll ws ++ s' /\ Forall (lang r) ws
      /\ (lo <= length ws)%nat /\ within hi (length ws)
      /\ k prev' s' = Matched out.
Proof.
  intros Hstep. induction fuel as [|fuel IH]; intros lo hi prev s k out; [discriminate|].
  cbn [repeatMatcher].
  set (iter := step prev s (fun prev' s' =>
                if (lo =? 0)%nat && (String.length s' =? String.length s)%nat
                then NoMatch
                else repeatMatcher step fuel (Nat.pred lo) (Nat.pred <$> hi) prev' s' k)).
  assert (Hiter : forall h, (hi = None \/ hi = Some (S h)) -> iter = Matched out ->
            exists ws prev' s',
              s = concatAll ws ++ s' /\ Forall (lang r) ws
              /\ (lo <= length ws)%nat /\ within hi (length ws)
              /\ k prev' s' = Matched out).
  { intros h Hhi Hm. apply Hstep in Hm as (w & prev1 & s1 & -> & Hw & Hk).
    destruct ((lo =? 0)%nat && _); [discriminate|].
    apply IH in Hk as (ws & prev' & s' & -> & Hws & Hlo & Hhi' & Hk).
    exists (w :: ws), prev', s'. cbn [concatAll length]. rewrite append_assoc.
    split; [reflexivity|]. split; [by constructor|]. split; [lia|]. split; [|exact Hk].
    destruct Hhi as [->| ->]; simpl in *; [exact I|lia]. }
  assert (Hskip : lo = 0%nat -> k prev s = Matched out ->
            exists ws prev' s',
              s = concatAll ws ++ s' /\ Forall (lang r) ws
              /\ (lo <= length ws)%nat /\ within hi (length ws)
              /\ k prev' s' = Matched out).
  { intros -> Hk. exists [], prev, s. cbn [concatAll length].
    split; [reflexivity|]. split; [constructor|]. split; [lia|]. split; [|exact Hk].
    destruct hi; simpl; [lia|exact I]. }
  destruct hi as [[|h]|]; fold iter.
  - destruct lo; [apply Hskip; reflexivity|discriminate].
  - destruct lo; [|apply (Hiter h); by right].
    destruct iter eqn:E; try discriminate.
    + intros [= ->]. apply (Hiter h); [by right|reflexivity].
    + by apply Hskip.
  - destruct lo; [|apply (Hiter 0%nat); by left].
    destruct iter eqn:E; try discriminate.
    + intros [= ->]. apply (Hiter 0%nat); [by left|reflexivity].
    + by apply Hskip.
Qed.

Lemma run_sound r : soundFor (run r) r.
Proof.
  induction r as [p|r1 IH1 r2 IH2|r IH lo hi|]; intros prev s k out; cbn [run].
  - destruct s as [|c s']; [discriminate|].
    destruct (p c) eqn:Hp; [|discriminate]. intros Hk.
    exists (String c ""), (Some c), s'. cbn [lang]. eauto.
  - intros Hm. apply IH1 in Hm as (w1 & prev1 & s1 & -> & Hw1 & Hm).
    apply IH2 in Hm as (w2 & prev2 & s2 & -> & Hw2 & Hk).
    exists (w1 ++ w2), prev2, s2. rewrite append_assoc. cbn [lang]. eauto 10.
  - intros Hm. apply (repeatMatcher_sound _ _ IH) in Hm
      as (ws & prev' & s' & -> & Hws & Hlo & Hhi & Hk).
    exists (concatAll ws), prev', s'. cbn [lang]. eauto 10.
  - destruct (xorb _ _); [|discriminate]. intros Hk.
    exists "", prev, s. cbn [lang]. eauto.
Qed.

Lemma match_prefix r prev s rest :
  run r prev s (fun _ rest => Matched rest) = Matched rest ->
  substringOf (firstChars (String.length s - String.length rest) s) s
  /\ lang r (firstChars (String.length s - String.length rest) s).
Proof.
  intros E. apply run_sound in E as (w & prev' & s' & -> & Hw & [= <-]).
  rewrite firstChars_append. split; [exists "", s'; reflexivity|exact Hw].
Qed.

(** What the search returns is a text of the language that occurs in the
    text searched. *)
Lemma searchFrom_sound r s : forall prev m,
  searchFrom r prev s = Some m -> substringOf m s /\ lang r m.
Proof.
  induction s as [|c s IH]; intros prev m; cbn [searchFrom].
  - destruct (run r prev "" (fun _ rest => Matched rest)) as [rest| |] eqn:E; try discriminate.
    intros [= <-]. exact (match_prefix _ _ _ _ E).
  - destruct (run r prev (String c s) (fun _ rest => Matched rest)) as [rest| |] eqn:E.
    + intros [= <-]. exact (match_prefix _ _ _ _ E).
    + intros Hm. apply IH in Hm as [(pre & post & ->) Hl].
      split; [exists (String c pre), post; reflexivity|exact Hl].
    + intros Hm. apply IH in Hm as [(pre & post & ->) Hl].
      split; [exists (String c pre), post; reflexivity|exact Hl].
Qed.

End MatcherSound.

(** ** What a domain found in a text looks like *)

Lemma toLowerCase_append (a b : string) :
  toLowerCase (a ++ b) = toLowerCase a ++ toLowerCase b.
Proof.
  induction a as [|c a IH]; [reflexivity|].
  rewrite append_cons. cbn [toLowerCase]. by rewrite append_cons, IH.
Qed.

Lemma lowered_append (a b : string) : lowered (a ++ b) <-> lowered a /\ lowered b.
Proof.
  unfold lowered. induction a as [|c a IH]; [simpl; tauto|].
  rewrite append_cons. cbn [toLowerCase]. split.
  - intros [= Hc Hab]. apply IH in Hab as [Ha Hb]. by rewrite Hc, Ha.
  - intros [[= Hc Ha] Hb]. rewrite Hc. f_equal. apply IH. by split.
Qed.

Lemma lowered_substring (d s : string) : substringOf d s -> lowered s -> lowered d.
Proof.
  intros (pre & post & ->) Hs.
  apply lowered_append in Hs as [_ Hs]. by apply lowered_append in Hs as [Hd _].
Qed.

Lemma hasChar_append a (x y : string) : hasChar a (x ++ y) = hasChar a x || hasChar a y.
Proof.
  induction x as [|c x IH]; [reflexivity|].
  rewrite append_cons. cbn [hasChar]. by rewrite IH, orb_assoc.
Qed.

Lemma trimEnd_last (x : string) c :
  isSpace c = false -> trimEnd (x ++ String c "") = x ++ String c "".
Proof.
  intros Hc. induction x as [|a x IH].
  - simpl. by rewrite Hc.
  - rewrite append_cons. cbn [trimEnd]. rewrite IH. by destruct x.
Qed.

Lemma alnum_not_space c : alnum c = true -> isSpace c = false.
Proof.
  destruct c as [[] [] [] [] [] [] [] []]; vm_compute; intros E;
    first [reflexivity | discriminate E].
Qed.

Lemma alpha_not_space c : isAlpha c = true -> isSpace c = false.
Proof.
  destruct c as [[] [] [] [] [] [] [] []]; vm_compute; intros E;
    first [reflexivity | discriminate E].
Qed.

Lemma isDot_char c : isDot c = true -> c = "."%char.
Proof.
  destruct c as [[] [] [] [] [] [] [] []]; vm_compute; intros E;
    first [reflexivity | discriminate E].
Qed.

(** A run of one or more single characters of a class ends with one. *)
Lemma class_run_last p (cs : list string) :
  Forall (lang (Regex.Class p)) cs -> cs <> [] ->
  exists x c, concatAll cs = x ++ String c "" /\ p c = true.
Proof.
  induction 1 as [|w cs (c & -> & Hc) _ IH]; [contradiction|]. intros _.
  destruct cs as [|w' cs'].
  - exists "", c. by split.
  - destruct IH as (x & c' & Hx & Hc'); [discriminate|].
    exists (String c x), c'. cbn [concatAll] in *. rewrite Hx. by split.
Qed.

(** A text the DNS expression matches starts with a letter or a digit,
    holds a dot and ends with a letter. *)
Lemma domain_shape m :
  lang DOMAIN_REGEX m ->
  (exists a rest, m = String a rest /\ alnum a = true)
  /\ hasChar "." m = true
  /\ (exists x c, m = x ++ String c "" /\ isAlpha c = true).
Proof.
  unfold DOMAIN_REGEX. cbn [lang].
  intros (w0 & w & -> & -> & w1 & w' & -> & (ws & -> & Hws & Hone & _)
          & w2 & w3 & -> & (cs & -> & Hcs & Htwo & _) & ->).
  destruct Hws as [|g ws Hg _]; [simpl in Hone; lia|].
  destruct Hg as (lab & dot & -> & (a & tl & -> & (c0 & -> & Ha) & _) & (c & -> & Hdot)).
  apply isDot_char in Hdot as ->.
  destruct (class_run_last isAlpha cs Hcs) as (x & c & Hx & Hc).
  { intros ->. simpl in Htwo. lia. }
  rewrite Hx, append_empty_r. cbn [concatAll].
  split; [|split].
  - eexists _, _. split; [|exact Ha]. rewrite !append_cons. reflexivity.
  - rewrite !hasChar_append. cbn [hasChar]. rewrite Ascii.eqb_refl.
    by rewrite !orb_true_r.
  - eexists _, c. split; [|exact Hc]. rewrite <- !append_assoc. reflexivity.
Qed.

Lemma found_shape (value d : string) :
  findDomainInText value = Some d ->
  substringOf d (toLowerCase value) /\ dottedLowerTrimmed d /\ truthy d = true.
Proof.
  intros Hfound. apply searchFrom_sound in Hfound as [Hsub Hlang].
  destruct (domain_shape d Hlang) as ((a & rest & Hd & Ha) & Hdot & (x & c & Hx & Hc)).
  split; [exact Hsub|]. split; [|by rewrite Hd].
  split; [by rewrite includes_char|]. split.
  - apply (lowered_substring d (toLowerCase value) Hsub). apply lowered_lower.
  - unfold trim. rewrite (trimStart_of_clean d).
    + rewrite Hx. apply trimEnd_last. by apply alpha_not_space.
    + rewrite Hd. simpl. by rewrite (alnum_not_space a Ha).
Qed.

(** X1. The domain [findDomainInText] finds in a text occurs in the
    lower-cased text, is a text of the DNS expression, holds a dot, is in
    lower case and has no white space at its ends. *)
Theorem findDomainInText_sound (value d : string)
    (Hfound : findDomainInText value = Some d) :
  substringOf d (toLowerCase value)
  /\ lang DOMAIN_REGEX d
  /\ dottedLowerTrimmed d
  /\ truthy d = true.
Proof.
  destruct (found_shape value d Hfound) as (Hsub & Hshape & Ht).
  apply searchFrom_sound in Hfound as [_ Hlang].
  split; [exact Hsub|]. split; [exact Hlang|]. split; [exact Hshape|exact Ht].
Qed.

Lemma findDomainInText_sound_witness :
  substringOf "sub.example.org" (toLowerCase "see https://Sub.Example.org/x now")
  /\ lang DOMAIN_REGEX "sub.example.org"
  /\ dottedLowerTrimmed "sub.example.org"
  /\ truthy "sub.example.org" = true.
Proof.
  apply (findDomainInText_sound "see https://Sub.Example.org/x now" "sub.example.org").
  vm_compute. reflexivity.
Defined.

(** ** The records of [normalizeDomain] *)

Lemma firstSome_Some {A B} (f : A -> option B) l y :
  firstSome f l = Some y -> exists x, x ∈ l /\ f x = Some y.
Proof.
  induction l as [|x l IH]; [discriminate|]. simpl.
  destruct (f x) as [y'|] eqn:E.
  - intros [= <-]. exists x. split; [left|exact E].
  - intros Hl. destruct (IH Hl) as (x' & Hin & Hx'). exists x'. split; [by right|exact Hx'].
Qed.

Lemma firstSome_None {A B} (f : A -> option B) l :
  firstSome f l = None <-> Forall (fun x => f x = None) l.
Proof.
  induction l as [|x l IH]; simpl; [split; [constructor|reflexivity]|].
  destruct (f x) eqn:E.
  - split; [discriminate|]. intros Hall. inversion Hall; congruence.
  - rewrite IH. split; [by constructor|]. intros Hall. by inversion Hall.
Qed.

Lemma needle_shape d :
  includes "." d = true -> dottedLowerTrimmed (toLowerCase (trim d)).
Proof.
  intros Hdot. split; [by rewrite dot_survives|]. split.
  - apply toLowerCase_idem.
  - by rewrite trim_lower, trim_idem.
Qed.

Lemma candidateDomain_dotted item key found :
  candidateDomain item key = Some found -> includes "." found = true.
Proof.
  unfold candidateDomain. destruct (prop item key) as [[| | |value| |]|]; try discriminate.
  destruct (includes "." _) eqn:E; [|discriminate]. by intros [= <-].
Qed.

Lemma scannedDomain_found v d :
  scannedDomain v = Some d <-> exists s, v = JStr s /\ findDomainInText s = Some d.
Proof.
  unfold scannedDomain. split.
  - destruct v as [| | |s| |]; try discriminate.
    destruct (findDomainInText s) as [d'|] eqn:E; [|discriminate].
    destruct (truthy d'); [|discriminate]. intros [= <-]. eauto.
  - intros (s & -> & Hs). rewrite Hs.
    destruct (found_shape s d Hs) as (_ & _ & Ht). by rewrite Ht.
Qed.

Lemma extractDomainField_dotted item d :
  extractDomainField item = Some d -> includes "." d = true.
Proof.
  unfold extractDomainField.
  destruct (firstSome (candidateDomain item) domainCandidates) as [found|] eqn:E.
  - intros [= <-]. apply firstSome_Some in E as (key & _ & Hk).
    by eapply candidateDomain_dotted.
  - intros Hs. apply firstSome_Some in Hs as (v & _ & Hv).
    apply scannedDomain_found in Hv as (s & _ & Hs).
    by destruct (found_shape s d Hs) as (_ & (Hdot & _) & _).
Qed.

Lemma normalizeDomain_fields (row : json) (r : MarketplaceDomain) :
  normalizeDomain row = Some r ->
  dottedLowerTrimmed (domain r) /\ tld r = lastLabel (domain r).
Proof.
  intros Hrecord.
  assert (Hobject : forall item,
            match extractDomainField item with
            | None => None
            | Some rawDomain =>
                if negb (truthy rawDomain) then None
                else Some (toLowerCase (trim rawDomain))
            end = Some (domain r) ->
            dottedLowerTrimmed (domain r)).
  { intros item. destruct (extractDomainField item) as [d|] eqn:E; [|discriminate].
    destruct (negb (truthy d)); [discriminate|]. intros [= <-].
    apply needle_shape. by eapply extractDomainField_dotted. }
  destruct row as [|b|q|text|l|kvs]; unfold normalizeDomain in Hrecord;
    cbn [asRecord] in *; try discriminate Hrecord.
  - destruct (findDomainInText text) as [d|] eqn:E;
      (destruct (negb (includes "." _)) eqn:Hdot; [discriminate|]);
      injection Hrecord as <-; cbn [domain tld];
      apply negb_false_iff in Hdot; (split; [|reflexivity]).
    + by destruct (found_shape text d E) as (_ & Hd & _).
    + apply needle_shape. by rewrite <- dot_survives.
  - destruct (extractDomainField (JArr l)) as [d|] eqn:E; [|discriminate].
    destruct (negb (truthy d)) eqn:Ht; [discriminate|].
    injection Hrecord as <-. cbn [domain tld].
    split; [|reflexivity]. apply (Hobject (JArr l)). by rewrite E, Ht.
  - destruct (extractDomainField (JObj kvs)) as [d|] eqn:E; [|discriminate].
    destruct (negb (truthy d)) eqn:Ht; [discriminate|].
    injection Hrecord as <-. cbn [domain tld].
    split; [|reflexivity]. apply (Hobject (JObj kvs)). by rewrite E, Ht.
Qed.

(** X2. Every record [normalizeDomain] returns has a domain that holds a
    dot, is in lower case and has no white space at its ends; its tld is
    the text after the last dot of the domain; its [raw] is the row itself
    (the object [{value: row}] for a string row, whose other fields are
    null). *)
Theorem normalizeDomain_record (row : json) (r : MarketplaceDomain)
    (Hrecord : normalizeDomain row = Some r) :
  dottedLowerTrimmed (domain r)
  /\ tld r = lastLabel (domain r)
  /\ raw r = rawOf row
  /\ match row with
     | JStr _ => available r = None /\ price r = None /\ currency r = None /\ status r = None
     | _ => True
     end.
Proof.
  destruct (normalizeDomain_fields row r Hrecord) as [Hdomain Htld].
  split; [exact Hdomain|]. split; [exact Htld|].
  destruct row as [|b|q|text|l|kvs]; unfold normalizeDomain in Hrecord;
    cbn [asRecord rawOf] in *; try discriminate Hrecord.
  - destruct (negb (includes "." _)); [discriminate|].
    injection Hrecord as <-. by cbn [raw available price currency status].
  - destruct (extractDomainField (JArr l)) as [d|]; [|discriminate].
    destruct (negb (truthy d)); [discriminate|]. by injection Hrecord as <-.
  - destruct (extractDomainField (JObj kvs)) as [d|]; [|discriminate].
    destruct (negb (truthy d)); [discriminate|]. by injection Hrecord as <-.
Qed.

Lemma normalizeDomain_record_witness :
  dottedLowerTrimmed "release.v2.1"
  /\ "1" = lastLabel "release.v2.1"
  /\ versionRow = rawOf versionRow
  /\ True.
Proof.
  exact (normalizeDomain_record versionRow
           {| domain := "release.v2.1"; tld := "1"; available := None; price := None;
              currency := None; status := None; raw := versionRow |}
           ltac:(vm_compute; reflexivity)).
Defined.

(** ** Rows that are dropped, rows that are kept *)

Lemma assoc_value key kvs v : assoc key kvs = Some v -> v ∈ kvs.*2.
Proof.
  induction kvs as [|[k x] kvs IH]; [discriminate|]. simpl.
  destruct (String.eqb key k); [intros [= ->]; left|intros Hv; right; by apply IH].
Qed.

Lemma no_dot_no_domain text : includes "." text = false -> findDomainInText text = None.
Proof.
  intros Hno. destruct (findDomainInText text) as [d|] eqn:E; [|reflexivity].
  destruct (found_shape text d E) as ((pre & post & Hsub) & (Hdot & _) & _).
  rewrite includes_char in Hdot, Hno.
  assert (Hlow : hasChar "." (toLowerCase text) = true).
  { rewrite Hsub, !hasChar_append, Hdot. by rewrite orb_true_r. }
  rewrite (hasChar_lower _ _ dot_lowerChar) in Hlow. congruence.
Qed.

(** X3. A row that is null, a boolean, a number, a string without a dot,
    or an object or array none of whose values is a string is dropped:
    [normalizeDomain] returns null for it. *)
Theorem normalizeDomain_drops (row : json) (Hrow : hopeless row) :
  normalizeDomain row = None.
Proof.
  assert (Hfield : forall item,
            Forall (fun v => forall s, v <> JStr s) (values item) ->
            extractDomainField item = None).
  { intros item Hvalues. unfold extractDomainField.
    assert (Hcand : firstSome (candidateDomain item) domainCandidates = None).
    { apply firstSome_None, Forall_forall. intros key _. unfold candidateDomain, prop.
      destruct (assoc key (entries item)) as [v|] eqn:E; [|reflexivity].
      apply assoc_value in E. rewrite Forall_forall in Hvalues.
      specialize (Hvalues v E). destruct v; try reflexivity. by destruct (Hvalues s). }
    rewrite Hcand. apply firstSome_None. eapply Forall_impl; [exact Hvalues|].
    intros v Hv. destruct v; try reflexivity. by destruct (Hv s). }
  destruct row as [|b|q|text|l|kvs]; unfold normalizeDomain, hopeless in *;
    cbn [asRecord]; try reflexivity.
  - rewrite (no_dot_no_domain text Hrow), dot_survives, Hrow. reflexivity.
  - by rewrite (Hfield (JArr l) Hrow).
  - by rewrite (Hfield (JObj kvs) Hrow).
Qed.

Lemma normalizeDomain_drops_witness : normalizeDomain countersRow = None.
Proof.
  apply normalizeDomain_drops. unfold hopeless, countersRow, values. simpl.
  repeat constructor; intros s; discriminate.
Defined.

(** X4. An object row with a string member in which a DNS name is found is
    never dropped, whatever the name of the member: [normalizeDomain]
    returns a record for it. *)
Theorem normalizeDomain_keeps (kvs : list (string * json)) (key text d : string)
    (Hmember : (key, JStr text) ∈ kvs)
    (Hfound : findDomainInText text = Some d) :
  exists r, normalizeDomain (JObj kvs) = Some r.
Proof.
  assert (Hfield : exists found, extractDomainField (JObj kvs) = Some found).
  { unfold extractDomainField.
    destruct (firstSome (candidateDomain (JObj kvs)) domainCandidates) as [found|]; [eauto|].
    destruct (firstSome scannedDomain (values (JObj kvs))) as [found|] eqn:E; [eauto|].
    apply firstSome_None in E. rewrite Forall_forall in E.
    assert (Hin : JStr text ∈ values (JObj kvs)).
    { unfold values, entries. apply list_elem_of_fmap. by exists (key, JStr text). }
    specialize (E _ Hin).
    assert (Hscan : scannedDomain (JStr text) = Some d)
      by (apply scannedDomain_found; eauto).
    congruence. }
  destruct Hfield as (found & Hf).
  pose proof (extractDomainField_dotted _ _ Hf) as Hdot.
  unfold normalizeDomain. cbn [asRecord]. rewrite Hf.
  rewrite (includes_truthy "."%char found Hdot). cbn [negb]. eauto.
Qed.

Lemma normalizeDomain_keeps_witness : exists r, normalizeDomain noteRow = Some r.
Proof.
  apply (normalizeDomain_keeps [("id", JNum 7); ("note", JStr "visit Shop.Example.com today")]
           "note" "visit Shop.Example.com today" "shop.example.com").
  - set_solver.
  - vm_compute. reflexivity.
Defined.

(** ** Counters written with [String] and read back with [Number] *)

Section Counters.

Lemma digitValue_char (d : N) :
  (d < 10)%N ->
  JsNumber.digitValue 10 (pretty_N_char d) = Some (Z.of_N d)
  /\ isDigit (pretty_N_char d) = true.
Proof.
  intros Hd.
  assert (Hcases : (d = 0 \/ d = 1 \/ d = 2 \/ d = 3 \/ d = 4 \/ d = 5 \/ d = 6
                    \/ d = 7 \/ d = 8 \/ d = 9)%N) by lia.
  repeat (destruct Hcases as [->|Hcases]; [by vm_compute|]).
  subst d. by vm_compute.
Qed.

Lemma digits_pretty (x : N) :
  forall s acc n,
    exists k,
      JsNumber.digits 10 acc n (pretty_N_go x s)
      = JsNumber.digits 10 (acc * 10 ^ Z.of_nat k + Z.of_N x)%Z (n + k) s
      /\ ((0 < x)%N -> (0 < k)%nat).
Proof.
  induction (N.lt_wf_0 x) as [x _ IH]. intros s acc n.
  destruct (decide (x = 0%N)) as [->|Hx].
  - exists 0%nat. rewrite pretty_N_go_0. split; [|lia].
    f_equal; [f_equal; lia|lia].
  - rewrite pretty_N_go_step by lia.
    destruct (IH (x `div` 10)%N (N.div_lt x 10 ltac:(lia) ltac:(lia))
                (String (pretty_N_char (x `mod` 10)) s) acc n) as (k & E & _).
    exists (S k). split; [|lia]. rewrite E. cbn [JsNumber.digits].
    destruct (digitValue_char (x `mod` 10)%N) as [-> _]; [by apply N.mod_lt|].
    f_equal; [|lia].
    rewrite N2Z.inj_div, N2Z.inj_mod, Nat2Z.inj_succ, Z.pow_succ_r by lia.
    pose proof (Z.div_mod (Z.of_N x) 10 ltac:(lia)). lia.
Qed.

Lemma allDigits_pretty (x : N) :
  forall s, allDigits s = true -> allDigits (pretty_N_go x s) = true.
Proof.
  induction (N.lt_wf_0 x) as [x _ IH]. intros s Hs.
  destruct (decide (x = 0%N)) as [->|Hx].
  - by rewrite pretty_N_go_0.
  - rewrite pretty_N_go_step by lia. apply IH; [apply N.div_lt; lia|].
    cbn [allDigits]. destruct (digitValue_char (x `mod` 10)%N) as [_ ->];
      [by apply N.mod_lt|exact Hs].
Qed.

Lemma digit_not_space c : isDigit c = true -> isSpace c = false.
Proof.
  destruct c as [[] [] [] [] [] [] [] []]; vm_compute; intros E;
    first [reflexivity | discriminate E].
Qed.

Lemma trim_digits s : allDigits s = true -> trim s = s.
Proof.
  intros Hs. unfold trim. rewrite trimStart_of_clean.
  - induction s as [|c s IH]; [reflexivity|]. cbn [allDigits] in Hs.
    apply andb_true_iff in Hs as [Hc Hs]. cbn [trimEnd]. rewrite (IH Hs).
    destruct s; [by rewrite (digit_not_space c Hc)|reflexivity].
  - destruct s as [|c s]; [reflexivity|]. cbn [allDigits] in Hs.
    apply andb_true_iff in Hs as [Hc _]. simpl. by rewrite (digit_not_space c Hc).
Qed.

Lemma ofString_digits s :
  allDigits s = true -> s <> EmptyString ->
  JsNumber.ofString s = JsNumber.unsignedDecimal s.
Proof.
  intros Hs Hne. unfold JsNumber.ofString. rewrite (trim_digits s Hs).
  destruct s as [|c r]; [done|]. cbn [allDigits] in Hs.
  apply andb_true_iff in Hs as [Hc Hr].
  destruct c as [[] [] [] [] [] [] [] []]; try (vm_compute in Hc; discriminate Hc);
    try reflexivity.
  destruct r as [|c r]; [reflexivity|]. cbn [allDigits] in Hr.
  apply andb_true_iff in Hr as [Hc' _].
  destruct c as [[] [] [] [] [] [] [] []]; try (vm_compute in Hc'; discriminate Hc');
    reflexivity.
Qed.

Lemma Qred_integer (x : Z) : Qred (inject_Z x * inject_Z 1) = inject_Z x.
Proof.
  transitivity (Qred (inject_Z x)).
  - apply Qred_complete. ring.
  - unfold Qred, inject_Z.
    pose proof (Z.ggcd_gcd x 1) as Hg. pose proof (Z.ggcd_correct_divisors x 1) as Hd.
    destruct (Z.ggcd x 1) as [g [a b]]. cbn [fst snd] in *.
    rewrite Z.gcd_1_r in Hg. subst g. destruct Hd as [Ha Hb].
    rewrite Z.mul_1_l in Ha, Hb. by subst a b.
Qed.

Lemma integerOf_positive (p : BinNums.positive) :
  JsNumber.integerOf (pretty (Zpos p)) = Some (Zpos p).
Proof.
  change (pretty (Zpos p)) with (pretty_N_go (Npos p) "").
  unfold JsNumber.integerOf.
  rewrite ofString_digits.
  - unfold JsNumber.unsignedDecimal.
    destruct (digits_pretty (Npos p) "" 0%Z 0%nat) as (k & E & Hk).
    rewrite E. cbn [JsNumber.digits]. specialize (Hk ltac:(lia)).
    destruct k as [|k]; [lia|]. cbn [Nat.add].
    rewrite Z.mul_0_l, Z.add_0_l. cbn [JsNumber.exponent].
    change (JsNumber.pow10 (- Z.of_nat 0)) with (inject_Z 1).
    rewrite Qred_integer. reflexivity.
  - by apply allDigits_pretty.
  - intros E. pose proof (pretty_N_go_ne_0 (Npos p) "" ltac:(done)) as Hne.
    destruct (digits_pretty (Npos p) "" 0%Z 0%nat) as (k & E' & Hk).
    rewrite E in E'. cbn in E'. specialize (Hk ltac:(lia)). injection E' as _ E'. lia.
Qed.

Lemma integerOf_pretty (n : Z) :
  (0 <= n)%Z -> JsNumber.integerOf (pretty n) = Some n.
Proof.
  intros Hn. destruct n as [|p|p]; [reflexivity|apply integerOf_positive|lia].
Qed.

End Counters.

(** ** The pages of a run *)

Section Pages.
Context `{Host}.

Lemma pageOf_data payload perPage : Forall normalized (Page.data (pageOf payload perPage)).
Proof.
  apply Forall_forall. intros item Hin. unfold pageOf in Hin. cbn [Page.data] in Hin.
  apply list_elem_of_omap in Hin as (row & _ & Hrow). by exists row.
Qed.

Lemma attempts_budget left attempt lastStatus page perPage w :
  (requests (attempts left attempt lastStatus page perPage w).2 <= requests w + left)%nat.
Proof.
  revert attempt lastStatus w. induction left as [|left IH]; intros attempt lastStatus w.
  - cbn [attempts]. destruct (lastStatus =? 429)%Z; cbn [snd]; lia.
  - cbn [attempts]. destruct (http (requests w) page perPage) as [dt [err|r]]; cbn zeta.
    + cbn [snd withEffect requests]. lia.
    + destruct (Response.ok r); [cbn [snd withEffect requests]; lia|].
      destruct (Response.status r =? 429)%Z;
        [etrans; [apply IH|]; cbn [sleep withEffect requests]; lia|].
      destruct (500 <=? Response.status r)%Z;
        [etrans; [apply IH|]; cbn [sleep withEffect requests]; lia|].
      cbn [snd withEffect requests]. lia.
Qed.

Lemma fetchExternalDomainsPage_budget page perPage w :
  let out := fetchExternalDomainsPage page perPage w in
  (requests out.2 <= requests w + S MAX_RETRIES)%nat
  /\ forall current, out.1 = inr current -> Forall normalized (Page.data current).
Proof.
  cbv zeta. unfold fetchExternalDomainsPage.
  assert (Hraw : (requests (fetchExternalDomainsRaw page perPage w).2
                  <= requests w + S MAX_RETRIES)%nat).
  { unfold fetchExternalDomainsRaw.
    destruct apiKey as [key|]; [destruct (truthy key)|];
      first [apply attempts_budget|cbn [snd]; lia]. }
  destruct (fetchExternalDomainsRaw page perPage w) as [[err|payload] w']; cbn [fst snd] in *.
  - split; [exact Hraw|]. intros current [=].
  - split; [exact Hraw|]. intros current [= <-]. apply pageOf_data.
Qed.

Lemma learnTotalPages_quiet totalPages total w :
  trace (learnTotalPages totalPages total w).2 = trace w
  /\ requests (learnTotalPages totalPages total w).2 = requests w.
Proof.
  unfold learnTotalPages. destruct total as [t|]; [destruct (totalPages =? 0)%Z|]; by split.
Qed.

Lemma upserts_snoc evs batch nowIso :
  upserts (evs ++ [Upsert batch nowIso]) = (upserts evs ++ [(batch, nowIso)])%list.
Proof. by rewrite upserts_app. Qed.

Lemma pageLoop_pages more mode cursor :
  forall page totalPages maxSeen w,
    let out := pageLoop more mode cursor page totalPages maxSeen w in
    exists evs,
      trace out.2 = (trace w ++ evs)%list
      /\ Forall (fun b => Forall normalized b.1) (upserts evs)
      /\ (length (upserts evs) <= S more)%nat
      /\ (requests out.2 <= requests w + S MAX_RETRIES * S more)%nat
      /\ forall ended, out.1 = inr ended -> completed ended = false ->
           length (upserts evs) = S more
           /\ getMeta "sync_cursor_page" out.2
              = Some (pretty (page + Z.of_nat (S more))%Z).
Proof.
  induction more as [|more IH]; intros page totalPages maxSeen w; cbv zeta; cbn [pageLoop];
    pose proof (fetchExternalDomainsPage_frame page PAGE_SIZE_SYNC w)
      as (_ & _ & _ & _ & _ & evs0 & Ht0 & Hu0);
    pose proof (fetchExternalDomainsPage_budget page PAGE_SIZE_SYNC w) as [Hr0 Hn0];
    destruct (fetchExternalDomainsPage page PAGE_SIZE_SYNC w) as [[err|current] w1];
    cbn [fst snd] in *.
  1, 3: exists evs0; rewrite Hu0; split; [exact Ht0|]; split; [constructor|];
        split; [simpl; lia|]; split; [lia|]; intros ended [=].
  all: specialize (Hn0 current eq_refl);
    pose proof (learnTotalPages_quiet totalPages (Page.total current)
                  (upsertBatch (Page.data current) (toISOString (now w1)) w1)) as [Htl Hrl];
    destruct (learnTotalPages totalPages (Page.total current)
                (upsertBatch (Page.data current) (toISOString (now w1)) w1)) as [tp w3];
    cbn [fst snd] in *;
    set (batch := Upsert (Page.data current) (toISOString (now w1)));
    assert (Htrace : trace (notePage page current w3) = (trace w ++ (evs0 ++ [batch]))%list)
      by (change (trace (notePage page current w3)) with (trace w3);
          rewrite Htl; cbn [upsertBatch withEffect withDomains trace]; by rewrite Ht0, <- (assoc_L (++)));
    assert (Hreq : (requests (notePage page current w3) <= requests w + S MAX_RETRIES)%nat)
      by (change (requests (notePage page current w3)) with (requests w3);
          rewrite Hrl; cbn [upsertBatch withEffect withDomains requests]; lia);
    assert (Hups : upserts (evs0 ++ [batch])
                   = [(Page.data current, toISOString (now w1))])
      by (unfold batch; by rewrite upserts_snoc, Hu0);
    assert (Hone : exists evs,
               trace (notePage page current w3) = (trace w ++ evs)%list
               /\ Forall (fun b => Forall normalized b.1) (upserts evs)
               /\ length (upserts evs) = 1%nat)
      by (exists (evs0 ++ [batch])%list; rewrite Hups; split; [exact Htrace|];
          split; [by repeat constructor|reflexivity]).
  - (* the last page of the budget *)
    assert (Hstop : forall maxSeen',
               exists evs,
                 trace (notePage page current w3) = (trace w ++ evs)%list
                 /\ Forall (fun b => Forall normalized b.1) (upserts evs)
                 /\ (length (upserts evs) <= 1)%nat
                 /\ (requests (notePage page current w3) <= requests w + S MAX_RETRIES * 1)%nat
                 /\ forall ended,
                      inr {| completed := true; maxSeenTs := maxSeen' |} = @inr string _ ended ->
                      completed ended = false ->
                      length (upserts evs) = 1%nat
                      /\ getMeta "sync_cursor_page" (notePage page current w3)
                         = Some (pretty (page + Z.of_nat 1)%Z)).
    { intros maxSeen'. destruct Hone as (evs & He & Hf & Hl). exists evs.
      split; [exact He|]. split; [exact Hf|]. split; [lia|]. split; [lia|].
      intros ended [= <-]. discriminate. }
    destruct (reachedEnd page tp current); [apply Hstop|].
    destruct mode, (hasNewerOnPage cursor (getMaxCreatedAtIso (Page.data current) ≫= dateParse));
      try apply Hstop.
    all: cbn [fst snd]; destruct Hone as (evs & He & Hf & Hl); exists evs;
      (split; [exact He|]); (split; [exact Hf|]); (split; [lia|]);
      (split; [cbn [setMeta withMeta requests] in *; lia|]);
      intros ended _ _; split; [exact Hl|apply getMeta_setMeta_eq].
  - (* one more page *)
    assert (Hstop : forall maxSeen',
               exists evs,
                 trace (notePage page current w3) = (trace w ++ evs)%list
                 /\ Forall (fun b => Forall normalized b.1) (upserts evs)
                 /\ (length (upserts evs) <= S (S more))%nat
                 /\ (requests (notePage page current w3)
                     <= requests w + S MAX_RETRIES * S (S more))%nat
                 /\ forall ended,
                      inr {| completed := true; maxSeenTs := maxSeen' |} = @inr string _ ended ->
                      completed ended = false ->
                      length (upserts evs) = S (S more)
                      /\ getMeta "sync_cursor_page" (notePage page current w3)
                         = Some (pretty (page + Z.of_nat (S (S more)))%Z)).
    { intros maxSeen'. destruct Hone as (evs & He & Hf & Hl). exists evs.
      split; [exact He|]. split; [exact Hf|]. split; [lia|]. split; [lia|].
      intros ended [= <-]. discriminate. }
    destruct (reachedEnd page tp current); [apply Hstop|].
    destruct mode, (hasNewerOnPage cursor (getMaxCreatedAtIso (Page.data current) ≫= dateParse));
      try apply Hstop.
    all: match goal with
         | |- context [pageLoop _ _ _ ?p ?t ?ms ?w'] =>
             destruct (IH p t ms w') as (evs & He & Hf & Hl & Hr & Hi);
             exists ((evs0 ++ [batch]) ++ Sleep 250 :: evs)%list
         end;
      (split; [rewrite He; cbn [sleep withEffect trace]; rewrite Htrace;
               by rewrite <- !(assoc_L (++))|]);
      (assert (Hall : upserts ((evs0 ++ [batch]) ++ Sleep 250 :: evs)
                      = ((Page.data current, toISOString (now w1)) :: upserts evs))
         by (rewrite upserts_app, Hups; reflexivity));
      rewrite Hall;
      (split; [constructor; [exact Hn0|exact Hf]|]);
      (split; [cbn [length]; lia|]);
      (split; [cbn [sleep withEffect requests] in Hr; lia|]);
      intros ended Hended Hc; destruct (Hi ended Hended Hc) as [Hlen Hcur];
      (split; [cbn [length]; lia|]);
      rewrite Hcur; do 2 f_equal; lia.
Qed.

End Pages.

(** ** What a call of the engine does to the table *)

Section Runs.
Context `{Host}.

Lemma readCursor_quiet mode w :
  let w' := (readCursor mode w).2 in
  trace w' = trace w /\ requests w' = requests w /\ domains w' = domains w
  /\ forall k, k <> "source_created_at_max" -> getMeta k w' = getMeta k w.
Proof.
  cbv zeta. destruct (readCursor_frame mode w) as [->|[v ->]]; [done|].
  repeat split. intros k Hk. by apply getMeta_setMeta_ne.
Qed.

Lemma finishRun_interrupted mode ended w :
  completed ended = false ->
  forall k, k <> "source_created_at_max" -> getMeta k (finishRun mode ended w) = getMeta k w.
Proof.
  intros Hc k Hk. unfold finishRun. rewrite Hc, getMeta_invalidate.
  destruct (0 <? maxSeenTs ended)%Z; [by apply getMeta_setMeta_ne|reflexivity].
Qed.

Lemma finishRun_requests mode ended w : requests (finishRun mode ended w) = requests w.
Proof.
  unfold finishRun.
  destruct (0 <? maxSeenTs ended)%Z, (completed ended), mode; reflexivity.
Qed.

Lemma recordFailure_requests message w : requests (recordFailure message w) = requests w.
Proof. unfold recordFailure. destruct (isRateLimitError message); reflexivity. Qed.

Lemma runSync_pages force w :
  let out := runSync force w in
  exists evs,
    trace out.2 = (trace w ++ evs)%list
    /\ normalizedBatches evs
    /\ (length (upserts evs) <= SYNC_MAX_PAGES_PER_RUN)%nat
    /\ (requests out.2 <= requests w + S MAX_RETRIES * SYNC_MAX_PAGES_PER_RUN)%nat
    /\ domains out.2 = replayUpserts (upserts evs) (domains w)
    /\ (out.1 = Interrupted ->
        length (upserts evs) = SYNC_MAX_PAGES_PER_RUN
        /\ getMeta "sync_cursor_page" out.2
           = Some (pretty (Z.max 1 (metaInteger "sync_cursor_page" "1" w)
                           + Z.of_nat SYNC_MAX_PAGES_PER_RUN)%Z)
        /\ getMeta "last_sync_at" out.2 = getMeta "last_sync_at" w).
Proof.
  cbv zeta. unfold runSync.
  set (w3 := setMeta "sync_mode" _ _).
  set (mode := runMode force _) in *.
  assert (Hcursor : metaInteger "sync_cursor_page" "1" w3 = metaInteger "sync_cursor_page" "1" w).
  { unfold metaInteger, w3. by rewrite !getMeta_setMeta_ne by done. }
  assert (Hlast3 : getMeta "last_sync_at" w3 = getMeta "last_sync_at" w).
  { unfold w3. by rewrite !getMeta_setMeta_ne by done. }
  rewrite Hcursor.
  destruct (readCursor_quiet mode w3) as (Ht4 & Hr4 & Hd4 & Hm4).
  destruct (readCursor mode w3) as [cursor w4]. cbn [snd] in *.
  set (page := Z.max 1 (metaInteger "sync_cursor_page" "1" w)).
  set (totalPages := default 0%Z _).
  destruct (pageLoop_pages (SYNC_MAX_PAGES_PER_RUN - 1) mode cursor page totalPages 0 w4)
    as (evs & Ht & Hn & Hl & Hr & Hi).
  destruct (pageLoop_frame (SYNC_MAX_PAGES_PER_RUN - 1) mode cursor page totalPages 0 w4)
    as (Hm & _ & _ & _ & evs' & Ht' & Hd).
  rewrite Ht in Ht'. apply app_inv_head in Ht'. subst evs'.
  change (S (SYNC_MAX_PAGES_PER_RUN - 1)) with SYNC_MAX_PAGES_PER_RUN in *.
  change (trace w3) with (trace w) in Ht4. change (requests w3) with (requests w) in Hr4.
  change (domains w3) with (domains w) in Hd4.
  destruct (pageLoop (SYNC_MAX_PAGES_PER_RUN - 1) mode cursor page totalPages 0 w4)
    as [[message|ended] w5]; cbn [fst snd] in *; exists evs.
  - destruct (recordFailure_frame message w5) as (_ & _ & Hfd & Hft & _).
    rewrite Hft, Hfd, recordFailure_requests, Ht, Ht4, Hd, Hd4.
    repeat split; try done. lia.
  - destruct (finishRun_frame mode ended w5) as (_ & _ & Hfd & Hft & _).
    rewrite Hft, Hfd, finishRun_requests, Ht, Ht4, Hd, Hd4.
    split; [done|]. split; [done|]. split; [done|]. split; [lia|]. split; [done|].
    destruct (completed ended) eqn:Hc; [discriminate|]. intros _.
    destruct (Hi ended eq_refl Hc) as [Hlen Hcur].
    split; [exact Hlen|].
    rewrite !(finishRun_interrupted mode ended w5 Hc) by done.
    split; [exact Hcur|].
    rewrite Hm by (unfold loopKeys; set_solver). by rewrite Hm4.
Qed.

Lemma startPage_prepared force w :
  Z.max 1 (metaInteger "sync_cursor_page" "1" (prepared force w)) = startPage force w.
Proof.
  unfold startPage, prepared, metaInteger. rewrite getMeta_running.
  destruct force; [|reflexivity].
  rewrite getMeta_setMeta_ne, getMeta_setMeta_eq by done. reflexivity.
Qed.

Lemma syncSoindaDomains_pages force bypassSchedule w :
  let out := syncSoindaDomains force bypassSchedule w in
  exists evs,
    trace out.2 = (trace w ++ evs)%list
    /\ normalizedBatches evs
    /\ (length (upserts evs) <= SYNC_MAX_PAGES_PER_RUN)%nat
    /\ (requests out.2 <= requests w + S MAX_RETRIES * SYNC_MAX_PAGES_PER_RUN)%nat
    /\ domains out.2 = replayUpserts (upserts evs) (domains w)
    /\ (out.1 = Interrupted ->
        length (upserts evs) = SYNC_MAX_PAGES_PER_RUN
        /\ getMeta "sync_cursor_page" out.2
           = Some (pretty (startPage force w + Z.of_nat SYNC_MAX_PAGES_PER_RUN)%Z)
        /\ getMeta "last_sync_at" out.2
           = getMeta "last_sync_at" w).
Proof.
  cbv zeta.
  destruct (syncSoindaDomains_runs force bypassSchedule w) as [E|[E|E]]; rewrite E;
    cbn [fst snd].
  1, 2: exists []; rewrite app_nil_r; split; [done|]; split; [apply Forall_nil|];
        split; [cbn; lia|]; split; [lia|]; split; [done|]; intros [=].
  destruct (runSync_pages force (prepared force w)) as (evs & Ht & Hn & Hl & Hr & Hd & Hi).
  destruct (prepared_frame force w) as (_ & Hpd & Hpt & _).
  exists evs. change (trace (withRunningSync false ?x)) with (trace x).
  change (requests (withRunningSync false ?x)) with (requests x).
  change (domains (withRunningSync false ?x)) with (domains x).
  rewrite Ht, Hpt, Hd, Hpd.
  split; [done|]. split; [done|]. split; [done|].
  split; [by destruct force|]. split; [done|].
  intros Hint. destruct (Hi Hint) as (Hlen & Hcur & Hlast).
  split; [exact Hlen|]. rewrite !getMeta_running, Hcur, Hlast, startPage_prepared.
  split; [reflexivity|].
  unfold prepared. rewrite getMeta_running. destruct force; [|reflexivity].
  by rewrite !getMeta_setMeta_ne by done.
Qed.

End Runs.

(** ** The table of the engine *)

Section Table.
Context `{Host}.

Lemma normalized_stored item nowIso :
  normalized item -> storedRow (domain item) (rowOf item nowIso).
Proof.
  intros [row Hrow]. destruct (normalizeDomain_fields row item Hrow) as (Hd & Ht).
  split; [reflexivity|]. split; [exact Hd|]. split; [exact Ht|].
  cbn [rowOf Db.available]. destruct (available item) as [[]|]; auto.
Qed.

Lemma upsertMany_wellStored batch nowIso (table : gmap string Db.row) :
  Forall normalized batch -> wellStored table -> wellStored (upsertMany batch nowIso table).
Proof.
  unfold upsertMany. revert table.
  induction batch as [|item batch IH]; intros table Hb Ht; [exact Ht|].
  inversion Hb as [|? ? Hitem Hrest]; subst. cbn [foldl]. apply IH; [exact Hrest|].
  unfold upsertRow. rewrite rowOf_domain.
  apply map_Forall_insert_2; [by apply normalized_stored|exact Ht].
Qed.

Lemma replayUpserts_wellStored batches (table : gmap string Db.row) :
  Forall (fun b : list MarketplaceDomain * string => Forall normalized b.1) batches ->
  wellStored table -> wellStored (replayUpserts batches table).
Proof.
  unfold replayUpserts. revert table.
  induction batches as [|b batches IH]; intros table Hb Ht; [exact Ht|].
  inversion Hb as [|? ? Hfirst Hrest]; subst. cbn [foldl]. apply IH; [exact Hrest|].
  by apply upsertMany_wellStored.
Qed.

Lemma querySoindaAnalytics_domains options w :
  domains (querySoindaAnalytics options w).2 = domains w.
Proof.
  unfold querySoindaAnalytics.
  destruct (analyticsCache w !! cacheKeyOf options) as [cached|]; [|reflexivity].
  destruct (fresh w cached); reflexivity.
Qed.

(** X5. Whatever calls of the engine ([syncSoindaDomains] with any flags
    and any outcome, [resetSoindaCatalog], [querySoindaAnalytics]) are made
    from an empty table on, every row of the table is stored under its own
    domain, which holds a dot, is in lower case and has no white space at
    its ends; its tld is the text after the last dot of the domain and its
    availability is null, 0 or 1. *)
Theorem reachable_wellStored (w : world) (Hreach : reachable w) : wellStored (domains w).
Proof.
  induction Hreach as [w Hw|force bypassSchedule w _ IH|w _ _|options w _ IH].
  - rewrite Hw. apply map_Forall_empty.
  - destruct (syncSoindaDomains_pages force bypassSchedule w)
      as (evs & _ & Hn & _ & _ & Hd & _).
    rewrite Hd. by apply replayUpserts_wellStored.
  - apply map_Forall_empty.
  - by rewrite querySoindaAnalytics_domains.
Qed.

(** X6. One call of [syncSoindaDomains], whatever its flags and its
    outcome, sends at most 9 x 80 = 720 requests and writes at most 80
    batches; it removes no row, so the table never shrinks. *)
Theorem sync_budget (force bypassSchedule : bool) (w : world) :
  let out := syncSoindaDomains force bypassSchedule w in
  (requests out.2 <= requests w + 720)%nat
  /\ (exists evs, trace out.2 = (trace w ++ evs)%list /\ (length (upserts evs) <= 80)%nat)
  /\ (forall k, is_Some (domains w !! k) -> is_Some (domains out.2 !! k))
  /\ (size (domains w) <= size (domains out.2))%nat.
Proof.
  cbv zeta.
  destruct (syncSoindaDomains_pages force bypassSchedule w)
    as (evs & Ht & _ & Hl & Hr & Hd & _).
  assert (Hkeeps : forall k, is_Some (domains w !! k)
                             -> is_Some ((syncSoindaDomains force bypassSchedule w).2.(domains) !! k)).
  { intros k Hk. rewrite Hd. by apply replayUpserts_keeps. }
  split; [exact Hr|]. split; [by exists evs|]. split; [exact Hkeeps|].
  rewrite <- !size_dom. apply subseteq_size. intros k Hk.
  apply elem_of_dom. apply Hkeeps. by apply elem_of_dom.
Qed.

End Table.

Lemma reachable_wellStored_witness :
  wellStored (domains (@syncSoindaDomains Demo.healthy true true Demo.start).2).
Proof.
  apply (@reachable_wellStored Demo.healthy).
  apply reachable_sync. apply reachable_empty. reflexivity.
Defined.

(** ** A run that stops at the page budget *)

Section Resume.
Context `{Host}.

Lemma startPage_pos force w : (1 <= startPage force w)%Z.
Proof. unfold startPage. destruct force; lia. Qed.

Lemma pretty_truthy (n : Z) : (0 < n)%Z -> truthy (pretty n) = true.
Proof.
  intros Hn. pose proof (integerOf_pretty n ltac:(lia)) as E.
  destruct (pretty n); [|reflexivity]. vm_compute in E. injection E as E. lia.
Qed.

Lemma metaInteger_written key fallback (n : Z) (w : world) :
  (0 < n)%Z -> getMeta key w = Some (pretty n) -> metaInteger key fallback w = n.
Proof.
  intros Hn Hk. unfold metaInteger, orElse. rewrite Hk, (pretty_truthy n Hn).
  by rewrite integerOf_pretty by lia.
Qed.

(** X7. A run that leaves the loop at the page budget (neither completed
    nor failed) has written exactly 80 batches and persists as cursor the
    page after the last one it fetched, 80 pages after the page the run
    started at; the status reports that page, the next run that is not
    forced starts there, and [last_sync_at] is as the call found it. *)
Theorem interrupted_run_resumes (force bypassSchedule : bool) (w : world)
    (Hinterrupted : (syncSoindaDomains force bypassSchedule w).1 = Interrupted) :
  let w' := (syncSoindaDomains force bypassSchedule w).2 in
  getMeta "sync_cursor_page" w' = Some (pretty (startPage force w + 80)%Z)
  /\ Status.cursorPage (getSoindaSyncStatus w') = (startPage force w + 80)%Z
  /\ startPage false w' = (startPage force w + 80)%Z
  /\ getMeta "last_sync_at" w' = getMeta "last_sync_at" w
  /\ exists evs, trace w' = (trace w ++ evs)%list /\ length (upserts evs) = 80%nat.
Proof.
  cbv zeta.
  destruct (syncSoindaDomains_pages force bypassSchedule w)
    as (evs & Ht & _ & _ & _ & _ & Hi).
  destruct (Hi Hinterrupted) as (Hlen & Hcur & Hlast).
  change (Z.of_nat SYNC_MAX_PAGES_PER_RUN) with 80%Z in Hcur.
  pose proof (startPage_pos force w) as Hpos.
  assert (Hread : metaInteger "sync_cursor_page" "1" (syncSoindaDomains force bypassSchedule w).2
                  = (startPage force w + 80)%Z)
    by (apply metaInteger_written; [lia|exact Hcur]).
  split; [exact Hcur|].
  split; [unfold getSoindaSyncStatus; cbn [Status.cursorPage]; rewrite Hread; lia|].
  split; [unfold startPage at 1; rewrite Hread; lia|].
  split; [exact Hlast|]. by exists evs.
Qed.

End Resume.

Lemma interrupted_run_resumes_witness :
  let w' := (@syncSoindaDomains endless false true Demo.start).2 in
  @getMeta endless "sync_cursor_page" w'
  = Some (pretty (@startPage endless false Demo.start + 80)%Z)
  /\ Status.cursorPage (@getSoindaSyncStatus endless w')
     = (@startPage endless false Demo.start + 80)%Z
  /\ @startPage endless false w' = (@startPage endless false Demo.start + 80)%Z
  /\ @getMeta endless "last_sync_at" w' = @getMeta endless "last_sync_at" Demo.start
  /\ exists evs, trace w' = (trace (@Demo.start endless) ++ evs)%list
                 /\ length (upserts evs) = 80%nat.
Proof.
  apply (@interrupted_run_resumes endless false true Demo.start).
  vm_compute. reflexivity.
Defined.

(** ** The schedule guard *)

Section Schedule.
Context `{Host}.

Lemma getMeta_same k (w1 w2 : world) : meta w1 = meta w2 -> getMeta k w1 = getMeta k w2.
Proof. unfold getMeta. by intros ->. Qed.

Lemma runSync_result force w :
  (runSync force w).1 <> AlreadyRunning /\ (runSync force w).1 <> NotDue.
Proof.
  destruct (runSync_ends force w) as (wl & _ & [[ended ->]|[message ->]]); cbn [fst].
  - by destruct (completed ended).
  - done.
Qed.

Lemma sync_guard_open force bypassSchedule w :
  runningSync w = false ->
  force || bypassSchedule || (isSyncDue w && canSyncNow w) = true ->
  syncSoindaDomains force bypassSchedule w
  = ((runSync force (prepared force w)).1,
     withRunningSync false (runSync force (prepared force w)).2).
Proof.
  intros Hidle Hopen. unfold syncSoindaDomains, prepared. rewrite Hidle.
  destruct force, bypassSchedule, (isSyncDue w), (canSyncNow w);
    try discriminate Hopen; cbn [negb andb orb];
    match goal with |- context [runSync ?f ?x] => by destruct (runSync f x) end.
Qed.

Lemma sync_guard_closed w :
  runningSync w = false -> isSyncDue w && canSyncNow w = false ->
  syncSoindaDomains false false w = (NotDue, w).
Proof.
  intros Hidle Hclosed. unfold syncSoindaDomains. rewrite Hidle.
  by destruct (isSyncDue w), (canSyncNow w).
Qed.

Lemma completed_meta force bypassSchedule w :
  (syncSoindaDomains force bypassSchedule w).1 = Completed ->
  let w' := (syncSoindaDomains force bypassSchedule w).2 in
  getMeta "last_sync_at" w' = Some (toISOString (now w'))
  /\ getMeta "next_sync_not_before" w' = None.
Proof.
  intros Hcompleted. cbv zeta.
  destruct (syncSoindaDomains_runs force bypassSchedule w) as [E|[E|E]];
    rewrite E in *; try discriminate Hcompleted.
  cbn [fst snd] in *.
  destruct (runSync_ends force (prepared force w)) as (wl & Hl & [[ended Hr]|[message Hr]]);
    rewrite Hr in *; cbn [fst snd] in *; [|discriminate Hcompleted].
  destruct (completed ended) eqn:Hc; [clear Hcompleted|discriminate Hcompleted].
  destruct (finishRun_completed (runMode force (prepared force w)) ended wl Hc)
    as (Hat & Hnext & _).
  destruct (finishRun_frame (runMode force (prepared force w)) ended wl)
    as (_ & _ & _ & _ & Hnow & _).
  change (now (withRunningSync false ?x)) with (now x).
  rewrite !getMeta_running, Hnow. by split.
Qed.

Lemma rate_limited_meta force bypassSchedule w message :
  (syncSoindaDomains force bypassSchedule w).1 = Failed message ->
  isRateLimitError message = true ->
  let w' := (syncSoindaDomains force bypassSchedule w).2 in
  getMeta "next_sync_not_before" w' = Some (toISOString (now w' + TWO_HOURS_MS)%Z).
Proof.
  intros Hfailed Hrate. cbv zeta.
  destruct (syncSoindaDomains_runs force bypassSchedule w) as [E|[E|E]];
    rewrite E in *; try discriminate Hfailed.
  cbn [fst snd] in *.
  destruct (runSync_ends force (prepared force w)) as (wl & Hl & [[ended Hr]|[msg Hr]]);
    rewrite Hr in *; cbn [fst snd] in *.
  { destruct (completed ended); discriminate Hfailed. }
  injection Hfailed as ->.
  destruct (recordFailure_meta message wl) as ([Hnext _] & _); [exact Hrate|].
  destruct (recordFailure_frame message wl) as (_ & _ & _ & _ & Hnow & _).
  change (now (withRunningSync false ?x)) with (now x).
  by rewrite getMeta_running, Hnow.
Qed.

(** X8. After a call whose run ended Completed, on a clock that reads
    back the time stamp it wrote: as long as less than two hours have
    passed, a call that is neither forced nor bypassing the schedule
    returns at the guard and changes nothing; once two hours have passed
    such a call runs again. *)
Theorem completed_run_schedule (force bypassSchedule : bool) (w later : world)
    (Hcompleted : (syncSoindaDomains force bypassSchedule w).1 = Completed)
    (Hclock : let t := now (syncSoindaDomains force bypassSchedule w).2 in
              toISOString t <> EmptyString /\ dateParse (toISOString t) = Some t)
    (Hmeta : meta later = meta (syncSoindaDomains force bypassSchedule w).2)
    (Hidle : runningSync later = false) :
  let finished := now (syncSoindaDomains force bypassSchedule w).2 in
  ((now later < finished + TWO_HOURS_MS)%Z ->
   syncSoindaDomains false false later = (NotDue, later))
  /\ ((finished + TWO_HOURS_MS <= now later)%Z ->
      (syncSoindaDomains false false later).1 <> NotDue
      /\ (syncSoindaDomains false false later).1 <> AlreadyRunning).
Proof.
  cbv zeta in *. destruct Hclock as [Htext Hparse].
  destruct (completed_meta force bypassSchedule w Hcompleted) as [Hat Hnext].
  set (w' := (syncSoindaDomains force bypassSchedule w).2) in *.
  rewrite <- (getMeta_same "last_sync_at" later w' Hmeta) in Hat.
  rewrite <- (getMeta_same "next_sync_not_before" later w' Hmeta) in Hnext.
  assert (Hdue : isSyncDue later = (TWO_HOURS_MS <=? now later - now w')%Z).
  { unfold isSyncDue. rewrite Hat, Hparse.
    destruct (toISOString (now w')); [done|reflexivity]. }
  assert (Hcan : canSyncNow later = true).
  { unfold canSyncNow, getNextSyncNotBeforeTs. by rewrite Hnext. }
  split.
  - intros Hsoon. apply sync_guard_closed; [exact Hidle|].
    rewrite Hdue, Hcan, andb_true_r. apply Z.leb_gt. lia.
  - intros Hlate. rewrite sync_guard_open; [cbn [fst]; split; apply runSync_result|exact Hidle|].
    rewrite Hdue, Hcan. cbn [orb andb]. rewrite andb_true_r. apply Z.leb_le. lia.
Qed.

(** X9. After a call whose run failed with a rate-limit error, on a clock
    that reads back the time stamp it wrote: as long as less than two hours
    have passed since the failure, a call that is neither forced nor
    bypassing the schedule returns at the guard and changes nothing, while
    a forced call or one that bypasses the schedule runs all the same. *)
Theorem rate_limited_run_cooldown (force bypassSchedule : bool) (w later : world)
    (message : string)
    (Hfailed : (syncSoindaDomains force bypassSchedule w).1 = Failed message)
    (Hrate : isRateLimitError message = true)
    (Hclock : let t := (now (syncSoindaDomains force bypassSchedule w).2 + TWO_HOURS_MS)%Z in
              toISOString t <> EmptyString /\ dateParse (toISOString t) = Some t /\ t <> 0%Z)
    (Hmeta : meta later = meta (syncSoindaDomains force bypassSchedule w).2)
    (Hidle : runningSync later = false)
    (Hsoon : (now later < now (syncSoindaDomains force bypassSchedule w).2 + TWO_HOURS_MS)%Z) :
  syncSoindaDomains false false later = (NotDue, later)
  /\ (forall force' bypass', force' || bypass' = true ->
        (syncSoindaDomains force' bypass' later).1 <> NotDue
        /\ (syncSoindaDomains force' bypass' later).1 <> AlreadyRunning).
Proof.
  cbv zeta in *. destruct Hclock as (Htext & Hparse & Hnz).
  pose proof (rate_limited_meta force bypassSchedule w message Hfailed Hrate) as Hnext.
  cbv zeta in Hnext.
  set (w' := (syncSoindaDomains force bypassSchedule w).2) in *.
  rewrite <- (getMeta_same _ later w' Hmeta) in Hnext.
  split.
  - apply sync_guard_closed; [exact Hidle|].
    assert (Hcan : canSyncNow later = false).
    { unfold canSyncNow, getNextSyncNotBeforeTs. rewrite Hnext, Hparse.
      destruct (toISOString (now w' + TWO_HOURS_MS)%Z); [done|]. cbn [truthy].
      destruct (Z.eqb_spec (now w' + TWO_HOURS_MS) 0) as [E|_]; [done|].
      apply Z.leb_gt. lia. }
    by rewrite Hcan, andb_false_r.
  - intros force' bypass' Hopen. rewrite sync_guard_open; [cbn [fst]; split; apply runSync_result|exact Hidle|].
    by rewrite Hopen.
Qed.

End Schedule.

Lemma completed_run_schedule_witness :
  let w' := (@syncSoindaDomains Demo.healthy false false Demo.start).2 in
  ((now w' < now w' + TWO_HOURS_MS)%Z ->
   @syncSoindaDomains Demo.healthy false false w' = (NotDue, w'))
  /\ ((now w' + TWO_HOURS_MS <= now w')%Z ->
      (@syncSoindaDomains Demo.healthy false false w').1 <> NotDue
      /\ (@syncSoindaDomains Demo.healthy false false w').1 <> AlreadyRunning).
Proof.
  apply (@completed_run_schedule Demo.healthy false false Demo.start
           (@syncSoindaDomains Demo.healthy false false Demo.start).2).
  - vm_compute. reflexivity.
  - cbv zeta. split; [vm_compute; discriminate|vm_compute; reflexivity].
  - reflexivity.
  - vm_compute. reflexivity.
Defined.

Lemma rate_limited_run_cooldown_witness :
  let w' := (@syncSoindaDomains Demo.throttled false false Demo.start).2 in
  @syncSoindaDomains Demo.throttled false false w' = (NotDue, w')
  /\ (forall force' bypass', force' || bypass' = true ->
        (@syncSoindaDomains Demo.throttled force' bypass' w').1 <> NotDue
        /\ (@syncSoindaDomains Demo.throttled force' bypass' w').1 <> AlreadyRunning).
Proof.
  apply (@rate_limited_run_cooldown Demo.throttled false false Demo.start
           (@syncSoindaDomains Demo.throttled false false Demo.start).2 rateLimitMessage).
  - vm_compute. reflexivity.
  - vm_compute. reflexivity.
  - cbv zeta. split; [vm_compute; discriminate|].
    split; [vm_compute; reflexivity|vm_compute; discriminate].
  - reflexivity.
  - vm_compute. reflexivity.
  - vm_compute. reflexivity.
Defined.

(** ** Reset, then sync *)

Section Reset.
Context `{Host}.

Lemma upsertMany_origin batch nowIso (table : gmap string Db.row) k r :
  upsertMany batch nowIso table !! k = Some r ->
  (exists item, item ∈ batch /\ domain item = k /\ r = rowOf item nowIso)
  \/ table !! k = Some r.
Proof.
  unfold upsertMany. revert table.
  induction batch as [|item batch IH]; intros table Hk; [by right|].
  cbn [foldl] in Hk. destruct (IH _ Hk) as [(item' & Hin & Hd & Hr)|Hprev].
  - left. exists item'. split; [by right|done].
  - unfold upsertRow in Hprev. rewrite rowOf_domain in Hprev.
    apply lookup_insert_Some in Hprev as [[Hd Hr]|[_ Ht]]; [|by right].
    left. exists item. split; [left|done].
Qed.

Lemma replayUpserts_origin batches (table : gmap string Db.row) k r :
  replayUpserts batches table !! k = Some r ->
  writtenBy batches k r \/ table !! k = Some r.
Proof.
  unfold replayUpserts. revert table.
  induction batches as [|b batches IH]; intros table Hk; [by right|].
  cbn [foldl] in Hk. destruct (IH _ Hk) as [(b' & item & Hb & Hin & Hd & Hr)|Hprev].
  - left. exists b', item. split; [by right|done].
  - destruct (upsertMany_origin _ _ _ _ _ Hprev) as [(item & Hin & Hd & Hr)|Ht]; [|by right].
    left. exists b, item. split; [left|done].
Qed.

(** X10. The handler of POST /api/domains/sync never returns at the
    schedule guard.  With [reset] and no run in flight it runs from page 1
    on an empty table, so that afterwards every row of the table was
    written by a batch of this very run, and the version of the analytics
    cache has grown. *)
Theorem postSync_reset (force : bool) (w : world) (Hidle : runningSync w = false) :
  let out := postSync true force w in
  out.1 <> NotDue /\ out.1 <> AlreadyRunning
  /\ (forall reset, (postSync reset force w).1 <> NotDue)
  /\ startPage force (resetSoindaCatalog w) = 1%Z
  /\ runMode force (resetSoindaCatalog w) = Full
  /\ (analyticsVersion w < analyticsVersion out.2)%Z
  /\ exists evs,
       trace out.2 = (trace w ++ evs)%list
       /\ forall k r, domains out.2 !! k = Some r -> writtenBy (upserts evs) k r.
Proof.
  cbv zeta. unfold postSync.
  assert (Hopen : forall w0, runningSync w0 = false ->
            (syncSoindaDomains force true w0).1 <> NotDue
            /\ (syncSoindaDomains force true w0).1 <> AlreadyRunning).
  { intros w0 H0. rewrite sync_guard_open; [cbn [fst]; split; apply runSync_result|exact H0|].
    by destruct force. }
  destruct (Hopen (resetSoindaCatalog w) Hidle) as [Hnd Har].
  split; [exact Hnd|]. split; [exact Har|].
  split; [intros [|]; [exact Hnd|by destruct (Hopen w Hidle)]|].
  split; [by destruct force|]. split; [by destruct force|].
  split.
  - pose proof (syncSoindaDomains_version force true (resetSoindaCatalog w)) as Hv.
    cbv zeta in Hv. change (analyticsVersion (resetSoindaCatalog w))
      with (analyticsVersion w + 1)%Z in Hv.
    destruct (syncSoindaDomains force true (resetSoindaCatalog w)).1;
      destruct Hv as [-> _]; lia.
  - destruct (syncSoindaDomains_pages force true (resetSoindaCatalog w))
      as (evs & Ht & _ & _ & _ & Hd & _).
    exists evs. split; [exact Ht|]. intros k r Hk. rewrite Hd in Hk.
    destruct (replayUpserts_origin _ _ _ _ Hk) as [Hw|Hempty]; [exact Hw|].
    change (domains (resetSoindaCatalog w)) with (∅ : gmap string Db.row) in Hempty.
    by rewrite lookup_empty in Hempty.
Qed.

End Reset.

Lemma postSync_reset_witness :
  let out := @postSync Demo.healthy true false Demo.start in
  out.1 <> NotDue /\ out.1 <> AlreadyRunning
  /\ (forall reset, (@postSync Demo.healthy reset false Demo.start).1 <> NotDue)
  /\ @startPage Demo.healthy false (resetSoindaCatalog Demo.start) = 1%Z
  /\ @runMode Demo.healthy false (resetSoindaCatalog Demo.start) = Full
  /\ (analyticsVersion (@Demo.start Demo.healthy) < analyticsVersion out.2)%Z
  /\ exists evs,
       trace out.2 = (trace (@Demo.start Demo.healthy) ++ evs)%list
       /\ forall k r, domains out.2 !! k = Some r -> writtenBy (upserts evs) k r.
Proof.
  apply (@postSync_reset Demo.healthy false Demo.start). reflexivity.
Defined.

(** ** The key of the analytics cache *)

Section CacheKey.
Context `{Host}.

Lemma truthy_lower s : truthy (toLowerCase s) = truthy s.
Proof. by destruct s. Qed.

Lemma orElse_default v : orElse v "" = default "" v.
Proof. destruct v as [[|c s]|]; reflexivity. Qed.

Lemma insertSorted_perm {A} (cmp : A -> A -> Z) x l : insertSorted cmp x l ≡ₚ x :: l.
Proof.
  induction l as [|y l IH]; cbn [insertSorted]; [reflexivity|].
  destruct (cmp x y <=? 0)%Z; [reflexivity|]. rewrite IH. apply Permutation_swap.
Qed.

Lemma sortBy_perm {A} (cmp : A -> A -> Z) l : sortBy cmp l ≡ₚ l.
Proof.
  induction l as [|x l IH]; [reflexivity|].
  change (sortBy cmp (x :: l)) with (insertSorted cmp x (sortBy cmp l)).
  by rewrite insertSorted_perm, IH.
Qed.

Lemma forallb_same_elements {A} (p : A -> bool) (l1 l2 : list A) :
  (forall x, x ∈ l1 <-> x ∈ l2) -> forallb p l1 = forallb p l2.
Proof.
  intros Hsame. apply eq_true_iff_eq. rewrite !forallb_forall.
  split; intros Hall x Hin; apply Hall; apply list_elem_of_In; apply Hsame;
    by apply list_elem_of_In.
Qed.

Lemma columnCondition_trimmed entry :
  columnCondition (entry.1, trim entry.2) = columnCondition entry.
Proof. unfold columnCondition, needleOf. cbn [fst snd]. by rewrite trim_idem. Qed.

Lemma columnCondition_blank entry :
  truthy (trim entry.2) = false -> columnCondition entry = [].
Proof. intros Hb. unfold columnCondition, needleOf. by rewrite truthy_lower, Hb. Qed.

Lemma forallb_columns (p : condition -> bool) (columns : list (string * string)) :
  forallb (fun entry => forallb p (columnCondition entry)) columns
  = forallb (fun entry => forallb p (columnCondition entry))
      (filter (fun kv => truthy kv.2 = true) (map (fun kv => (kv.1, trim kv.2)) columns)).
Proof.
  induction columns as [|entry columns IH]; [reflexivity|].
  cbn [map forallb]. rewrite filter_cons. cbn [snd].
  destruct (decide (truthy (trim entry.2) = true)) as [Ht|Ht].
  - cbn [forallb]. by rewrite columnCondition_trimmed, IH.
  - apply not_true_is_false in Ht. by rewrite (columnCondition_blank entry Ht), IH.
Qed.

Lemma same_key_same_clause (o1 o2 : filterOptions) (r : Db.row) :
  cacheKeyOf o1 = cacheKeyOf o2 ->
  forallb (holds r) (buildFilterWhere o1) = forallb (holds r) (buildFilterWhere o2).
Proof.
  unfold cacheKeyOf. rewrite !orElse_default. intros [= Hq Htld Havail Hcols].
  unfold buildFilterWhere. rewrite Hq, Htld, Havail, !forallb_app, !forallb_flat_map.
  do 3 f_equal. rewrite (forallb_columns _ (opt_columnFilters o1)),
    (forallb_columns _ (opt_columnFilters o2)).
  apply forallb_same_elements. intros x.
  rewrite <- (sortBy_perm (fun a b => localeCompare a.1 b.1)
                (filter _ (map _ (opt_columnFilters o1)))), Hcols.
  by rewrite sortBy_perm.
Qed.

(** X11. Two filters with the same key of the analytics cache select the
    same rows of any table, so that the snapshot cached for one is the
    snapshot of the other: whatever the order of the column filters, the
    white space around their values, and whether an empty text or nothing
    is given for [q] and [tld]. *)
Theorem cache_key_sound (o1 o2 : filterOptions) (table : gmap string Db.row)
    (Hkey : cacheKeyOf o1 = cacheKeyOf o2) :
  selectWhere (buildFilterWhere o1) table = selectWhere (buildFilterWhere o2) table
  /\ computeAnalytics o1 table = computeAnalytics o2 table.
Proof.
  assert (Hrows : selectWhere (buildFilterWhere o1) table
                  = selectWhere (buildFilterWhere o2) table).
  { unfold selectWhere. apply filter_agree. intros r. by apply same_key_same_clause. }
  split; [exact Hrows|]. unfold computeAnalytics. by rewrite Hrows.
Qed.

End CacheKey.

Lemma cache_key_sound_witness :
  @selectWhere Demo.healthy (buildFilterWhere spacedFilter) wildcardTable
  = @selectWhere Demo.healthy (buildFilterWhere tidyFilter) wildcardTable
  /\ @computeAnalytics Demo.healthy spacedFilter wildcardTable
     = @computeAnalytics Demo.healthy tidyFilter wildcardTable.
Proof.
  apply (@cache_key_sound Demo.healthy spacedFilter tidyFilter wildcardTable).
  vm_compute. reflexivity.
Defined.

(** ** Pages of a query *)

Section Pagination.
Context `{Host}.




End Pagination.


(** ** The figures of an analytics snapshot *)

Section Figures.
Context `{Host}.

Lemma length_remove_dups {A} `{EqDecision A} (l : list A) :
  (length (remove_dups l) <= length l)%nat.
Proof.
  induction l as [|x l IH]; [reflexivity|]. cbn [remove_dups length].
  destruct (decide_rel elem_of x l); cbn [length]; lia.
Qed.

Lemma remove_dups_nil {A} `{EqDecision A} (l : list A) : remove_dups l = [] -> l = [].
Proof.
  destruct l as [|x l]; [reflexivity|]. intros E.
  assert (Hx : x ∈ remove_dups (x :: l)) by (apply elem_of_remove_dups; left).
  rewrite E in Hx. by apply elem_of_nil in Hx.
Qed.

Lemma length_omap {A B} (f : A -> option B) (l : list A) :
  (length (omap f l) <= length l)%nat.
Proof.
  induction l as [|x l IH]; [reflexivity|]. cbn [omap list_omap length].
  destruct (f x); cbn [length]; lia.
Qed.

Lemma omap_nil {A B} (f : A -> option B) (l : list A) :
  omap f l = [] <-> Forall (fun x => f x = None) l.
Proof.
  induction l as [|x l IH]; [split; [constructor|reflexivity]|].
  cbn [omap list_omap]. destruct (f x) eqn:E.
  - split; [discriminate|]. intros Hall. inversion Hall; congruence.
  - rewrite IH. split; [by constructor|]. intros Hall. by inversion Hall.
Qed.

(** X13. In every analytics snapshot the number of available rows and
    the number of distinct tlds are at most the total, which is at most
    the size of the table; there is a tld as soon as a row is selected; the
    average price is null exactly when no selected row has a price; and
    the total is the total [querySoindaDomains] reports for the same
    filters, whatever the page and the order asked for. *)
Theorem analytics_figures (options : filterOptions) (table : gmap string Db.row) :
  let snapshot := computeAnalytics options table in
  let rows := selectWhere (buildFilterWhere options) table in
  (Analytics.available snapshot <= Analytics.total snapshot)%nat
  /\ (Analytics.uniqueTlds snapshot <= Analytics.total snapshot)%nat
  /\ (Analytics.total snapshot <= size table)%nat
  /\ ((0 < Analytics.total snapshot)%nat -> (0 < Analytics.uniqueTlds snapshot)%nat)
  /\ (Analytics.avgPrice snapshot = None <-> Forall (fun r => Db.price r = None) rows)
  /\ forall query, filters query = options ->
       Query.total (querySoindaDomains query table) = Analytics.total snapshot.
Proof.
  cbv zeta. unfold computeAnalytics.
  cbn [Analytics.available Analytics.total Analytics.uniqueTlds Analytics.avgPrice].
  set (rows := selectWhere (buildFilterWhere options) table).
  split; [apply length_filter|].
  split; [etrans; [apply length_remove_dups|]; by rewrite length_map|].
  split.
  { unfold rows, selectWhere. etrans; [apply length_filter|].
    by rewrite length_fmap, length_map_to_list. }
  split.
  { intros Hpos. destruct (remove_dups (map Db.tld rows)) as [|t ts] eqn:E; [|cbn; lia].
    apply remove_dups_nil in E. destruct rows; [cbn in Hpos; lia|discriminate E]. }
  split.
  { unfold averagePrice. rewrite <- omap_nil.
    destruct (omap Db.price rows); split; done. }
  intros query <-. unfold querySoindaDomains.
  by destruct (orderByOf query).
Qed.

End Figures.

(** ** The field names reported with a page and with a query *)

Section FieldNames.
Context `{Host}.

Lemma sortedFieldNames_NoDup names : NoDup (sortedFieldNames names).
Proof. unfold sortedFieldNames. rewrite sortBy_perm. apply NoDup_remove_dups. Qed.

Lemma sortedFieldNames_elements names f : f ∈ sortedFieldNames names <-> f ∈ names.
Proof. unfold sortedFieldNames. by rewrite sortBy_perm, elem_of_remove_dups. Qed.

Lemma elem_of_flat_map {A B} (f : A -> list B) (l : list A) (y : B) :
  y ∈ flat_map f l <-> exists x, x ∈ l /\ y ∈ f x.
Proof.
  rewrite list_elem_of_In, in_flat_map. split; intros (x & Hx & Hy); exists x;
    by rewrite ?list_elem_of_In in *.
Qed.

(** X14. The page [fetchExternalDomainsPage] makes of a payload holds
    at most as many records as the payload has rows, each made by
    [normalizeDomain]; its field names are without duplicates and are
    exactly the names of the raw objects of its records.  The field names a
    query reports are without duplicates and are exactly the names of the
    raw objects of all the rows of the table, whatever the filters, the
    page and the order of the query. *)
Theorem field_names (payload : json) (perPage : Z) (query : queryOptions)
    (table : gmap string Db.row) :
  let current := pageOf payload perPage in
  let result := querySoindaDomains query table in
  Page.sourceCount current = length (extractRows payload)
  /\ (length (Page.data current) <= Page.sourceCount current)%nat
  /\ Forall normalized (Page.data current)
  /\ NoDup (Page.fields current)
  /\ (forall f, f ∈ Page.fields current
                <-> exists item, item ∈ Page.data current /\ f ∈ keys (raw item))
  /\ NoDup (Query.fields result)
  /\ (forall f, f ∈ Query.fields result
                <-> exists k r, table !! k = Some r
                                /\ f ∈ keys (parseJsonObject (Db.raw_json r))).
Proof.
  cbv zeta. split; [reflexivity|]. split; [apply length_omap|].
  split; [apply pageOf_data|]. split; [apply sortedFieldNames_NoDup|].
  split; [intros f; unfold pageOf; cbn [Page.fields Page.data];
          by rewrite sortedFieldNames_elements, elem_of_flat_map|].
  assert (Hfields : Query.fields (querySoindaDomains query table) = collectAllFields table)
    by (unfold querySoindaDomains; by destruct (orderByOf query)).
  rewrite Hfields. split; [apply sortedFieldNames_NoDup|].
  intros f. unfold collectAllFields. rewrite sortedFieldNames_elements, elem_of_flat_map.
  split.
  - intros (r & Hr & Hf). apply list_elem_of_fmap in Hr as ([k r'] & -> & Hkr).
    apply elem_of_map_to_list in Hkr. by exists k, r'.
  - intros (k & r & Hkr & Hf). exists r. split; [|exact Hf].
    apply list_elem_of_fmap. exists (k, r). split; [reflexivity|].
    by apply elem_of_map_to_list.
Qed.

End FieldNames.

(** ** The newest time stamp of a page *)

Section Newest.
Context `{Host}.

Lemma newest_fold (batch : list MarketplaceDomain) :
  forall start : Z, (0 <= start)%Z ->
    let newest :=
      fold_left
        (fun maxTs item =>
           match getCreatedAtFromDomain item with
           | Some ts => if negb (ts =? 0)%Z && (maxTs <? ts)%Z then ts else maxTs
           | None => maxTs
           end)
        batch start in
    (start <= newest)%Z
    /\ (forall item ts, item ∈ batch -> getCreatedAtFromDomain item = Some ts -> (ts <= newest)%Z)
    /\ (newest = start
        \/ exists item, item ∈ batch /\ getCreatedAtFromDomain item = Some newest).
Proof.
  induction batch as [|item batch IH]; intros start Hstart; cbv zeta; cbn [fold_left].
  - split; [lia|]. split; [|by left]. intros item ts Hin. by apply elem_of_nil in Hin.
  - set (next := match getCreatedAtFromDomain item with
                 | Some ts => if negb (ts =? 0)%Z && (start <? ts)%Z then ts else start
                 | None => start
                 end).
    assert (Hnext : (start <= next)%Z
                    /\ (forall ts, getCreatedAtFromDomain item = Some ts -> (ts <= next)%Z)
                    /\ (next = start \/ getCreatedAtFromDomain item = Some next)).
    { subst next. destruct (getCreatedAtFromDomain item) as [ts|].
      - destruct (Z.eqb_spec ts 0) as [Hz|Hnz], (Z.ltb_spec start ts) as [Hlt|Hge];
          cbn [negb andb]; (split; [lia|]); (split; [intros ? [= <-]; lia|]); auto.
      - split; [lia|]. split; [discriminate|by left]. }
    destruct Hnext as (Hle & Hts & Hfrom).
    destruct (IH next ltac:(lia)) as (Hle' & Hall & Hfrom'). cbv zeta in *.
    split; [lia|]. split.
    + intros item' ts Hin Hcreated. apply elem_of_cons in Hin as [->|Hin].
      * specialize (Hts ts Hcreated). lia.
      * by eapply Hall.
    + destruct Hfrom' as [Heq|(item' & Hin & Hcreated)].
      * rewrite Heq. destruct Hfrom as [->|Hcreated]; [by left|].
        right. exists item. split; [left|exact Hcreated].
      * right. exists item'. split; [by right|exact Hcreated].
Qed.

(** X15. [getMaxCreatedAtIso] gives the newest time stamp of a page: it
    is null exactly when no record of the page carries a time stamp after
    the epoch; otherwise it is the ISO text of the time stamp of one of the
    records, which is positive and at least the time stamp of every
    record. *)
Theorem getMaxCreatedAtIso_newest (batch : list MarketplaceDomain) :
  (getMaxCreatedAtIso batch = None
   <-> forall item ts, item ∈ batch -> getCreatedAtFromDomain item = Some ts -> (ts <= 0)%Z)
  /\ forall iso, getMaxCreatedAtIso batch = Some iso ->
       exists item ts,
         item ∈ batch /\ getCreatedAtFromDomain item = Some ts /\ (0 < ts)%Z
         /\ iso = toISOString ts
         /\ forall item' ts', item' ∈ batch -> getCreatedAtFromDomain item' = Some ts' ->
                              (ts' <= ts)%Z.
Proof.
  unfold getMaxCreatedAtIso.
  destruct (newest_fold batch 0 ltac:(lia)) as (Hle & Hall & Hfrom). cbv zeta in *.
  set (newest := fold_left _ batch 0%Z) in *.
  destruct (Z.eqb_spec newest 0) as [E|Hnz].
  - split; [|discriminate]. split; [|reflexivity].
    intros _ item ts Hin Hc. rewrite <- E. by eapply Hall.
  - split.
    + split; [discriminate|]. intros Hnone.
      destruct Hfrom as [E|(item & Hin & Hc)]; [lia|].
      specialize (Hnone item newest Hin Hc). lia.
    + intros iso [= <-]. destruct Hfrom as [E|(item & Hin & Hc)]; [lia|].
      exists item, newest. repeat split; try done. lia.
Qed.

End Newest.

(** ** A fetch that is answered after some retries *)

Section Retried.
Context `{Host}.

Lemma attempts_retried (resp : nat -> Response.t) (page perPage : Z) :
  forall k left attempt lastStatus (w : world),
    (forall i, (i < k)%nat ->
       (http (requests w + i) page perPage).2 = inr (resp (attempt + i)%nat)) ->
    (forall i, (i < k)%nat -> retryable (resp (attempt + i)%nat) = true) ->
    exists w' status,
      attempts (k + left) attempt lastStatus page perPage w
      = attempts left (attempt + k) status page perPage w'
      /\ requests w' = (requests w + k)%nat
      /\ sleeps (trace w')
         = (sleeps (trace w) ++ map (fun i => waitAfter (resp i) i) (seq attempt k))%list
      /\ upserts (trace w') = upserts (trace w)
      /\ domains w' = domains w /\ meta w' = meta w.
Proof.
  induction k as [|k IH]; intros left attempt lastStatus w Hanswer Hretry.
  - exists w, lastStatus. rewrite !Nat.add_0_r, app_nil_r. by repeat split.
  - pose proof (Hanswer 0%nat ltac:(lia)) as H0. pose proof (Hretry 0%nat ltac:(lia)) as R0.
    rewrite Nat.add_0_r in H0. rewrite Nat.add_0_r in H0. rewrite Nat.add_0_r in R0.
    cbn [Nat.add attempts].
    destruct (http (requests w) page perPage) as [dt answer]. cbn [snd] in H0. subst answer.
    cbn zeta. unfold retryable in R0. apply andb_true_iff in R0 as [Hnok Hkind].
    apply negb_true_iff in Hnok. rewrite Hnok.
    set (w1 := withEffect dt 1 (Request page perPage) w).
    set (w2 := sleep (waitAfter (resp attempt) attempt) w1).
    assert (Hnext :
      (if (Response.status (resp attempt) =? 429)%Z
       then attempts (k + left) (S attempt) (Response.status (resp attempt)) page perPage
              (sleep (rateLimitWait (Response.retryAfter (resp attempt)) attempt) w1)
       else if (500 <=? Response.status (resp attempt))%Z
            then attempts (k + left) (S attempt) (Response.status (resp attempt)) page perPage
                   (sleep (serverErrorWait attempt) w1)
            else (inl (rejectedMessage (Response.status (resp attempt))), w1))
      = attempts (k + left) (S attempt) (Response.status (resp attempt)) page perPage w2).
    { subst w2. unfold waitAfter.
      destruct (Response.status (resp attempt) =? 429)%Z; [reflexivity|].
      cbn [orb] in Hkind. by rewrite Hkind. }
    rewrite Hnext.
    destruct (IH left (S attempt) (Response.status (resp attempt)) w2)
      as (w' & status & Hrun & Hreq & Hsl & Hup & Hd & Hm).
    { intros i Hi. replace (requests w2 + i)%nat with (requests w + S i)%nat
        by (subst w2 w1; cbn [sleep withEffect requests]; lia).
      rewrite (Hanswer (S i)) by lia. do 2 f_equal. lia. }
    { intros i Hi. replace (S attempt + i)%nat with (attempt + S i)%nat by lia.
      apply Hretry. lia. }
    exists w', status. split; [rewrite Hrun; f_equal; lia|].
    split; [rewrite Hreq; subst w2 w1; cbn [sleep withEffect requests]; lia|].
    split; [rewrite Hsl; subst w2 w1; cbn [sleep withEffect trace seq map];
            rewrite !sleeps_app; cbn; by rewrite <- !(assoc_L (++))|].
    split; [rewrite Hup; subst w2 w1; cbn [sleep withEffect trace];
            rewrite !upserts_app; cbn; by rewrite !app_nil_r|].
    rewrite Hd, Hm. by subst w2 w1.
Qed.

(** X16. With the API key configured, when the first k requests of a
    fetch (k at most 8) are answered with 429 or a status of 500 or more
    and the next request is answered with a success, or fails in
    transport: the fetch returns the body of that answer, or fails with
    the error of the transport without a further retry, having sent
    exactly k + 1 requests and waited the k delays of the retries and
    nothing else. *)
Theorem fetch_after_retries (page perPage : Z) (w : world) (resp : nat -> Response.t)
    (k : nat) (final : string + Response.t)
    (Hkey : truthy (default "" apiKey) = true)
    (Hk : (k <= MAX_RETRIES)%nat)
    (Hanswers : forall i, (i < k)%nat ->
                  answerAt w page perPage i = Some (resp i) /\ retryable (resp i) = true)
    (Hfinal : (http (requests w + k) page perPage).2 = final)
    (Hsettled : match final with inr r => Response.ok r = true | inl _ => True end) :
  let out := fetchExternalDomainsRaw page perPage w in
  out.1 = match final with inl err => inl err | inr r => Response.body r end
  /\ requests out.2 = (requests w + S k)%nat
  /\ sleeps (trace out.2)
     = (sleeps (trace w) ++ map (fun i => waitAfter (resp i) i) (seq 0 k))%list
  /\ upserts (trace out.2) = upserts (trace w)
  /\ domains out.2 = domains w /\ meta out.2 = meta w.
Proof.
  cbv zeta.
  assert (Hrun : fetchExternalDomainsRaw page perPage w
                 = attempts (S MAX_RETRIES) 0 0 page perPage w).
  { unfold fetchExternalDomainsRaw.
    destruct apiKey as [key|]; simpl in Hkey; [by rewrite Hkey|discriminate]. }
  rewrite Hrun. replace (S MAX_RETRIES) with (k + S (MAX_RETRIES - k))%nat by lia.
  destruct (attempts_retried resp page perPage k (S (MAX_RETRIES - k)) 0 0 w)
    as (w' & status & -> & Hreq & Hsl & Hup & Hd & Hm).
  { intros i Hi. destruct (Hanswers i Hi) as [Ha _]. unfold answerAt in Ha.
    cbn [Nat.add]. destruct ((http (requests w + i) page perPage).2); [discriminate|congruence]. }
  { intros i Hi. by destruct (Hanswers i Hi). }
  cbn [attempts Nat.add]. rewrite Hreq.
  destruct (http (requests w + k) page perPage) as [dt answer]. cbn [snd] in Hfinal.
  subst answer. cbn zeta.
  assert (Hs1 : sleeps (trace (withEffect dt 1 (Request page perPage) w'))
                = sleeps (trace w'))
    by (cbn [withEffect trace]; rewrite sleeps_app; apply app_nil_r).
  assert (Hu1 : upserts (trace (withEffect dt 1 (Request page perPage) w'))
                = upserts (trace w'))
    by (cbn [withEffect trace]; rewrite upserts_app; apply app_nil_r).
  destruct final as [err|r]; [|rewrite Hsettled]; cbn [fst snd];
    rewrite Hs1, Hu1, Hsl, Hup; cbn [withEffect requests domains meta];
    rewrite Hreq, Hd, Hm; repeat split; lia.
Qed.

End Retried.

Lemma fetch_after_retries_witness :
  let out := @fetchExternalDomainsRaw Demo.recovering 1 100 Demo.start in
  out.1 = inr (Demo.pagePayload 1)
  /\ requests out.2 = 2%nat
  /\ sleeps (trace out.2) = [5000%Q]
  /\ upserts (trace out.2) = []
  /\ domains out.2 = ∅ /\ meta out.2 = ∅.
Proof.
  apply (@fetch_after_retries Demo.recovering 1 100 Demo.start
           (fun _ => {| Response.status := 429; Response.retryAfter := Some "5";
                        Response.body := inr (Demo.pagePayload 1) |})
           1 (inr {| Response.status := 200; Response.retryAfter := None;
                     Response.body := inr (Demo.pagePayload 1) |})).
  - reflexivity.
  - vm_compute. lia.
  - intros i Hi. assert (i = 0)%nat as -> by lia. split; reflexivity.
  - reflexivity.
  - reflexivity.
Defined.

(** ** A process without the API key *)

Section MissingKey.
Context `{Host}.

Lemma readCursor_cache mode w :
  analyticsVersion (readCursor mode w).2 = analyticsVersion w
  /\ analyticsCache (readCursor mode w).2 = analyticsCache w.
Proof. by destruct (readCursor_frame mode w) as [->|[v ->]]. Qed.

Lemma fetch_missing_key page perPage w :
  truthy (default "" apiKey) = false ->
  fetchExternalDomainsPage page perPage w = (inl missingKeyMessage, w).
Proof.
  intros Hkey. unfold fetchExternalDomainsPage, fetchExternalDomainsRaw.
  destruct apiKey as [key|]; simpl in Hkey; [by rewrite Hkey|reflexivity].
Qed.

Lemma pageLoop_missing_key more mode cursor page totalPages maxSeen w :
  truthy (default "" apiKey) = false ->
  pageLoop more mode cursor page totalPages maxSeen w = (inl missingKeyMessage, w).
Proof.
  intros Hkey. destruct more; cbn [pageLoop]; by rewrite (fetch_missing_key _ _ _ Hkey).
Qed.

(** X17. Without the API key a call of [syncSoindaDomains] that passes
    the guard fails with the error that names the variable, before any
    request is sent: the table, the trace and the analytics cache are as
    the call found them, [last_sync_error] is that message, no cooldown is
    set and [last_sync_at] is left alone, so that the schedule does not
    hold back the next call. *)
Theorem missing_key_run (force bypassSchedule : bool) (w : world)
    (Hkey : truthy (default "" apiKey) = false)
    (Hidle : runningSync w = false)
    (Hopen : force || bypassSchedule || (isSyncDue w && canSyncNow w) = true) :
  let out := syncSoindaDomains force bypassSchedule w in
  out.1 = Failed missingKeyMessage
  /\ requests out.2 = requests w /\ trace out.2 = trace w /\ domains out.2 = domains w
  /\ analyticsVersion out.2 = analyticsVersion w /\ analyticsCache out.2 = analyticsCache w
  /\ runningSync out.2 = false
  /\ getMeta "last_sync_error" out.2 = Some missingKeyMessage
  /\ getMeta "next_sync_not_before" out.2
     = (if force then None else getMeta "next_sync_not_before" w)
  /\ getMeta "last_sync_at" out.2 = getMeta "last_sync_at" w.
Proof.
  cbv zeta. rewrite (sync_guard_open force bypassSchedule w Hidle Hopen).
  unfold runSync.
  set (w3 := setMeta "sync_mode" _ _).
  set (mode := runMode force _).
  destruct (readCursor_quiet mode w3) as (Ht4 & Hr4 & Hd4 & Hm4).
  destruct (readCursor_cache mode w3) as (Hv4 & Hc4).
  destruct (readCursor mode w3) as [cursor w4]. cbn [snd] in *.
  rewrite (pageLoop_missing_key _ _ _ _ _ _ _ Hkey). cbn [fst snd].
  assert (Hnot : isRateLimitError missingKeyMessage = false) by (vm_compute; reflexivity).
  unfold recordFailure. rewrite Hnot.
  change (requests (withRunningSync false (setMeta ?k ?v ?x))) with (requests x).
  change (trace (withRunningSync false (setMeta ?k ?v ?x))) with (trace x).
  change (domains (withRunningSync false (setMeta ?k ?v ?x))) with (domains x).
  change (analyticsVersion (withRunningSync false (setMeta ?k ?v ?x))) with (analyticsVersion x).
  change (analyticsCache (withRunningSync false (setMeta ?k ?v ?x))) with (analyticsCache x).
  rewrite Ht4, Hr4, Hd4, Hv4, Hc4, !getMeta_running, getMeta_setMeta_eq.
  rewrite !(getMeta_setMeta_ne _ "last_sync_error") by done.
  rewrite !Hm4 by done. unfold w3.
  rewrite !getMeta_setMeta_ne by done.
  destruct (prepared_frame force w) as (_ & Hpd & Hpt & Hpv & Hpn).
  split; [reflexivity|]. split; [by destruct force|]. split; [exact Hpt|].
  split; [exact Hpd|]. split; [exact Hpv|]. split; [by destruct force|].
  split; [reflexivity|]. split; [reflexivity|]. split; [exact Hpn|].
  unfold prepared. rewrite getMeta_running. destruct force; [|reflexivity].
  by rewrite !getMeta_setMeta_ne by done.
Qed.

End MissingKey.

Lemma missing_key_run_witness :
  let out := @syncSoindaDomains (withoutKey Demo.healthy) false true Demo.start in
  out.1 = Failed missingKeyMessage
  /\ requests out.2 = requests (@Demo.start (withoutKey Demo.healthy))
  /\ trace out.2 = trace (@Demo.start (withoutKey Demo.healthy))
  /\ domains out.2 = domains (@Demo.start (withoutKey Demo.healthy))
  /\ analyticsVersion out.2 = analyticsVersion (@Demo.start (withoutKey Demo.healthy))
  /\ analyticsCache out.2 = analyticsCache (@Demo.start (withoutKey Demo.healthy))
  /\ runningSync out.2 = false
  /\ @getMeta (withoutKey Demo.healthy) "last_sync_error" out.2 = Some missingKeyMessage
  /\ @getMeta (withoutKey Demo.healthy) "next_sync_not_before" out.2
     = (if false then None
        else @getMeta (withoutKey Demo.healthy) "next_sync_not_before" Demo.start)
  /\ @getMeta (withoutKey Demo.healthy) "last_sync_at" out.2
     = @getMeta (withoutKey Demo.healthy) "last_sync_at" Demo.start.
Proof.
  apply (@missing_key_run (withoutKey Demo.healthy) false true Demo.start); reflexivity.
Defined.

(** ** Where the rows of a payload are looked for *)

Lemma collectArrays_values (depth : nat) (kvs : list (string * json)) (l : list json) :
  (depth <= 5)%nat ->
  l ∈ collectArrays depth (JObj kvs)
  <-> exists k v, (k, v) ∈ kvs /\ l ∈ collectArrays (S depth) v.
Proof.
  intros Hd. cbn [collectArrays].
  destruct (Nat.ltb_spec 5 depth) as [Hlt|_]; [lia|].
  induction kvs as [|[k v] kvs IH].
  - split; [intros Hin; by apply elem_of_nil in Hin|].
    intros (k & v & Hin & _). by apply elem_of_nil in Hin.
  - rewrite elem_of_app, IH. split.
    + intros [Hv|(k' & v' & Hin & Hl)]; [exists k, v; split; [left|exact Hv]|].
      exists k', v'. split; [by right|exact Hl].
    + intros (k' & v' & Hin & Hl). apply elem_of_cons in Hin as [[= -> ->]|Hin]; [by left|].
      right. by exists k', v'.
Qed.

Lemma collectArrays_too_deep (depth : nat) (payload : json) :
  (5 < depth)%nat -> collectArrays depth payload = [].
Proof.
  intros Hd. destruct payload; cbn [collectArrays];
    destruct (Nat.ltb_spec 5 depth); first [reflexivity|lia].
Qed.

Lemma collectArrays_found (l : list json) :
  forall n payload depth,
    arrayAt n payload l -> (n + depth <= 5)%nat -> l ∈ collectArrays depth payload.
Proof.
  intros n payload depth Hat. revert depth.
  induction Hat as [l|n kvs k v l Hin _ IH]; intros depth Hd.
  - cbn [collectArrays]. destruct (Nat.ltb_spec 5 depth); [lia|]. left.
  - apply collectArrays_values; [lia|]. exists k, v. split; [exact Hin|].
    apply IH. lia.
Qed.

Lemma collectArrays_sound (l : list json) :
  forall fuel payload depth,
    (5 < depth + fuel)%nat ->
    l ∈ collectArrays depth payload ->
    exists n, (n + depth <= 5)%nat /\ arrayAt n payload l.
Proof.
  induction fuel as [|fuel IH]; intros payload depth Hfuel Hin.
  - rewrite collectArrays_too_deep in Hin by lia. by apply elem_of_nil in Hin.
  - destruct (Nat.ltb_spec 5 depth) as [Hlt|Hle].
    { rewrite collectArrays_too_deep in Hin by lia. by apply elem_of_nil in Hin. }
    destruct payload as [|b|q|s|items|kvs].
    1, 2, 3, 4: cbn [collectArrays] in Hin; destruct (5 <? depth)%nat;
                by apply elem_of_nil in Hin.
    + cbn [collectArrays] in Hin. destruct (Nat.ltb_spec 5 depth); [lia|].
      apply list_elem_of_singleton in Hin as ->. exists 0%nat. split; [lia|constructor].
    + apply collectArrays_values in Hin as (k & v & Hkv & Hl); [|lia].
      destruct (IH v (S depth) ltac:(lia) Hl) as (n & Hn & Hat).
      exists (S n). split; [lia|]. by econstructor.
Qed.

(** X18. The candidate arrays of a payload are exactly the arrays found
    at most five objects deep in it, the payload itself included: an array
    lying deeper, or inside another array, is no candidate.  The rows
    [extractRows] returns are one of these arrays, or none. *)
Theorem collectArrays_depth (payload : json) (l : list json) :
  (l ∈ collectArrays 0 payload <-> exists n, (n <= 5)%nat /\ arrayAt n payload l)
  /\ (extractRows payload = []
      \/ exists n, (n <= 5)%nat /\ arrayAt n payload (extractRows payload)).
Proof.
  assert (Hiff : forall l', l' ∈ collectArrays 0 payload
                            <-> exists n, (n <= 5)%nat /\ arrayAt n payload l').
  { intros l'. split.
    - intros Hin. destruct (collectArrays_sound l' 6 payload 0 ltac:(lia) Hin) as (n & Hn & Hat).
      exists n. split; [lia|exact Hat].
    - intros (n & Hn & Hat). apply (collectArrays_found l' n); [exact Hat|lia]. }
  split; [apply Hiff|].
  unfold extractRows. destruct (rank (collectArrays 0 payload)) as [|best rest] eqn:E;
    [by left|right].
  apply Hiff. assert (Hbest : best ∈ rank (collectArrays 0 payload)) by (rewrite E; left).
  unfold rank in Hbest. rewrite sortBy_perm in Hbest.
  apply list_elem_of_fmap in Hbest as (l' & -> & Hl'). exact Hl'.
Qed.

Example deep_rows_not_found : extractRows deepPayload = [].
Proof. vm_compute. reflexivity. Qed.

Example nested_rows_not_found : extractRows nestedPayload = [JArr [JStr "inner.example.com"]].
Proof. vm_compute. reflexivity. Qed.

(** ** A forced run against an upstream that reports its total *)

Section Healthy.
Context `{Host}.
Variable total : Q.
Hypothesis Hkey : truthy (default "" apiKey) = true.
Hypothesis Hup : reportsTotal total.





End Healthy.


(** ** The watermark a run leaves *)

Section WatermarkFacts.
Context `{Host}.





End WatermarkFacts.


(** ** From a row of the upstream to a record of a query *)

Lemma normalizeDomain_raw (row : json) (item : MarketplaceDomain) :
  normalizeDomain row = Some item -> raw item = rawOf row.
Proof.
  intros Hitem.
  destruct row as [|b|q|text|l|kvs]; unfold normalizeDomain in Hitem;
    cbn [asRecord rawOf] in *; try discriminate Hitem.
  - destruct (negb (includes "." _)); [discriminate|]. by injection Hitem as <-.
  - destruct (extractDomainField (JArr l)) as [d|]; [|discriminate].
    destruct (negb (truthy d)); [discriminate|]. by injection Hitem as <-.
  - destruct (extractDomainField (JObj kvs)) as [d|]; [|discriminate].
    destruct (negb (truthy d)); [discriminate|]. by injection Hitem as <-.
Qed.

Lemma upsertMany_other batch nowIso (table : gmap string Db.row) k :
  Forall (fun x => domain x <> k) batch ->
  upsertMany batch nowIso table !! k = table !! k.
Proof.
  unfold upsertMany. revert table.
  induction batch as [|x batch IH]; intros table Hb; [reflexivity|].
  inversion Hb as [|? ? Hx Hrest]; subst. cbn [foldl]. rewrite (IH _ Hrest).
  unfold upsertRow. rewrite rowOf_domain. by apply lookup_insert_ne.
Qed.

Lemma domainOfRow_rowOf item nowIso :
  domainOfRow (rowOf item nowIso)
  = {| domain := domain item; tld := tld item; available := available item;
       price := price item; currency := currency item; status := status item;
       raw := parseJsonObject (raw item) |}.
Proof.
  unfold domainOfRow, rowOf. cbn [Db.domain Db.tld Db.available Db.price Db.currency
                                  Db.status Db.raw_json].
  by destruct (available item) as [[]|].
Qed.

(** X21. A record [normalizeDomain] makes of a row that is no array,
    once upserted in a batch in which no later record has the same domain,
    is stored under its domain with the time of the batch, and is read
    back by a query as the very same record: the availability goes through
    the 0/1 column and the raw object through the JSON column unchanged.
    The raw of a record made of an array row is read back as the empty
    object. *)
Theorem stored_record_round_trip (row : json) (item : MarketplaceDomain)
    (before after : list MarketplaceDomain) (nowIso : string)
    (table : gmap string Db.row)
    (Hitem : normalizeDomain row = Some item)
    (Hlast : Forall (fun x => domain x <> domain item) after) :
  exists r,
    upsertMany (before ++ item :: after) nowIso table !! domain item = Some r
    /\ Db.updated_at r = nowIso
    /\ ((forall l, row <> JArr l) -> domainOfRow r = item)
    /\ ((exists l, row = JArr l) -> raw (domainOfRow r) = JObj []).
Proof.
  exists (rowOf item nowIso).
  split.
  { rewrite upsertMany_app.
    change (upsertMany (item :: after) nowIso ?t)
      with (upsertMany after nowIso (upsertRow t (rowOf item nowIso))).
    rewrite (upsertMany_other after nowIso _ _ Hlast).
    unfold upsertRow. rewrite rowOf_domain. apply lookup_insert_eq. }
  split; [reflexivity|].
  rewrite domainOfRow_rowOf, (normalizeDomain_raw row item Hitem).
  split.
  - intros Hobject. destruct item as [d t a p c s rw].
    cbn [domain tld available price currency status raw] in *. f_equal.
    pose proof (normalizeDomain_raw row _ Hitem) as Hraw. cbn [raw] in Hraw. subst rw.
    destruct row as [|b|q|text|l|kvs]; try reflexivity; try discriminate Hitem.
    by destruct (Hobject l).
  - intros [l ->]. reflexivity.
Qed.

Lemma stored_record_round_trip_witness :
  exists r,
    upsertMany ([earlierRecord]
                ++ {| domain := "release.v2.1"; tld := "1"; available := None; price := None;
                      currency := None; status := None; raw := versionRow |}
                   :: [laterRecord]) "now" ∅ !! "release.v2.1" = Some r
    /\ Db.updated_at r = "now"
    /\ ((forall l, versionRow <> JArr l)
        -> domainOfRow r
           = {| domain := "release.v2.1"; tld := "1"; available := None; price := None;
                currency := None; status := None; raw := versionRow |})
    /\ ((exists l, versionRow = JArr l) -> raw (domainOfRow r) = JObj []).
Proof.
  apply (stored_record_round_trip versionRow
           {| domain := "release.v2.1"; tld := "1"; available := None; price := None;
              currency := None; status := None; raw := versionRow |}
           [earlierRecord] [laterRecord] "now" ∅).
  - vm_compute. reflexivity.
  - repeat constructor. cbn. discriminate.
Defined.

(** ** A run in incremental mode *)

Section IncrementalFacts.
Context `{Host}.




End IncrementalFacts.


(** ** Records of one domain in the list of all pages *)

Lemma seen_domain (d : string) (acc : list MarketplaceDomain) :
  existsb (String.eqb d) (map domain acc) = true <-> exists y, y ∈ acc /\ domain y = d.
Proof.
  rewrite existsb_exists. split.
  - intros (d' & Hin & Hd). apply String.eqb_eq in Hd. subst d'.
    apply list_elem_of_In, list_elem_of_fmap in Hin as (y & Hy & Hin). by exists y.
  - intros (y & Hin & Hy). exists (domain y). split; [|by apply String.eqb_eq].
    apply list_elem_of_In, list_elem_of_fmap. by exists y.
Qed.

Lemma dedupe_step (all : list MarketplaceDomain) :
  forall acc,
    let out :=
      foldl (fun acc item =>
               if existsb (String.eqb (domain item)) (map domain acc) then acc
               else (acc ++ [item])%list) acc all in
    NoDup (map domain acc) ->
    NoDup (map domain out)
    /\ (exists rest, out = (acc ++ rest)%list /\ forall item, item ∈ rest -> item ∈ all)
    /\ (forall item, item ∈ all -> exists kept, kept ∈ out /\ domain kept = domain item)
    /\ (forall pre item post,
          all = (pre ++ item :: post)%list ->
          Forall (fun x => domain x <> domain item) (acc ++ pre) -> item ∈ out).
Proof.
  induction all as [|x all IH]; intros acc; cbv zeta; intros Hnd; cbn [foldl].
  - split; [exact Hnd|]. split; [exists []; split; [by rewrite app_nil_r|set_solver]|].
    split; [set_solver|]. intros pre item post Hall. by destruct pre.
  - destruct (existsb (String.eqb (domain x)) (map domain acc)) eqn:Ex.
    + apply seen_domain in Ex as (y & Hy & Hd).
      destruct (IH acc Hnd) as (Hnd' & (rest & Hout & Hrest) & Hcover & Hfirst).
      split; [exact Hnd'|].
      split; [exists rest; split; [exact Hout|]; intros item Hin; right; by apply Hrest|].
      split.
      * intros item Hin. apply elem_of_cons in Hin as [->|Hin]; [|by apply Hcover].
        exists y. split; [|exact Hd]. rewrite Hout. apply elem_of_app. by left.
      * intros pre item post Hall Hpre.
        destruct pre as [|p pre]; cbn in Hall; injection Hall as -> ->.
        -- rewrite app_nil_r in Hpre. rewrite Forall_forall in Hpre.
           by destruct (Hpre y Hy).
        -- apply (Hfirst pre item post eq_refl).
           apply Forall_app in Hpre as [Hacc Hpre]. inversion Hpre; subst.
           by apply Forall_app.
    + assert (Hnext : NoDup (map domain (acc ++ [x]))).
      { rewrite map_app. apply NoDup_app. split; [exact Hnd|].
        split; [|apply NoDup_singleton].
        intros d Hd Hx. apply list_elem_of_singleton in Hx. subst d.
        apply list_elem_of_fmap in Hd as (y & Hy & Hin).
        assert (Hseen : existsb (String.eqb (domain x)) (map domain acc) = true)
          by (apply seen_domain; by exists y).
        congruence. }
      destruct (IH (acc ++ [x])%list Hnext) as (Hnd' & (rest & Hout & Hrest) & Hcover & Hfirst).
      split; [exact Hnd'|].
      split.
      { exists (x :: rest). split; [by rewrite Hout, <- (assoc_L (++))|].
        intros item Hin. apply elem_of_cons in Hin as [->|Hin]; [left|right; by apply Hrest]. }
      split.
      * intros item Hin. apply elem_of_cons in Hin as [->|Hin]; [|by apply Hcover].
        exists x. split; [|reflexivity]. rewrite Hout. set_solver.
      * intros pre item post Hall Hpre.
        destruct pre as [|p pre]; cbn in Hall; injection Hall as -> ->.
        -- rewrite Hout. set_solver.
        -- apply (Hfirst pre item post eq_refl).
           apply Forall_app in Hpre as [Hacc Hpre]. inversion Hpre; subst.
           rewrite !Forall_app. repeat split; try done. by constructor.
Qed.

(** X23. The list [fetchAllExternalDomains] makes of the records of all
    pages keeps one record per domain, the first one in the order of the
    pages: its domains are without duplicates, its records are records of
    the pages, every domain of the pages is kept, and a record with no
    record of the same domain before it is kept itself. *)
Theorem dedupe_first_wins (all : list MarketplaceDomain) :
  NoDup (map domain (dedupe all))
  /\ (forall item, item ∈ dedupe all -> item ∈ all)
  /\ (forall item, item ∈ all -> exists kept, kept ∈ dedupe all /\ domain kept = domain item)
  /\ (forall pre item post,
        all = (pre ++ item :: post)%list ->
        Forall (fun x => domain x <> domain item) pre -> item ∈ dedupe all).
Proof.
  destruct (dedupe_step all [] (NoDup_nil_2 : NoDup (map domain []))) as (Hnd & (rest & Hout & Hrest) & Hcover & Hfirst).
  fold (dedupe all) in *. split; [exact Hnd|]. split.
  - intros item Hin. apply Hrest. by rewrite Hout in Hin.
  - split; [exact Hcover|]. intros pre item post Hall Hpre. by eapply Hfirst.
Qed.

Example dedupe_keeps_first : dedupe [earlierRecord; laterRecord] = [earlierRecord].
Proof. vm_compute. reflexivity. Qed.

